(** * Seat acquisition and aggregation pipeline of the Copilot metrics dashboard

    A shallow embedding of [src/dashboard/services/copilot-seat-service.ts].

    - JavaScript [number]s that hold counts, pages and time values are [Z];
      a value that may be [null] or [undefined] is an [option].
    - Strings are [string]; a string is truthy when it is not empty.
    - The network is a script of exchanges: the k-th call of [fetch] is answered
      by the k-th exchange, applied to the requested URL.  When the script is
      exhausted the call rejects, as it does when the network is down.  Every
      pagination loop consumes one exchange per round, so the loops are
      structurally recursive on the script.
    - The system clock is a function from the number of earlier readings to a
      time value in milliseconds; each [new Date()] is one reading.
    - Records handed to the aggregator live in a store indexed by reference, so
      that the in-place backfill of the first record is visible to the caller. *)

From Stdlib Require Import ZArith List String Ascii Bool Lia.
From stdpp Require Import base decidable option list strings gmap functions pretty.

Open Scope Z_scope.
Open Scope string_scope.
Import ListNotations.

(** ** Data model (features/common/models) *)

Record GitHubUser := {
  login : string;
  display_name : option string;
  url : string;
}.

Record GitHubTeam := {
  name : string;
  id : option Z;
  parent : option string;   (* [parent.name] of the enclosing team *)
}.

Record SeatAssignment := {
  assignee : GitHubUser;
  seat_organization : option string;
  assigning_team : option GitHubTeam;
  created_at : string;
  updated_at : string;
  last_activity_at : option string;
  last_activity_editor : string;
  plan_type : string;
  pending_cancellation_date : option string;
}.

(** One page of seats.  Fields that legacy documents and the empty aggregate
    leave undefined are optional. *)
Record CopilotSeatsData := {
  enterprise : option string;
  organization : option string;
  seats : list SeatAssignment;
  total_seats : Z;
  total_active_seats : option Z;
  page : option Z;
  has_next_page : option bool;
  last_update : option string;
  date : option string;
  doc_id : option string;
}.

Record IFilter := {
  filter_date : option Z;
  filter_enterprise : string;
  filter_organization : string;
  team : list string;
  filter_page : Z;
}.

(** [ServerActionResponse<T>]: either the status OK with a response, or one
    of the failure statuses with its error messages. *)
Inductive ErrorStatus := ERROR | NOT_FOUND | UNAUTHORIZED.

Record ResponseError := {
  err_status : ErrorStatus;
  errors : list string;
}.

Inductive ServerActionResponse (T : Type) :=
  | OK (response : T)
  | Failed (e : ResponseError).
Arguments OK {T} response.
Arguments Failed {T} e.

Definition isOK {T} (r : ServerActionResponse T) : bool :=
  match r with OK _ => true | Failed _ => false end.

Record GitHubConfig := {
  cfg_organization : string;
  cfg_enterprise : string;
  token : string;
  version : string;
}.

(** ** JavaScript truthiness of the values the service tests *)

Definition truthy_string (s : string) : bool :=
  match s with EmptyString => false | String _ _ => true end.

Definition truthy_ostring (o : option string) : bool :=
  match o with None => false | Some s => truthy_string s end.

Definition truthy_number (z : Z) : bool := negb (Z.eqb z 0).

Definition truthy_onumber (o : option Z) : bool :=
  match o with None => false | Some z => truthy_number z end.

(** Modelled from the spec: [stringIsNullOrEmpty] of utils/helpers is not
    among the sources; as its name says, it holds of [null], [undefined] and
    the empty string. *)
Definition stringIsNullOrEmpty (o : option string) : bool :=
  negb (truthy_ostring o).

Definition string_eqb (a b : string) : bool := bool_decide (a = b).

(** [Array.prototype.includes] on an array of strings. *)
Definition includes (l : list string) (s : string) : bool :=
  existsb (string_eqb s) l.

(** ** HTTP exchanges *)

Record TeamMember := { member_login : option string }.

Inductive Body :=
  | BodyInvalid                                           (* [json()] rejects *)
  | BodySeats (body_seats : list SeatAssignment) (body_total : Z)
  | BodyMembers (members : list TeamMember)
  | BodyTeams (teams : list GitHubTeam).

Record Response := {
  ok : bool;
  status : Z;
  link : option string;            (* the [Link] header *)
  body : Body;
}.

Inductive FetchOutcome :=
  | FetchRejected
  | FetchResolved (r : Response).

Definition Exchange := string -> FetchOutcome.

(** What a [catch] clause can receive. *)
Inductive Thrown :=
  | NetworkFailure (requested : string)
  | MalformedBody
  | StoreFailure.

(** ** Link-header parsing *)

Definition dquote : ascii := "034"%char.

(** [\s] on the code points a header can carry. *)
Definition is_space (c : ascii) : bool :=
  let n := nat_of_ascii c in
  ((9 <=? n)%nat && (n <=? 13)%nat) || (n =? 32)%nat || (n =? 160)%nat.

(** The longest prefix free of [stop], and what follows it. *)
Fixpoint span_until (stop : ascii) (s : string) : string * string :=
  match s with
  | EmptyString => (EmptyString, EmptyString)
  | String c s' =>
      if Ascii.eqb c stop then (EmptyString, s)
      else let '(p, r) := span_until stop s' in (String c p, r)
  end.

Fixpoint skip_spaces (s : string) : string :=
  match s with
  | String c s' => if is_space c then skip_spaces s' else s
  | EmptyString => EmptyString
  end.

Fixpoint strip_prefix (p s : string) : option string :=
  match p, s with
  | EmptyString, _ => Some s
  | String a p', String b s' => if Ascii.eqb a b then strip_prefix p' s' else None
  | String _ _, EmptyString => None
  end.

(** The target part of both patterns, [<([^>]+)>;\s*], anchored at the head
    of [s]: the captured URL and the rest of the input. *)
Definition match_target (s : string) : option (string * string) :=
  match s with
  | String "<"%char s1 =>
      let '(u, r1) := span_until ">"%char s1 in
      if truthy_string u then
        match strip_prefix ">;" r1 with
        | Some r2 => Some (u, skip_spaces r2)
        | None => None
        end
      else None
  | _ => None
  end.

(** The pattern of [getNextUrlFromLinkHeader], anchored at the head of [s]:
    a target, then [rel=], a quote, at least one character that is not a
    quote, and a quote.  Both captures are returned. *)
Definition match_link_here (s : string) : option (string * string) :=
  match match_target s with
  | Some (u, r3) =>
      match strip_prefix ("rel=" ++ String dquote EmptyString) r3 with
      | Some r4 =>
          let '(rel, r5) := span_until dquote r4 in
          if truthy_string rel then
            match r5 with
            | String _ _ => Some (u, rel)
            | EmptyString => None
            end
          else None
      | None => None
      end
  | None => None
  end.

(** The pattern of [getTeamMembers], anchored at the head of [s]: a target,
    then [rel=] and the quoted word [next]. *)
Definition match_next_here (s : string) : option string :=
  match match_target s with
  | Some (u, r3) =>
      match strip_prefix ("rel=" ++ String dquote ("next" ++ String dquote EmptyString)) r3 with
      | Some _ => Some u
      | None => None
      end
  | None => None
  end.

(** [String.prototype.match] without the [g] flag: the leftmost position at
    which the anchored match succeeds. *)
Fixpoint search {A} (here : string -> option A) (s : string) : option A :=
  match here s with
  | Some m => Some m
  | None =>
      match s with
      | String _ s' => search here s'
      | EmptyString => None
      end
  end.

Fixpoint split_go (sep : ascii) (cur : string) (s : string) : list string :=
  match s with
  | EmptyString => [cur]
  | String c s' =>
      if Ascii.eqb c sep then cur :: split_go sep EmptyString s'
      else split_go sep (cur ++ String c EmptyString) s'
  end.

(** [split] at every comma. *)
Definition split_comma (s : string) : list string := split_go ","%char EmptyString s.

Fixpoint first_next (links : list string) : option string :=
  match links with
  | [] => None
  | l :: rest =>
      match search match_link_here l with
      | Some (u, rel) => if string_eqb rel "next" then Some u else first_next rest
      | None => first_next rest
      end
  end.

Definition getNextUrlFromLinkHeader (linkHeader : option string) : option string :=
  match linkHeader with
  | None => None
  | Some h => if truthy_string h then first_next (split_comma h) else None
  end.

(** ** Collaborators outside the service *)

(** Library and helper functions the service calls but does not define. *)
Class Runtime := {
  (** Time value of [new Date(s)]; [None] for an invalid date. *)
  Date_parse : string -> option Z;
  (** [format(d, ...)] of date-fns with the pattern yyyy-MM-dd. *)
  format_date : Z -> string;
  (** [a.localeCompare(b)]: negative, zero or positive. *)
  localeCompare : string -> string -> Z;
  (** The offset of the local time of the host from UTC, in milliseconds:
      [LocalTZA t true] at the UTC time value [t], [LocalTZA t false] at the
      local time value [t]. *)
  LocalTZA : Z -> bool -> Z;
  (** features/common/response-error *)
  formatResponseError : string -> Response -> ResponseError;
  unknownResponseError : Thrown -> ResponseError;
}.

Inductive ParamValue := PString (s : string) | PNumber (z : Z).

Record SqlQuerySpec := {
  query : string;
  parameters : list (string * ParamValue);
}.

(** Configuration and the historical store, as one request sees them.  A
    store query that throws answers [None]. *)
Record Env := {
  ensureGitHubEnvConfig : ServerActionResponse GitHubConfig;
  cosmosConfiguration : bool;
  GITHUB_API_SCOPE : option string;
  seats_history : SqlQuerySpec -> option (list CopilotSeatsData);
  seats_history_teams : SqlQuerySpec -> option (list GitHubTeam);
}.

(** ** The network and the clock as state *)

Record Net := {
  pending : list Exchange;     (* answers to the calls still to come *)
  requests : list string;      (* URLs requested so far, oldest first *)
}.

Record World := {
  net : Net;
  clock : nat -> Z;
  tick : nat;
}.

Abbreviation Store := (nat -> CopilotSeatsData).

Definition State (S A : Type) : Type := S -> A * S.

Definition ret {S A} (a : A) : State S A := fun s => (a, s).

Definition bind {S A B} (m : State S A) (k : A -> State S B) : State S B :=
  fun s => let '(a, s') := m s in k a s'.

Notation "x <- m ;; k" := (bind m (fun x => k))
  (at level 100, m at next level, right associativity).

(** A computation on the network run inside a computation on the world. *)
Definition onNet {A} (m : State Net A) : State World A :=
  fun w => let '(a, n) := m (net w) in
           (a, {| net := n; clock := clock w; tick := tick w |}).

(** [new Date()]: one reading of the clock. *)
Definition newDate : State World Z :=
  fun w => (clock w (tick w),
            {| net := net w; clock := clock w; tick := S (tick w) |}).

(** ** Activity window *)

Definition msPerHour : Z := 3600000.
Definition msPerDay : Z := 86400000.

(** The time values of [Date], within its range.  [getDate] and [setDate]
    work on the local time of the host. *)
Definition LocalTime {rt : Runtime} (t : Z) : Z := t + LocalTZA t true.
Definition UTC {rt : Runtime} (t : Z) : Z := t - LocalTZA t false.
Definition Day (t : Z) : Z := t / msPerDay.
Definition TimeWithinDay (t : Z) : Z := t mod msPerDay.
Definition MakeDate (day time : Z) : Z := day * msPerDay + time.

(** [d.setDate(d.getDate() - 30)].  [setDate(dt)] keeps the year, the month
    and the time within the day of the local time [t] of [d] and moves to day
    [dt] of that month, counted on from its first day also when [dt] is zero
    or negative; with [dt] the day of the month of [t] less thirty, that is
    the day numbered [Day t - 30].  The local time so made is taken back to
    UTC at the offset the host has then. *)
Definition setDateBack30 {rt : Runtime} (now : Z) : Z :=
  let t := LocalTime now in
  UTC (MakeDate (Day t - 30) (TimeWithinDay t)).

Section Service.
Context {rt : Runtime}.

(** The callback of every active-seat count:
    [if (!seat.last_activity_at) return false;
     return new Date(seat.last_activity_at) >= thirtyDaysAgo]. *)
Definition isActiveSeat (thirtyDaysAgo : Z) (seat : SeatAssignment) : bool :=
  match last_activity_at seat with
  | None => false
  | Some s =>
      if truthy_string s then
        match Date_parse s with
        | Some lastActivityDate => Z.leb thirtyDaysAgo lastActivityDate
        | None => false
        end
      else false
  end.

Definition countActive (thirtyDaysAgo : Z) (l : list SeatAssignment) : Z :=
  Z.of_nat (length (List.filter (isActiveSeat thirtyDaysAgo) l)).

(** ** Team membership resolution *)

Definition add_login (teamMembers : gset string) (l : option string) : gset string :=
  match l with
  | Some s => if truthy_string s then {[ s ]} ∪ teamMembers else teamMembers
  | None => teamMembers
  end.

(** The [login] property of each element of a parsed body on which
    [forEach] can be called; [None] when reading the body throws. *)
Definition logins_of_body (b : Body) : option (list (option string)) :=
  match b with
  | BodyMembers ms => Some (map member_login ms)
  | BodyTeams ts => Some (map (fun _ => None) ts)
  | BodySeats _ _ | BodyInvalid => None
  end.

Definition sent (p : list Exchange) (reqs : list string) (u : string) : Net :=
  {| pending := p; requests := reqs ++ [u] |}.

(** The [while (teamMembersUrl)] loop of [getTeamMembers].  Every exit other
    than the end of the pagination is a failure that the function logs and
    absorbs; the members added so far stay in the set. *)
Fixpoint getTeamMembers_loop (p : list Exchange) (reqs : list string)
    (teamMembersUrl : string) (teamMembers : gset string) : gset string * Net :=
  match p with
  | [] => (teamMembers, sent [] reqs teamMembersUrl)
  | x :: p' =>
      match x teamMembersUrl with
      | FetchRejected => (teamMembers, sent p' reqs teamMembersUrl)
      | FetchResolved response =>
          if ok response then
            match logins_of_body (body response) with
            | Some ls =>
                let teamMembers' := fold_left add_login ls teamMembers in
                let next :=
                  match link response with
                  | Some linkHeader =>
                      if truthy_string linkHeader
                      then search match_next_here linkHeader else None
                  | None => None
                  end in
                match next with
                | Some u =>
                    if truthy_string u
                    then getTeamMembers_loop p' (reqs ++ [teamMembersUrl]) u teamMembers'
                    else (teamMembers', sent p' reqs teamMembersUrl)
                | None => (teamMembers', sent p' reqs teamMembersUrl)
                end
            | None => (teamMembers, sent p' reqs teamMembersUrl)
            end
          else (teamMembers, sent p' reqs teamMembersUrl)
      end
  end.

Definition getTeamMembers (organization token teamName : string)
    (teamMembers : gset string) : State Net (gset string) :=
  fun n =>
    let teamMembersUrl :=
      "https://api.github.com/orgs/" ++ organization ++ "/teams/" ++ teamName
        ++ "/members?per_page=100" in
    if truthy_string teamMembersUrl
    then getTeamMembers_loop (pending n) (requests n) teamMembersUrl teamMembers
    else (teamMembers, n).

(** Teams of a parsed body that name [parentTeamName] as their parent;
    [None] when [filter] cannot be called on the body. *)
Definition childTeams_of_body (parentTeamName : string) (b : Body) : option (list string) :=
  match b with
  | BodyTeams ts =>
      Some (map name
        (List.filter (fun t => match parent t with
                               | Some pn => string_eqb pn parentTeamName
                               | None => false
                               end) ts))
  | BodyMembers _ => Some []
  | BodySeats _ _ | BodyInvalid => None
  end.

Fixpoint membersOfEach (organization token : string) (teamNames : list string)
    (teamMembers : gset string) : State Net (gset string) :=
  match teamNames with
  | [] => ret teamMembers
  | t :: rest =>
      tm <- getTeamMembers organization token t teamMembers ;;
      membersOfEach organization token rest tm
  end.

Definition getChildTeamMembers (organization token parentTeamName : string)
    (teamMembers : gset string) : State Net (gset string) :=
  if string_eqb parentTeamName "Birdeye_team" then
    tm <- getTeamMembers organization token "Insights_team" teamMembers ;;
    getTeamMembers organization token "labs_team" tm
  else
    fun n =>
      let allTeamsUrl :=
        "https://api.github.com/orgs/" ++ organization ++ "/teams?per_page=100" in
      match pending n with
      | [] => (teamMembers, sent [] (requests n) allTeamsUrl)
      | x :: p' =>
          let n' := sent p' (requests n) allTeamsUrl in
          match x allTeamsUrl with
          | FetchRejected => (teamMembers, n')
          | FetchResolved response =>
              if ok response then
                match childTeams_of_body parentTeamName (body response) with
                | Some childTeams =>
                    membersOfEach organization token childTeams teamMembers n'
                | None => (teamMembers, n')
                end
              else (teamMembers, n')
          end
      end.

(** The [for (const teamName of teamFilter)] loop of [filterSeatsByTeam]. *)
Fixpoint resolveTeamMembers (organization token : string) (teamFilter : list string)
    (teamMembers : gset string) : State Net (gset string) :=
  match teamFilter with
  | [] => ret teamMembers
  | teamName :: rest =>
      tm1 <- getTeamMembers organization token teamName teamMembers ;;
      tm2 <- getChildTeamMembers organization token teamName tm1 ;;
      resolveTeamMembers organization token rest tm2
  end.

(** First tier: [seat.assigning_team?.name && teamFilter.includes(...)]. *)
Definition hasRequestedTeam (teamFilter : list string) (seat : SeatAssignment) : bool :=
  match assigning_team seat with
  | Some t => truthy_string (name t) && includes teamFilter (name t)
  | None => false
  end.

Definition isTeamMember (teamMembers : gset string) (seat : SeatAssignment) : bool :=
  bool_decide (login (assignee seat) ∈ teamMembers).

Definition filterSeatsByTeam (env : Env) (seats : list SeatAssignment)
    (teamFilter : list string) : State Net (list SeatAssignment) :=
  let seatsWithTeams := List.filter (hasRequestedTeam teamFilter) seats in
  if (0 <? length seatsWithTeams)%nat then ret seatsWithTeams
  else
    match ensureGitHubEnvConfig env with
    | OK cfg =>
        teamMembers <-
          resolveTeamMembers (cfg_organization cfg) (token cfg) teamFilter ∅ ;;
        ret (List.filter (isTeamMember teamMembers) seats)
    | Failed _ => ret []
    end.

(** ** Seat aggregation *)

Definition setTotalActive (v : option Z) (d : CopilotSeatsData) : CopilotSeatsData :=
  {| enterprise := enterprise d; organization := organization d;
     seats := seats d; total_seats := total_seats d;
     total_active_seats := v;
     page := page d; has_next_page := has_next_page d;
     last_update := last_update d; date := date d; doc_id := doc_id d |}.

(** [Map<string, SeatAssignment>]: entries in insertion order. *)
Definition SeatMap := list (string * SeatAssignment).

Definition map_has (m : SeatMap) (k : string) : bool :=
  existsb (fun kv => string_eqb (fst kv) k) m.

Definition map_set (m : SeatMap) (k : string) (v : SeatAssignment) : SeatMap :=
  if map_has m k
  then map (fun kv => if string_eqb (fst kv) k then (k, v) else kv) m
  else (m ++ [(k, v)])%list.

Definition map_values (m : SeatMap) : list SeatAssignment := map snd m.

(** The [forEach] that fills [uniqueSeatsMap], then [Array.from(values())]. *)
Definition uniqueSeats (filteredSeats : list SeatAssignment) : list SeatAssignment :=
  map_values
    (fold_left
       (fun uniqueSeatsMap seat =>
          if negb (map_has uniqueSeatsMap (login (assignee seat)))
          then map_set uniqueSeatsMap (login (assignee seat)) seat
          else uniqueSeatsMap)
       filteredSeats []).

(** The literal returned for an empty input; its other fields are undefined. *)
Definition emptyAggregate : CopilotSeatsData :=
  {| enterprise := None; organization := None;
     seats := []; total_seats := 0; total_active_seats := Some 0;
     page := None; has_next_page := None;
     last_update := None; date := None; doc_id := None |}.

(** [if (teamFilter && teamFilter.length > 0)] *)
Definition teamFilterRequested (teamFilter : option (list string)) : option (list string) :=
  match teamFilter with
  | Some (t :: ts) => Some (t :: ts)
  | Some [] | None => None
  end.

Definition applyTeamFilter (env : Env) (teamFilter : option (list string))
    (seats : list SeatAssignment) : State World (list SeatAssignment) :=
  match teamFilterRequested teamFilter with
  | Some tf => onNet (filterSeatsByTeam env seats tf)
  | None => ret seats
  end.

(** The backward-compatibility block: [data[0].total_active_seats] is assigned
    in place when it is [null] or [undefined]. *)
Definition backfillFirst (sigma : Store) (r0 : nat) : State World Store :=
  match total_active_seats (sigma r0) with
  | None =>
      now <- newDate ;;
      let thirtyDaysAgo := setDateBack30 now in
      ret (<[ r0 := setTotalActive
                      (Some (countActive thirtyDaysAgo (seats (sigma r0))))
                      (sigma r0) ]> sigma)
  | Some _ => ret sigma
  end.

(** [aggregateSeatsData(data, teamFilter)].  [data] is an array of references
    into [sigma]; the store after the call is returned with the result. *)
Definition aggregateSeatsData (env : Env) (sigma : Store) (data : list nat)
    (teamFilter : option (list string)) : State World (Store * CopilotSeatsData) :=
  match data with
  | [] => ret (sigma, emptyAggregate)
  | r0 :: others =>
      sigma1 <- backfillFirst sigma r0 ;;
      match others with
      | [] =>
          filteredSeats <- applyTeamFilter env teamFilter (seats (sigma1 r0)) ;;
          now <- newDate ;;
          let thirtyDaysAgo := setDateBack30 now in
          let activeSeatsCount := countActive thirtyDaysAgo filteredSeats in
          ret (sigma1,
               {| enterprise := enterprise (sigma1 r0);
                  organization := organization (sigma1 r0);
                  seats := filteredSeats;
                  total_seats := Z.of_nat (length filteredSeats);
                  total_active_seats := Some activeSeatsCount;
                  page := page (sigma1 r0);
                  has_next_page := has_next_page (sigma1 r0);
                  last_update := last_update (sigma1 r0);
                  date := date (sigma1 r0);
                  doc_id := doc_id (sigma1 r0) |})
      | _ :: _ =>
          let allSeats := flat_map (fun r => seats (sigma1 r)) data in
          filteredSeats <- applyTeamFilter env teamFilter allSeats ;;
          let seats' := uniqueSeats filteredSeats in
          now <- newDate ;;
          let thirtyDaysAgo := setDateBack30 now in
          let activeSeatsCount := countActive thirtyDaysAgo seats' in
          ret (sigma1,
               {| enterprise := enterprise (sigma1 r0);
                  organization := organization (sigma1 r0);
                  seats := seats';
                  total_seats := Z.of_nat (length seats');
                  total_active_seats := Some activeSeatsCount;
                  page := page (sigma1 r0);
                  has_next_page := Some false;
                  last_update := last_update (sigma1 r0);
                  date := date (sigma1 r0);
                  doc_id := doc_id (sigma1 r0) |})
      end
  end.

(** Callers that own a freshly built array place its records at the
    references 0, 1, ... and drop the store afterwards. *)
Definition storeOf (l : list CopilotSeatsData) : Store :=
  fun r => nth r l emptyAggregate.

Definition aggregateFresh (env : Env) (l : list CopilotSeatsData)
    (teamFilter : option (list string)) : State World CopilotSeatsData :=
  res <- aggregateSeatsData env (storeOf l) (seq 0 (length l)) teamFilter ;;
  ret (snd res).

(** ** Seat fetcher *)

Definition enterprisePage (ent : string) (s : list SeatAssignment) (total pageCount : Z)
    (hasNext : bool) : CopilotSeatsData :=
  {| enterprise := Some ent; organization := None;
     seats := s; total_seats := total; total_active_seats := Some 0;
     page := Some pageCount; has_next_page := Some hasNext;
     last_update := None; date := Some EmptyString; doc_id := Some EmptyString |}.

Definition organizationPage (org : string) (s : list SeatAssignment) (total pageCount : Z)
    (hasNext : bool) : CopilotSeatsData :=
  {| enterprise := None; organization := Some org;
     seats := s; total_seats := total; total_active_seats := Some 0;
     page := Some pageCount; has_next_page := Some hasNext;
     last_update := None; date := Some EmptyString; doc_id := Some EmptyString |}.

(** The [do ... while (!stringIsNullOrEmpty(url))] loop of [getDataFromApi],
    the same for both scopes up to the page literal [mk].  A page whose body
    parses but carries no [seats] is kept as [None]: reading its seats throws
    only later, in the count. *)
Fixpoint fetchSeatPages
    (mk : list SeatAssignment -> Z -> Z -> bool -> CopilotSeatsData)
    (entity : string) (p : list Exchange) (reqs : list string)
    (url : string) (pageCount : Z) (acc : list (option CopilotSeatsData))
    : (ResponseError + list (option CopilotSeatsData)) * Net :=
  match p with
  | [] => (inl (unknownResponseError (NetworkFailure url)), sent [] reqs url)
  | x :: p' =>
      match x url with
      | FetchRejected =>
          (inl (unknownResponseError (NetworkFailure url)), sent p' reqs url)
      | FetchResolved response =>
          if negb (ok response)
          then (inl (formatResponseError entity response), sent p' reqs url)
          else
            match body response with
            | BodyInvalid => (inl (unknownResponseError MalformedBody), sent p' reqs url)
            | b =>
                let url' :=
                  match getNextUrlFromLinkHeader (link response) with
                  | Some u => if truthy_string u then u else EmptyString
                  | None => EmptyString
                  end in
                let hasNext := negb (stringIsNullOrEmpty (Some url')) in
                let seatPage :=
                  match b with
                  | BodySeats s total => Some (mk s total pageCount hasNext)
                  | _ => None
                  end in
                let acc' := (acc ++ [seatPage])%list in
                if hasNext
                then fetchSeatPages mk entity p' (reqs ++ [url])%list url' (pageCount + 1) acc'
                else (inr acc', sent p' reqs url)
            end
      end
  end.

(** The filter callback of [getDataFromApi], which reads the clock itself. *)
Definition isActiveSeatNow (seat : SeatAssignment) : State World bool :=
  if truthy_ostring (last_activity_at seat) then
    now <- newDate ;;
    ret (isActiveSeat (setDateBack30 now) seat)
  else ret false.

Fixpoint countActiveNow (l : list SeatAssignment) : State World Z :=
  match l with
  | [] => ret 0
  | seat :: rest =>
      b <- isActiveSeatNow seat ;;
      n <- countActiveNow rest ;;
      ret (if b then n + 1 else n)
  end.

(** Pages before the first one without seats, and whether there is one. *)
Fixpoint readablePages (l : list (option CopilotSeatsData))
    : list CopilotSeatsData * bool :=
  match l with
  | [] => ([], true)
  | None :: _ => ([], false)
  | Some d :: rest => let '(ds, complete) := readablePages rest in (d :: ds, complete)
  end.

Definition fetchAllSeats
    (mk : list SeatAssignment -> Z -> Z -> bool -> CopilotSeatsData)
    (entity url : string) : State World (ServerActionResponse (list CopilotSeatsData)) :=
  fetched <- onNet (fun n => fetchSeatPages mk entity (pending n) (requests n) url 1 []) ;;
  match fetched with
  | inl e => ret (Failed e)
  | inr pages =>
      let '(seatPages, complete) := readablePages pages in
      allActiveSeatsCount <- countActiveNow (flat_map seats seatPages) ;;
      if complete
      then ret (OK (map (setTotalActive (Some allActiveSeatsCount)) seatPages))
      else ret (Failed (unknownResponseError MalformedBody))
  end.

Definition getDataFromApi (env : Env) (filter : IFilter)
    : State World (ServerActionResponse (list CopilotSeatsData)) :=
  match ensureGitHubEnvConfig env with
  | Failed e => ret (Failed e)
  | OK _ =>
      if truthy_string (filter_enterprise filter) then
        fetchAllSeats (enterprisePage (filter_enterprise filter))
          (filter_enterprise filter)
          ("https://api.github.com/enterprises/" ++ filter_enterprise filter
             ++ "/copilot/billing/seats?per_page=100")
      else
        fetchAllSeats (organizationPage (filter_organization filter))
          (filter_organization filter)
          ("https://api.github.com/orgs/" ++ filter_organization filter
             ++ "/copilot/billing/seats?per_page=100")
  end.

Definition noDataFound : ResponseError :=
  {| err_status := ERROR; errors := ["No data found"] |}.

Definition getCopilotSeatsFromApi (env : Env) (filter : IFilter)
    : State World (ServerActionResponse CopilotSeatsData) :=
  data <- getDataFromApi env filter ;;
  match data with
  | Failed _ => ret (Failed noDataFound)
  | OK response =>
      seatsData <- aggregateFresh env response (Some (team filter)) ;;
      ret (OK seatsData)
  end.

(** ** Historical store *)

(** [s.includes(t)] on strings. *)
Fixpoint str_includes (t s : string) : bool :=
  match strip_prefix t s with
  | Some _ => true
  | None =>
      match s with
      | String _ s' => str_includes t s'
      | EmptyString => false
      end
  end.

(** A pattern of literal characters in which a dot stands for any character
    but a line terminator, anchored at the head of [s]. *)
Fixpoint match_dotted (pat s : string) : option string :=
  match pat, s with
  | EmptyString, _ => Some s
  | String a pat', String b s' =>
      if Ascii.eqb a "."%char
      then if ((nat_of_ascii b =? 10) || (nat_of_ascii b =? 13))%nat
           then None else match_dotted pat' s'
      else if Ascii.eqb a b then match_dotted pat' s' else None
  | String _ _, EmptyString => None
  end.

(** [s.replace(/pat/, ...)] with the empty replacement: the leftmost match is
    removed. *)
Fixpoint remove_first (pat s : string) : string :=
  match match_dotted pat s with
  | Some rest => rest
  | None =>
      match s with
      | String c s' => String c (remove_first pat s')
      | EmptyString => EmptyString
      end
  end.

Definition teamClauses (teams : list string) : list string :=
  imap (fun index _ => "seat.assigning_team.name = @team" ++ pretty index) teams.

Definition teamParameters (teams : list string) : list (string * ParamValue) :=
  imap (fun index t => ("@team" ++ pretty index, PString t)) teams.

Definition andClause (cond : bool) (text : string) (ps : list (string * ParamValue))
    (q : SqlQuerySpec) : SqlQuerySpec :=
  if cond
  then {| query := query q ++ text; parameters := (parameters q ++ ps)%list |}
  else q.

Definition seatsQuerySpec (dateText : string) (filter : IFilter) : SqlQuerySpec :=
  let q0 := {| query := "SELECT * FROM c WHERE c.date = @date";
               parameters := [("@date", PString dateText)] |} in
  let q1 := andClause (truthy_string (filter_enterprise filter))
              " AND c.enterprise = @enterprise"
              [("@enterprise", PString (filter_enterprise filter))] q0 in
  let q2 := andClause (truthy_string (filter_organization filter))
              " AND c.organization = @organization"
              [("@organization", PString (filter_organization filter))] q1 in
  let q3 :=
    match team filter with
    | [] => q2
    | [t] =>
        andClause true
          " AND EXISTS (SELECT VALUE 1 FROM seat IN c.seats WHERE seat.assigning_team.name = @team)"
          [("@team", PString t)] q2
    | ts =>
        andClause true
          (" AND EXISTS (SELECT VALUE 1 FROM seat IN c.seats WHERE "
             ++ String.concat " OR " (teamClauses ts) ++ ")")
          (teamParameters ts) q2
    end in
  andClause (truthy_number (filter_page filter))
    " AND c.page = @page" [("@page", PNumber (filter_page filter))] q3.

Definition withoutPage (q : SqlQuerySpec) : SqlQuerySpec :=
  {| query := remove_first " AND c.page = @page" (query q);
     parameters :=
       List.filter (fun param => negb (string_eqb (fst param) "@page")) (parameters q) |}.

Definition getDataFromDatabase (env : Env) (filter : IFilter)
    : State World (ServerActionResponse (list CopilotSeatsData)) :=
  d <- match filter_date filter with
       | Some d => ret d
       | None => newDate
       end ;;
  let querySpec := seatsQuerySpec (format_date d) filter in
  match seats_history env querySpec with
  | None => ret (Failed (unknownResponseError StoreFailure))
  | Some resources =>
      if (length resources =? 0)%nat && str_includes "c.page" (query querySpec) then
        match seats_history env (withoutPage querySpec) with
        | None => ret (Failed (unknownResponseError StoreFailure))
        | Some resources' => ret (OK resources')
        end
      else ret (OK resources)
  end.

Definition getCopilotSeatsFromDatabase (env : Env) (filter : IFilter)
    : State World (ServerActionResponse CopilotSeatsData) :=
  data <- getDataFromDatabase env filter ;;
  match data with
  | Failed _ => ret (Failed noDataFound)
  | OK response =>
      seatsData <- aggregateFresh env response (Some (team filter)) ;;
      ret (OK seatsData)
  end.

(** ** Entry points *)

(** The [switch (process.env.GITHUB_API_SCOPE)] that completes the filter
    from the configuration. *)
Definition withDefaultScope (env : Env) (cfg : GitHubConfig) (filter : IFilter) : IFilter :=
  match GITHUB_API_SCOPE env with
  | Some "enterprise" =>
      if stringIsNullOrEmpty (Some (filter_enterprise filter))
      then {| filter_date := filter_date filter;
              filter_enterprise := cfg_enterprise cfg;
              filter_organization := filter_organization filter;
              team := team filter; filter_page := filter_page filter |}
      else filter
  | _ =>
      if stringIsNullOrEmpty (Some (filter_organization filter))
      then {| filter_date := filter_date filter;
              filter_enterprise := filter_enterprise filter;
              filter_organization := cfg_organization cfg;
              team := team filter; filter_page := filter_page filter |}
      else filter
  end.

Definition getCopilotSeats (env : Env) (filter : IFilter)
    : State World (ServerActionResponse CopilotSeatsData) :=
  match ensureGitHubEnvConfig env with
  | Failed e => ret (Failed e)
  | OK cfg =>
      let filter' := withDefaultScope env cfg filter in
      if cosmosConfiguration env
      then getCopilotSeatsFromDatabase env filter'
      else getCopilotSeatsFromApi env filter'
  end.

(** What [getCopilotSeatsManagement] answers with: seat data, or the empty
    object literal cast to it. *)
Inductive ManagementData :=
  | EmptyObject
  | SeatsData (d : CopilotSeatsData).

Definition orEmptyObject (data : ServerActionResponse CopilotSeatsData)
    : ServerActionResponse ManagementData :=
  match data with
  | Failed _ => OK EmptyObject
  | OK seatsData => OK (SeatsData seatsData)
  end.

Definition getCopilotSeatsManagement (env : Env) (filter : IFilter)
    : State World (ServerActionResponse ManagementData) :=
  match ensureGitHubEnvConfig env with
  | Failed e => ret (Failed e)
  | OK cfg =>
      let filter' := withDefaultScope env cfg filter in
      if cosmosConfiguration env then
        data <- getCopilotSeatsFromDatabase env filter' ;;
        ret (orEmptyObject data)
      else
        data <- getCopilotSeatsFromApi env filter' ;;
        ret (orEmptyObject data)
  end.

(** ** Team catalog, store path *)

(** [Array.prototype.sort] with a comparator: a stable sort, here by
    insertion.  Each element goes before the first one it compares below. *)
Fixpoint insertBy {A} (cmp : A -> A -> Z) (x : A) (sorted : list A) : list A :=
  match sorted with
  | [] => [x]
  | y :: rest => if Z.ltb (cmp x y) 0 then x :: y :: rest else y :: insertBy cmp x rest
  end.

Definition sortBy {A} (cmp : A -> A -> Z) (l : list A) : list A :=
  fold_left (fun sorted x => insertBy cmp x sorted) l [].

(** [(a.name || ...).localeCompare(b.name || ...)], the absent name read as
    the empty one. *)
Definition compareTeamNames (a b : GitHubTeam) : Z := localeCompare (name a) (name b).

Definition teamsQuerySpec (dateText : string) (filter : IFilter) : SqlQuerySpec :=
  let q0 :=
    {| query := "SELECT DISTINCT VALUE seat.assigning_team FROM c JOIN seat IN c.seats WHERE IS_DEFINED(seat.assigning_team) AND seat.assigning_team != null AND c.date = @date";
       parameters := [("@date", PString dateText)] |} in
  let q1 := andClause (truthy_string (filter_enterprise filter))
              " AND c.enterprise = @enterprise"
              [("@enterprise", PString (filter_enterprise filter))] q0 in
  andClause (truthy_string (filter_organization filter))
    " AND c.organization = @organization"
    [("@organization", PString (filter_organization filter))] q1.

Definition getAllCopilotSeatsTeamsFromDatabase (env : Env) (filter : IFilter)
    : State World (ServerActionResponse (list GitHubTeam)) :=
  d <- match filter_date filter with
       | Some d => ret d
       | None => newDate
       end ;;
  match seats_history_teams env (teamsQuerySpec (format_date d) filter) with
  | None => ret (Failed (unknownResponseError StoreFailure))
  | Some resources => ret (OK (sortBy compareTeamNames resources))
  end.

(** ** Team catalog, live path *)

(** [data.seats.map(seat => seat.assigning_team).filter(team => !!team)] *)
Definition pageTeams (s : list SeatAssignment) : list GitHubTeam :=
  omap assigning_team s.

(** The first [do ... while (nextUrl)] loop of
    [getAllCopilotSeatsTeamsFromApi]. *)
Fixpoint collectSeatTeams (entity : string) (p : list Exchange) (reqs : list string)
    (nextUrl : string) (teams : list GitHubTeam)
    : (ResponseError + list GitHubTeam) * Net :=
  match p with
  | [] => (inl (unknownResponseError (NetworkFailure nextUrl)), sent [] reqs nextUrl)
  | x :: p' =>
      match x nextUrl with
      | FetchRejected =>
          (inl (unknownResponseError (NetworkFailure nextUrl)), sent p' reqs nextUrl)
      | FetchResolved response =>
          if negb (ok response)
          then (inl (formatResponseError entity response), sent p' reqs nextUrl)
          else
            match body response with
            | BodyInvalid =>
                (inl (unknownResponseError MalformedBody), sent p' reqs nextUrl)
            | b =>
                let teams' :=
                  match b with
                  | BodySeats s _ => (teams ++ pageTeams s)%list
                  | _ => teams
                  end in
                match getNextUrlFromLinkHeader (link response) with
                | Some u =>
                    if truthy_string u
                    then collectSeatTeams entity p' (reqs ++ [nextUrl])%list u teams'
                    else (inr teams', sent p' reqs nextUrl)
                | None => (inr teams', sent p' reqs nextUrl)
                end
            end
      end
  end.

(** The elements of a parsed array body, read as teams; an element that is
    not a team has no name, no id and no parent.  [None] when the body is not
    an array. *)
Definition teams_of_array (b : Body) : option (list GitHubTeam) :=
  match b with
  | BodyTeams ts => Some ts
  | BodyMembers ms =>
      Some (map (fun _ => {| name := EmptyString; id := None; parent := None |}) ms)
  | BodySeats _ _ | BodyInvalid => None
  end.

(** The fallback loop over the team listing; its failures are swallowed. *)
Fixpoint listAllTeams (p : list Exchange) (reqs : list string)
    (nextTeamsUrl : string) (teams : list GitHubTeam) : list GitHubTeam * Net :=
  match p with
  | [] => (teams, sent [] reqs nextTeamsUrl)
  | x :: p' =>
      match x nextTeamsUrl with
      | FetchRejected => (teams, sent p' reqs nextTeamsUrl)
      | FetchResolved teamsResponse =>
          if ok teamsResponse then
            match body teamsResponse with
            | BodyInvalid => (teams, sent p' reqs nextTeamsUrl)
            | b =>
                let teams' :=
                  match teams_of_array b with
                  | Some ts => (teams ++ ts)%list
                  | None => teams
                  end in
                match getNextUrlFromLinkHeader (link teamsResponse) with
                | Some u =>
                    if truthy_string u
                    then listAllTeams p' (reqs ++ [nextTeamsUrl])%list u teams'
                    else (teams', sent p' reqs nextTeamsUrl)
                | None => (teams', sent p' reqs nextTeamsUrl)
                end
            end
          else (teams, sent p' reqs nextTeamsUrl)
      end
  end.

(** [t.id ? t.id === team.id : t.name === team.name] *)
Definition sameTeam (team t : GitHubTeam) : bool :=
  if truthy_onumber (id t)
  then bool_decide (id t = id team)
  else string_eqb (name t) (name team).

(** [Array.prototype.findIndex]; [None] stands for -1. *)
Fixpoint findIndex {A} (f : A -> bool) (l : list A) : option nat :=
  match l with
  | [] => None
  | a :: rest => if f a then Some 0%nat else option_map S (findIndex f rest)
  end.

(** [teams.filter((team, index, self) => index === self.findIndex(...))] *)
Definition uniqueTeams (teams : list GitHubTeam) : list GitHubTeam :=
  map snd
    (List.filter
       (fun it => bool_decide (findIndex (sameTeam (snd it)) teams = Some (fst it)))
       (imap (fun index team => (index, team)) teams)).

Definition getAllCopilotSeatsTeamsFromApi (env : Env) (filter : IFilter)
    : State Net (ServerActionResponse (list GitHubTeam)) :=
  match ensureGitHubEnvConfig env with
  | Failed e => ret (Failed e)
  | OK _ =>
      let url :=
        if truthy_string (filter_enterprise filter)
        then "https://api.github.com/enterprises/" ++ filter_enterprise filter
               ++ "/copilot/billing/seats?per_page=100"
        else "https://api.github.com/orgs/" ++ filter_organization filter
               ++ "/copilot/billing/seats?per_page=100" in
      let entity :=
        if truthy_string (filter_enterprise filter)
        then filter_enterprise filter else filter_organization filter in
      collected <- (fun n => collectSeatTeams entity (pending n) (requests n) url []) ;;
      match collected with
      | inl e => ret (Failed e)
      | inr teams =>
          teams' <-
            (if (length teams =? 0)%nat && negb (truthy_string (filter_enterprise filter))
             then fun n =>
                    listAllTeams (pending n) (requests n)
                      ("https://api.github.com/orgs/" ++ filter_organization filter
                         ++ "/teams?per_page=100") teams
             else ret teams) ;;
          ret (OK (uniqueTeams teams'))
      end
  end.

Definition orNoData {T} (r : ServerActionResponse T) : ServerActionResponse T :=
  match r with
  | Failed _ => Failed noDataFound
  | OK response => OK response
  end.

Definition getAllCopilotSeatsTeams (env : Env) (filter : IFilter)
    : State World (ServerActionResponse (list GitHubTeam)) :=
  match ensureGitHubEnvConfig env with
  | Failed e => ret (Failed e)
  | OK cfg =>
      let filter' := withDefaultScope env cfg filter in
      if cosmosConfiguration env then
        dbResult <- getAllCopilotSeatsTeamsFromDatabase env filter' ;;
        ret (orNoData dbResult)
      else
        apiResult <- onNet (getAllCopilotSeatsTeamsFromApi env filter') ;;
        ret (orNoData apiResult)
  end.

End Service.

(** ** A runtime for the examples

    Dates in the format of the seat-listing endpoint, a four-digit year to
    seconds with the UTC designator; the order of the character codes in
    place of a locale's collation; error results in the shape of
    features/common/response-error. *)

Definition digit (c : ascii) : option Z :=
  let n := nat_of_ascii c in
  if ((48 <=? n) && (n <=? 57))%nat then Some (Z.of_nat n - 48) else None.

Fixpoint digits (k : nat) (acc : Z) (s : string) : option (Z * string) :=
  match k with
  | O => Some (acc, s)
  | S k' =>
      match s with
      | String c s' =>
          match digit c with
          | Some d => digits k' (10 * acc + d) s'
          | None => None
          end
      | EmptyString => None
      end
  end.

Definition expect (c : ascii) (s : string) : option string :=
  match s with
  | String c' s' => if Ascii.eqb c c' then Some s' else None
  | EmptyString => None
  end.

Definition isLeap (y : Z) : bool :=
  (Z.eqb (y mod 4) 0 && negb (Z.eqb (y mod 100) 0)) || Z.eqb (y mod 400) 0.

Definition daysInMonth (y m : Z) : Z :=
  if Z.eqb m 2 then (if isLeap y then 29 else 28)
  else if Z.eqb m 4 || Z.eqb m 6 || Z.eqb m 9 || Z.eqb m 11 then 30 else 31.

(** Days from 1970-01-01 to the given civil date. *)
Definition daysFromCivil (y m d : Z) : Z :=
  let y' := if Z.leb m 2 then y - 1 else y in
  let era := y' / 400 in
  let yoe := y' - era * 400 in
  let doy := (153 * (if Z.ltb 2 m then m - 3 else m + 9) + 2) / 5 + d - 1 in
  let doe := yoe * 365 + yoe / 4 - yoe / 100 + doy in
  era * 146097 + doe - 719468.

Definition parseUtcTimestamp (s : string) : option Z :=
  '(y, s) ← digits 4 0 s; s ← expect "-" s;
  '(m, s) ← digits 2 0 s; s ← expect "-" s;
  '(d, s) ← digits 2 0 s; s ← expect "T" s;
  '(hh, s) ← digits 2 0 s; s ← expect ":" s;
  '(mm, s) ← digits 2 0 s; s ← expect ":" s;
  '(ss, s) ← digits 2 0 s; s ← expect "Z" s;
  if truthy_string s then None
  else if Z.leb 1 m && Z.leb m 12 && Z.leb 1 d && Z.leb d (daysInMonth y m)
          && Z.leb hh 23 && Z.leb mm 59 && Z.leb ss 59
  then Some ((daysFromCivil y m d * 86400 + hh * 3600 + mm * 60 + ss) * 1000)
  else None.

Definition civilFromDays (days : Z) : Z * Z * Z :=
  let z := days + 719468 in
  let era := z / 146097 in
  let doe := z - era * 146097 in
  let yoe := (doe - doe / 1460 + doe / 36524 - doe / 146096) / 365 in
  let doy := doe - (365 * yoe + yoe / 4 - yoe / 100) in
  let mp := (5 * doy + 2) / 153 in
  let d := doy - (153 * mp + 2) / 5 + 1 in
  let m := if Z.ltb mp 10 then mp + 3 else mp - 9 in
  (yoe + era * 400 + (if Z.leb m 2 then 1 else 0), m, d).

Definition digitChar (d : Z) : ascii := ascii_of_nat (Z.to_nat (48 + d mod 10)).

Definition twoDigits (n : Z) : string :=
  String (digitChar (n / 10)) (String (digitChar n) EmptyString).

Definition formatUtcDay (t : Z) : string :=
  let '(y, m, d) := civilFromDays (t / msPerDay) in
  twoDigits (y / 100) ++ twoDigits y ++ "-" ++ twoDigits m ++ "-" ++ twoDigits d.

(** A runtime on a host that keeps UTC. *)
#[export] Instance sampleRuntime : Runtime := {|
  Date_parse := parseUtcTimestamp;
  format_date := formatUtcDay;
  localeCompare a b :=
    match String.compare a b with Lt => -1 | Eq => 0 | Gt => 1 end;
  LocalTZA _ _ := 0;
  formatResponseError entity response :=
    {| err_status :=
         if Z.eqb (status response) 404 then NOT_FOUND
         else if Z.eqb (status response) 401 then UNAUTHORIZED else ERROR;
       errors := ["Request for " ++ entity ++ " failed"] |};
  unknownResponseError e :=
    {| err_status := ERROR; errors := ["Unknown error"] |};
|}.

(** The same runtime on a host that keeps the time of New York in 2024: five
    hours behind UTC, and four from 10 March, 07:00 UTC, when the clocks go
    from 02:00 to 03:00, until 3 November, 06:00 UTC, when they go back from
    02:00 to 01:00.  A local time that the clocks skip or show twice is read
    at the offset before the change. *)
Definition clocksForwardUTC : Z := 1710054000000.
Definition clocksBackUTC : Z := 1730613600000.

Definition newYork2024 : Runtime := {|
  Date_parse := parseUtcTimestamp;
  format_date := formatUtcDay;
  localeCompare a b :=
    match String.compare a b with Lt => -1 | Eq => 0 | Gt => 1 end;
  LocalTZA t isUTC :=
    let summer :=
      if isUTC
      then Z.leb clocksForwardUTC t && Z.ltb t clocksBackUTC
      else Z.leb (clocksForwardUTC - 4 * msPerHour) t &&
           Z.ltb t (clocksBackUTC - 4 * msPerHour) in
    if summer then - (4 * msPerHour) else - (5 * msPerHour);
  formatResponseError := @formatResponseError sampleRuntime;
  unknownResponseError := @unknownResponseError sampleRuntime;
|}.

(** ** Sample data

    The two pages of the specification's example, at a clock that stands at
    2024-03-31T00:00:00Z: seat C was last active exactly thirty days before. *)

Definition sampleUser (l : string) : GitHubUser :=
  {| login := l; display_name := None; url := "https://api.github.com/users/" ++ l |}.

Definition sampleTeam (n : string) : GitHubTeam :=
  {| name := n; id := None; parent := None |}.

Definition sampleSeat (l : string) (t : option string) (last : option string)
    : SeatAssignment :=
  {| assignee := sampleUser l; seat_organization := None;
     assigning_team := option_map sampleTeam t;
     created_at := "2023-06-01T00:00:00Z"; updated_at := "2023-06-01T00:00:00Z";
     last_activity_at := last; last_activity_editor := "vscode/1.87.0";
     plan_type := "business"; pending_cancellation_date := None |}.

Definition seatA : SeatAssignment := sampleSeat "A" (Some "X") (Some "2024-03-20T08:00:00Z").
Definition seatB : SeatAssignment := sampleSeat "B" None (Some "2024-01-01T00:00:00Z").
Definition seatA' : SeatAssignment := sampleSeat "A" (Some "X") (Some "2024-03-25T08:00:00Z").
Definition seatC : SeatAssignment := sampleSeat "C" (Some "Y") (Some "2024-03-01T00:00:00Z").

Definition samplePage (pageNo : Z) (hasNext : bool) (active : option Z)
    (s : list SeatAssignment) : CopilotSeatsData :=
  {| enterprise := None; organization := Some "octo";
     seats := s; total_seats := 4; total_active_seats := active;
     page := Some pageNo; has_next_page := Some hasNext;
     last_update := Some "2024-03-30T23:00:00Z"; date := Some "2024-03-30";
     doc_id := Some ("2024-03-30-octo-" ++ twoDigits pageNo) |}.

Definition page1 : CopilotSeatsData := samplePage 1 true (Some 3) [seatA; seatB].
Definition page2 : CopilotSeatsData := samplePage 2 false (Some 3) [seatA'; seatC].

Definition sampleNow : Z := 1711843200000.

Definition quietNet : Net := {| pending := []; requests := [] |}.

Definition sampleWorld : World :=
  {| net := quietNet; clock := fun _ => sampleNow; tick := 0 |}.

Definition sampleConfig : GitHubConfig :=
  {| cfg_organization := "octo"; cfg_enterprise := EmptyString;
     token := "t0ken"; version := "2022-11-28" |}.

Definition sampleEnv : Env :=
  {| ensureGitHubEnvConfig := OK sampleConfig;
     cosmosConfiguration := false;
     GITHUB_API_SCOPE := None;
     seats_history := fun _ => None;
     seats_history_teams := fun _ => None |}.

(** A store that is configured and holds no record for any query. *)
Definition emptyStoreEnv : Env :=
  {| ensureGitHubEnvConfig := OK sampleConfig;
     cosmosConfiguration := true;
     GITHUB_API_SCOPE := None;
     seats_history := fun _ => Some [];
     seats_history_teams := fun _ => Some [] |}.

Definition sampleFilter : IFilter :=
  {| filter_date := Some sampleNow; filter_enterprise := EmptyString;
     filter_organization := EmptyString; team := []; filter_page := 0 |}.

(** A legacy document: one seat, no [total_active_seats]. *)
Definition legacyPage : CopilotSeatsData := samplePage 1 false None [seatA].

(** One page on which the same login is assigned twice. *)
Definition repeatedPage : CopilotSeatsData := samplePage 1 false (Some 2) [seatA; seatA'].

Definition respond (r : Response) : Exchange := fun _ => FetchResolved r.

Definition seatsResponse (next : option string) (s : list SeatAssignment) : Response :=
  {| ok := true; status := 200; link := next;
     body := BodySeats s (Z.of_nat (length s)) |}.

Definition unavailable : Response :=
  {| ok := false; status := 503; link := None; body := BodyInvalid |}.

Definition nextLink (u : string) : string :=
  "<" ++ u ++ ">; rel=" ++ String dquote ("next" ++ String dquote EmptyString).

(** The live seat listing of the example: two pages. *)
Definition twoPageNet : Net :=
  {| pending :=
       [respond (seatsResponse (Some (nextLink "https://api.github.com/page2")) [seatA; seatB]);
        respond (seatsResponse None [seatA'; seatC])];
     requests := [] |}.

(** A listing whose seats name team b before team a. *)
Definition seatBeta : SeatAssignment := sampleSeat "D" (Some "b") None.
Definition seatAlpha : SeatAssignment := sampleSeat "E" (Some "a") None.

Definition unsortedNet : Net :=
  {| pending := [respond (seatsResponse None [seatBeta; seatAlpha])]; requests := [] |}.

(** A store whose distinct teams come back as team b, then team a. *)
Definition catalogStoreEnv : Env :=
  {| ensureGitHubEnvConfig := OK sampleConfig;
     cosmosConfiguration := true;
     GITHUB_API_SCOPE := None;
     seats_history := fun _ => Some [];
     seats_history_teams := fun _ => Some [sampleTeam "b"; sampleTeam "a"] |}.

Definition unsortedWorld : World :=
  {| net := unsortedNet; clock := fun _ => sampleNow; tick := 0 |}.

(** No seat carries a team, and every membership lookup is refused. *)
Definition refusingNet : Net :=
  {| pending := [respond unavailable; respond unavailable; respond unavailable];
     requests := [] |}.

Definition liveFilter : IFilter :=
  {| filter_date := None; filter_enterprise := EmptyString;
     filter_organization := "octo"; team := []; filter_page := 0 |}.

Definition twoPageWorld : World :=
  {| net := twoPageNet; clock := fun _ => sampleNow; tick := 0 |}.

(** What the fetch of the two pages returns. *)
Definition fetchedPages : list CopilotSeatsData :=
  [setTotalActive (Some 3) (organizationPage "octo" [seatA; seatB] 2 1 true);
   setTotalActive (Some 3) (organizationPage "octo" [seatA'; seatC] 2 2 false)].

(** ** What the words of the specification mean *)

Definition loginOf (seat : SeatAssignment) : string := login (assignee seat).

(** Duplicates by login removed, the first occurrence kept: each seat stays
    and strikes every later seat of the same login. *)
Fixpoint keepFirstByLogin (l : list SeatAssignment) : list SeatAssignment :=
  match l with
  | [] => []
  | s :: rest =>
      s :: List.filter (fun s' => negb (string_eqb (loginOf s') (loginOf s)))
             (keepFirstByLogin rest)
  end.

(** [s] occurs in [l] at a position before which its login does not occur. *)
Definition firstOccurrence (l : list SeatAssignment) (s : SeatAssignment) : Prop :=
  exists pre post, l = (pre ++ s :: post)%list /\ ~ In (loginOf s) (map loginOf pre).

(** The seat is assigned through a team with a name, and the name is
    requested. *)
Definition assignedToRequested (teamFilter : list string) (seat : SeatAssignment) : Prop :=
  exists t, assigning_team seat = Some t /\ name t <> EmptyString /\ In (name t) teamFilter.

#[export] Instance assignedToRequested_dec (teamFilter : list string)
    (seat : SeatAssignment) : Decision (assignedToRequested teamFilter seat).
Proof.
  unfold assignedToRequested.
  destruct (assigning_team seat) as [t|].
  - destruct (decide (name t = EmptyString)) as [Hempty|Hname].
    + right. intros (t' & Ht' & Hn & _). injection Ht' as <-. now apply Hn.
    + destruct (decide (name t ∈ teamFilter)) as [Hin|Hout].
      * left. exists t. split; [reflexivity|]. split; [exact Hname|].
        now apply list_elem_of_In.
      * right. intros (t' & Ht' & _ & Hin). injection Ht' as <-.
        now apply Hout, list_elem_of_In.
  - right. intros (t & Ht & _). discriminate.
Defined.

(** Every exchange still to come fails: the call rejects or the status is
    not a success. *)
Definition lookupFails (x : Exchange) : Prop :=
  forall u, match x u with
            | FetchRejected => True
            | FetchResolved r => ok r = false
            end.

Definition allLookupsFail (n : Net) : Prop := Forall lookupFails (pending n).

(** The seats the aggregator counts and deduplicates: those of all records
    in input order, team-filtered when a team filter is requested. *)
Definition seatsInScope `{Runtime} (env : Env) (sigma : Store) (data : list nat)
    (teamFilter : option (list string)) (n : Net) : list SeatAssignment :=
  let allSeats := flat_map (fun r => seats (sigma r)) data in
  match teamFilterRequested teamFilter with
  | Some tf => fst (filterSeatsByTeam env allSeats tf n)
  | None => allSeats
  end.

(** The logins that the membership lookups resolve for the requested teams
    and their child teams on the network [n]; none without a configuration. *)
Definition resolvedMembers `{Runtime} (env : Env) (teamFilter : list string) (n : Net)
    : gset string :=
  match ensureGitHubEnvConfig env with
  | OK cfg =>
      fst (resolveTeamMembers (cfg_organization cfg) (token cfg) teamFilter ∅ n)
  | Failed _ => ∅
  end.

(** The two tiers of the team filter in the words of the specification: the
    seats assigned through a requested team when there is one, and otherwise
    the seats whose login is among the resolved members. *)
Definition selectedByTeam `{Runtime} (env : Env) (teamFilter : list string) (n : Net)
    (l : list SeatAssignment) : list SeatAssignment :=
  match List.filter (fun s => bool_decide (assignedToRequested teamFilter s)) l with
  | [] => List.filter (fun s => bool_decide (loginOf s ∈ resolvedMembers env teamFilter n)) l
  | direct => direct
  end.

(** The seats of all records in input order, and of them those selected by
    team when the team filter names a team. *)
Definition requestedScope `{Runtime} (env : Env) (sigma : Store) (data : list nat)
    (teamFilter : option (list string)) (n : Net) : list SeatAssignment :=
  let allSeats := flat_map (fun r => seats (sigma r)) data in
  match teamFilter with
  | Some (t :: ts) => selectedByTeam env (t :: ts) n allSeats
  | Some [] | None => allSeats
  end.

(** Every element compares at or below each one after it. *)
Fixpoint sortedBy {A} (cmp : A -> A -> Z) (l : list A) : Prop :=
  match l with
  | [] => True
  | x :: rest => Forall (fun y => cmp x y <= 0) rest /\ sortedBy cmp rest
  end.

(** A comparator that orders: of two elements one compares at or below the
    other, and comparing at or below is transitive. *)
Definition consistentComparator {A} (cmp : A -> A -> Z) : Prop :=
  (forall a b, cmp a b < 0 \/ cmp b a <= 0) /\
  (forall a b c, cmp a b <= 0 -> cmp b c <= 0 -> cmp a c <= 0).

(** Clock readings the backfill of the first record costs. *)
Definition backfillReadings (d : CopilotSeatsData) : nat :=
  match total_active_seats d with None => 1%nat | Some _ => 0%nat end.

(** One step of the [forEach] that fills the map of unique seats. *)
Definition dedupeStep (uniqueSeatsMap : SeatMap) (seat : SeatAssignment) : SeatMap :=
  if negb (map_has uniqueSeatsMap (login (assignee seat)))
  then map_set uniqueSeatsMap (login (assignee seat)) seat
  else uniqueSeatsMap.

(** The store after the backward-compatibility block has run at [now]. *)
Definition backfilled `{Runtime} (sigma : Store) (r0 : nat) (now : Z) : Store :=
  match total_active_seats (sigma r0) with
  | None =>
      <[ r0 := setTotalActive
                 (Some (countActive (setDateBack30 now) (seats (sigma r0))))
                 (sigma r0) ]> sigma
  | Some _ => sigma
  end.

(** A computation on the network that, as long as every lookup fails, adds
    no member and leaves only failing lookups behind. *)
Definition absorbsFailure (f : gset string -> State Net (gset string)) : Prop :=
  forall teamMembers n, allLookupsFail n ->
    fst (f teamMembers n) = teamMembers /\ allLookupsFail (snd (f teamMembers n)).

(** ** Link headers as the endpoints write them *)

(** Whether the character occurs in the string. *)
Fixpoint has_char (c : ascii) (s : string) : bool :=
  match s with
  | EmptyString => false
  | String c' s' => Ascii.eqb c' c || has_char c s'
  end.

(** One link of a header: the target in angle brackets, then the relation. *)
Definition renderLink (l : string * string) : string :=
  "<" ++ fst l ++ ">; rel=" ++ String dquote (snd l ++ String dquote EmptyString).

(** The links of a header, separated by a comma and a space. *)
Fixpoint renderLinks (ls : list (string * string)) : string :=
  match ls with
  | [] => EmptyString
  | [l] => renderLink l
  | l :: rest => renderLink l ++ ", " ++ renderLinks rest
  end.

(** A target is not empty and holds no closing bracket and no comma; a
    relation is not empty and holds no quote and no comma. *)
Definition wellFormedLink (l : string * string) : Prop :=
  fst l <> EmptyString /\ has_char ">" (fst l) = false /\ has_char "," (fst l) = false /\
  snd l <> EmptyString /\ has_char dquote (snd l) = false /\ has_char "," (snd l) = false.

(** The target of the first link whose relation is [next]. *)
Definition firstNextOf (ls : list (string * string)) : option string :=
  option_map fst (List.find (fun l => string_eqb (snd l) "next") ls).

(** The pieces of a rendered header: the first link, and every later link
    behind the space that follows its comma. *)
Definition piecesOf (ls : list (string * string)) : list string :=
  match ls with
  | [] => [EmptyString]
  | l :: rest => renderLink l :: map (fun l' => String " " (renderLink l')) rest
  end.


(** A header of three links, the second of them the next page. *)
Definition sampleLinks : list (string * string) :=
  [("https://api.github.com/x?page=1", "prev");
   ("https://api.github.com/x?page=3", "next");
   ("https://api.github.com/x?page=9", "last")].

Definition sampleHeader : string := renderLinks sampleLinks.

(** ** Membership lookups, in the words of the endpoints *)

(** The address of the members of a team. *)
Definition membersUrl (organization teamName : string) : string :=
  "https://api.github.com/orgs/" ++ organization ++ "/teams/" ++ teamName
    ++ "/members?per_page=100".

(** A lookup on the network that takes no member out of the set it is given. *)
Definition onlyAdds (f : gset string -> State Net (gset string)) : Prop :=
  forall teamMembers n, teamMembers ⊆ fst (f teamMembers n).

(** A second network on which every membership lookup for team X is answered
    with the members A and C, on one page. *)
Definition membersResponse (logins : list string) : Response :=
  {| ok := true; status := 200; link := None;
     body := BodyMembers (map (fun l => {| member_login := Some l |}) logins) |}.

Definition membersNet : Net :=
  {| pending := [respond (membersResponse ["A"; "C"]); respond unavailable;
                 respond unavailable];
     requests := [] |}.

(** The seats of the example without their teams. *)
Definition bareSeat (l : string) : SeatAssignment := sampleSeat l None None.

(** ** Aggregation, in the words of its callers *)

(** The logins that occur among the seats, as a set. *)
Definition loginsOf (l : list SeatAssignment) : gset string :=
  list_to_set (map loginOf l).

(** ** Fetching, in the words of the endpoint *)

(** The exchange answered some request with a success that carries the seats
    and the total of the page. *)
Definition answersWith (x : Exchange) (p : CopilotSeatsData) : Prop :=
  exists u r, x u = FetchResolved r /\ ok r = true /\
              body r = BodySeats (seats p) (total_seats p).

(** The address of the first page of seats of a scope. *)
Definition seatsUrl (filter : IFilter) : string :=
  if truthy_string (filter_enterprise filter)
  then "https://api.github.com/enterprises/" ++ filter_enterprise filter
         ++ "/copilot/billing/seats?per_page=100"
  else "https://api.github.com/orgs/" ++ filter_organization filter
         ++ "/copilot/billing/seats?per_page=100".

(** The name under which a failed fetch is reported. *)
Definition scopeName (filter : IFilter) : string :=
  if truthy_string (filter_enterprise filter)
  then filter_enterprise filter else filter_organization filter.

(** The pages the loop adds, one for each exchange it consumes, numbered from
    [k]: every exchange answers with a success whose body parses, the page is
    built from the body when it carries seats, and all pages but the last
    announce a next page. *)
Fixpoint rawFrom (mk : list SeatAssignment -> Z -> Z -> bool -> CopilotSeatsData)
    (k : Z) (consumed : list Exchange) (raw : list (option CopilotSeatsData)) : Prop :=
  match consumed, raw with
  | x :: xs, o :: os =>
      (exists u r, x u = FetchResolved r /\ ok r = true /\ body r <> BodyInvalid /\
         o = match body r with
             | BodySeats s t =>
                 Some (mk s t k (match os with [] => false | _ :: _ => true end))
             | _ => None
             end) /\
      match os with
      | [] => xs = []
      | _ :: _ => rawFrom mk (k + 1) xs os
      end
  | _, _ => False
  end.

(** A filter that names both an enterprise and an organization. *)
Definition bothScopesFilter : IFilter :=
  {| filter_date := None; filter_enterprise := "acme";
     filter_organization := "octo"; team := []; filter_page := 0 |}.

(** The first page answers with a failure. *)
Definition failingWorld : World :=
  {| net := {| pending := [respond unavailable]; requests := [] |};
     clock := fun _ => sampleNow; tick := 0 |}.

(** ** Store queries, in the words of their reader *)

(** The filter without its page. *)
Definition clearPage (filter : IFilter) : IFilter :=
  {| filter_date := filter_date filter;
     filter_enterprise := filter_enterprise filter;
     filter_organization := filter_organization filter;
     team := team filter; filter_page := 0 |}.

(** Two filters ask the same kind of question: they agree on whether an
    enterprise, an organization and a page are given and on the number of
    teams. *)
Definition sameShape (f g : IFilter) : Prop :=
  truthy_string (filter_enterprise f) = truthy_string (filter_enterprise g) /\
  truthy_string (filter_organization f) = truthy_string (filter_organization g) /\
  length (team f) = length (team g) /\
  truthy_number (filter_page f) = truthy_number (filter_page g).

(** The date the store is asked about. *)
Definition queryDate (filter : IFilter) (w : World) : Z :=
  match filter_date filter with
  | Some d => d
  | None => clock w (tick w)
  end.

(** The literal text [pat] differs from [t] at a character that [t] has. *)
Fixpoint differs_within (pat t : string) : bool :=
  match pat, t with
  | String a pat', String b t' =>
      if Ascii.eqb a b then differs_within pat' t' else true
  | _, _ => false
  end.

(** The dotted pattern [pat] differs from [t] at a character that [t] has. *)
Fixpoint differs_within_dotted (pat t : string) : bool :=
  match pat, t with
  | String a pat', String b t' =>
      if Ascii.eqb a "."%char
      then if ((nat_of_ascii b =? 10) || (nat_of_ascii b =? 13))%nat
           then true else differs_within_dotted pat' t'
      else if Ascii.eqb a b then differs_within_dotted pat' t' else true
  | _, _ => false
  end.

(** No occurrence of the pattern starts in [s], whatever follows [s]. *)
Fixpoint clear_of (differs : string -> bool) (s : string) : bool :=
  match s with
  | EmptyString => true
  | String _ s' => differs s && clear_of differs s'
  end.

(** The pattern the retry takes out of the query, and the text it tests for. *)
Definition pageClause : string := " AND c.page = @page".
Definition pageMark : string := "c.page".

(** The text of a seats query, from what the filter gives and not from its
    values: whether an enterprise, an organization and a page are given, and
    how many teams. *)
Definition baseText (withEnterprise withOrganization : bool) : string :=
  "SELECT * FROM c WHERE c.date = @date"
    ++ (if withEnterprise then " AND c.enterprise = @enterprise" else EmptyString)
    ++ (if withOrganization then " AND c.organization = @organization" else EmptyString).

Definition teamCondition (index : nat) : string :=
  "seat.assigning_team.name = @team" ++ pretty index.

Definition teamText (teams : nat) : string :=
  match teams with
  | 0%nat => EmptyString
  | 1%nat =>
      " AND EXISTS (SELECT VALUE 1 FROM seat IN c.seats WHERE seat.assigning_team.name = @team)"
  | _ =>
      " AND EXISTS (SELECT VALUE 1 FROM seat IN c.seats WHERE "
        ++ String.concat " OR " (map teamCondition (seq 0 teams)) ++ ")"
  end.

Definition pageText (withPage : bool) : string :=
  if withPage then " AND c.page = @page" else EmptyString.

Definition queryText (withEnterprise withOrganization : bool) (teams : nat)
    (withPage : bool) : string :=
  (baseText withEnterprise withOrganization ++ teamText teams) ++ pageText withPage.

(** ** The team catalog, in the words of its reader *)

(** The listing read from its first team on: a team is kept unless some team
    before it in the listing, kept or not, is the same team. *)
Fixpoint keepNewTeams (before listing : list GitHubTeam) : list GitHubTeam :=
  match listing with
  | [] => []
  | t :: rest =>
      ((if existsb (sameTeam t) before then [] else [t])
         ++ keepNewTeams (before ++ [t]) rest)%list
  end.



(** Teams with an id, two of them under the same id. *)
Definition numberedTeam (n : string) (i : Z) : GitHubTeam :=
  {| name := n; id := Some i; parent := None |}.

Definition numberedListing : list GitHubTeam :=
  [numberedTeam "a" 1; numberedTeam "b" 2; numberedTeam "a-renamed" 1].

(** ** The seats table (features/seats/seats-list.tsx) *)

(** [formatEditorName(editor)]: the first two parts of the editor, split at
    the slashes, as name and version in brackets.  A part that is not there
    prints as the word undefined. *)
Definition formatEditorName (editor : option string) : option string :=
  if stringIsNullOrEmpty editor then editor
  else
    match editor with
    | Some e =>
        let editorInfo := split_go "/" EmptyString e in
        let part (i : nat) :=
          match nth_error editorInfo i with
          | Some s => s
          | None => "undefined"
          end in
        Some (part 0%nat ++ " (" ++ part 1%nat ++ ")")
    | None => None
    end.



(** ** Pages of members, as the endpoint serves them *)

(** One page of members; all pages but the last link to the next one. *)
Definition membersPage (logins : list string) (next : option string) : Response :=
  {| ok := true; status := 200; link := option_map nextLink next;
     body := BodyMembers (map (fun l => {| member_login := Some l |}) logins) |}.

Fixpoint servePages (pages : list (list string)) (nextUrl : string) : list Exchange :=
  match pages with
  | [] => []
  | [logins] => [respond (membersPage logins None)]
  | logins :: rest =>
      respond (membersPage logins (Some nextUrl)) :: servePages rest nextUrl
  end.

(** Three members on two pages, then an endpoint that is down. *)
Definition pagedMembersNet : Net :=
  {| pending := (servePages [["A"; "B"]; ["C"]] "https://api.github.com/members?page=2"
                   ++ [respond unavailable])%list;
     requests := [] |}.

(** ** Retrieval, end to end *)

(** The seat was listed in the body of a success among the exchanges. *)
Definition listedBy (exchanges : list Exchange) (s : SeatAssignment) : Prop :=
  exists x u r listed total,
    In x exchanges /\ x u = FetchResolved r /\ ok r = true /\
    body r = BodySeats listed total /\ In s listed.

(** A store that answers every query with the two sample pages. *)
Definition twoPageStoreEnv : Env :=
  {| ensureGitHubEnvConfig := OK sampleConfig;
     cosmosConfiguration := true;
     GITHUB_API_SCOPE := None;
     seats_history := fun _ => Some [page1; page2];
     seats_history_teams := fun _ => Some [] |}.

(** * Properties *)

Section Properties.
Context {rt : Runtime}.

(** ** Strings and lists *)

Lemma string_eqb_eq (a b : string) : string_eqb a b = true <-> a = b.
Proof. unfold string_eqb. apply bool_decide_eq_true. Qed.

Lemma string_eqb_neq (a b : string) : string_eqb a b = false <-> a <> b.
Proof. unfold string_eqb. apply bool_decide_eq_false. Qed.

Lemma truthy_string_iff (s : string) : truthy_string s = true <-> s <> EmptyString.
Proof. destruct s; simpl; split; congruence. Qed.

Lemma includes_In (l : list string) (s : string) : includes l s = true <-> In s l.
Proof.
  unfold includes. rewrite existsb_exists. split.
  - intros (x & Hx & Heq). apply string_eqb_eq in Heq. now subst.
  - intros Hin. exists s. split; [assumption | now apply string_eqb_eq].
Qed.

Lemma filter_twice {A} (f g : A -> bool) (l : list A) :
  List.filter f (List.filter g l) = List.filter (fun x => g x && f x) l.
Proof.
  induction l as [|a l IH]; simpl; [reflexivity|].
  destruct (g a); simpl; [destruct (f a)|]; now rewrite IH.
Qed.

Lemma filter_nil_iff {A} (f : A -> bool) (l : list A) :
  List.filter f l = [] <-> forall x, In x l -> f x = false.
Proof.
  induction l as [|a l IH]; simpl.
  - split; [intros _ x [] | reflexivity].
  - destruct (f a) eqn:Ha; split.
    + discriminate.
    + intros H. specialize (H a (or_introl eq_refl)). congruence.
    + intros H x [<-|Hx]; [assumption | now apply IH].
    + intros H. apply IH. intros x Hx. apply H. now right.
Qed.

(** ** Activity window *)

(** Thirty days back on the calendar of the host: the local time thirty
    times [msPerDay] earlier, read at the offset the host has then. *)
Lemma setDateBack30_local (now : Z) :
  setDateBack30 now = UTC (LocalTime now - 30 * msPerDay).
Proof.
  unfold setDateBack30, MakeDate, Day, TimeWithinDay. cbv zeta. f_equal.
  pose proof (Z.div_mod (LocalTime now) msPerDay) as Hdm.
  unfold msPerDay in *. lia.
Qed.

Lemma isActiveSeat_iff (thirtyDaysAgo : Z) (seat : SeatAssignment) :
  isActiveSeat thirtyDaysAgo seat = true <->
  exists s t, last_activity_at seat = Some s /\ s <> EmptyString /\
              Date_parse s = Some t /\ thirtyDaysAgo <= t.
Proof.
  unfold isActiveSeat. split.
  - destruct (last_activity_at seat) as [s|]; [|discriminate].
    destruct (truthy_string s) eqn:Hs; [|discriminate].
    destruct (Date_parse s) as [t|] eqn:Ht; [|discriminate].
    intros Hle. exists s, t. apply truthy_string_iff in Hs.
    apply Z.leb_le in Hle. auto.
  - intros (s & t & -> & Hs & -> & Hle).
    apply truthy_string_iff in Hs. rewrite Hs. now apply Z.leb_le.
Qed.

(** C2, as the code has it.  A seat is classified active exactly when its
    last-activity timestamp is present and denotes an instant at or after the
    one that has, on the clock of the host, the same time of day thirty
    calendar days before the reference instant.  Where the host is as far
    from UTC then as at the reference instant, that is the instant exactly
    thirty days back, and a seat last active at it is active.  Where the two
    offsets differ by less than a day, a seat last active thirty-one days
    back is inactive.  A seat without a timestamp is inactive. *)
Theorem activity_window (now : Z) (seat : SeatAssignment) :
  let back := LocalTime now - 30 * msPerDay in
  (isActiveSeat (setDateBack30 now) seat = true <->
     exists s t, last_activity_at seat = Some s /\ s <> EmptyString /\
                 Date_parse s = Some t /\ back - LocalTZA back false <= t) /\
  (LocalTZA back false = LocalTZA now true ->
     (isActiveSeat (setDateBack30 now) seat = true <->
        exists s t, last_activity_at seat = Some s /\ s <> EmptyString /\
                    Date_parse s = Some t /\ now - 30 * msPerDay <= t) /\
     (forall s, last_activity_at seat = Some s -> s <> EmptyString ->
        Date_parse s = Some (now - 30 * msPerDay) ->
        isActiveSeat (setDateBack30 now) seat = true)) /\
  (Z.abs (LocalTZA now true - LocalTZA back false) < msPerDay ->
     forall s, last_activity_at seat = Some s ->
       Date_parse s = Some (now - 31 * msPerDay) ->
       isActiveSeat (setDateBack30 now) seat = false) /\
  (last_activity_at seat = None ->
     forall reference, isActiveSeat (setDateBack30 reference) seat = false).
Proof.
  cbv zeta. rewrite setDateBack30_local. unfold UTC.
  set (back := LocalTime now - 30 * msPerDay).
  split; [apply isActiveSeat_iff|]. split; [|split].
  - intros Hsame.
    assert (back - LocalTZA back false = now - 30 * msPerDay) as ->.
    { unfold back, LocalTime in *. lia. }
    split; [apply isActiveSeat_iff|].
    intros s Hlast Hs Hparse. apply isActiveSeat_iff.
    exists s, (now - 30 * msPerDay). repeat split; try assumption. lia.
  - intros Hnear s Hlast Hparse.
    destruct (isActiveSeat (back - LocalTZA back false) seat) eqn:Hact; [|reflexivity].
    apply isActiveSeat_iff in Hact as (s' & t & Hlast' & _ & Hparse' & Hle).
    rewrite Hlast in Hlast'. injection Hlast' as <-.
    rewrite Hparse in Hparse'. injection Hparse' as <-.
    unfold back, LocalTime, msPerDay in *. lia.
  - intros Hnone reference. unfold isActiveSeat. now rewrite Hnone.
Qed.

(** ** Deduplication *)

Lemma map_has_app (m : SeatMap) (k : string) (v : SeatAssignment) (k' : string) :
  map_has (m ++ [(k, v)])%list k' = map_has m k' || string_eqb k k'.
Proof.
  unfold map_has. rewrite existsb_app. simpl. now rewrite orb_false_r.
Qed.

Lemma dedupe_fold (l : list SeatAssignment) (m : SeatMap) :
  map_values (fold_left dedupeStep l m) =
  (map_values m ++
   List.filter (fun s => negb (map_has m (loginOf s))) (keepFirstByLogin l))%list.
Proof.
  revert m. induction l as [|s l IH]; intros m; simpl.
  - now rewrite app_nil_r.
  - rewrite IH. destruct (map_has m (loginOf s)) eqn:Hhas; simpl.
    + assert (dedupeStep m s = m) as ->
        by (unfold dedupeStep; fold (loginOf s); now rewrite Hhas).
      f_equal. rewrite filter_twice. apply filter_ext. intros x.
      destruct (string_eqb (loginOf x) (loginOf s)) eqn:Heq; simpl; [|reflexivity].
      apply string_eqb_eq in Heq. rewrite Heq, Hhas. reflexivity.
    + assert (dedupeStep m s = (m ++ [(loginOf s, s)])%list) as ->
        by (unfold dedupeStep, map_set; fold (loginOf s); now rewrite Hhas).
      unfold map_values.
      rewrite map_app. simpl. rewrite <- app_assoc. simpl. do 2 f_equal.
      rewrite filter_twice. apply filter_ext. intros x.
      rewrite map_has_app, negb_orb.
      destruct (string_eqb (loginOf x) (loginOf s)) eqn:Heq.
      * apply string_eqb_eq in Heq.
        assert (string_eqb (loginOf s) (loginOf x) = true) as ->
          by now apply string_eqb_eq.
        simpl. now rewrite andb_false_r.
      * apply string_eqb_neq in Heq.
        assert (string_eqb (loginOf s) (loginOf x) = false) as ->
          by (apply string_eqb_neq; congruence).
        simpl. now rewrite andb_true_r.
Qed.

(** The insertion-ordered map computes the declarative deduplication. *)
Lemma uniqueSeats_keepFirst (l : list SeatAssignment) :
  uniqueSeats l = keepFirstByLogin l.
Proof.
  unfold uniqueSeats. change (fold_left _ l []) with (fold_left dedupeStep l []).
  rewrite dedupe_fold. simpl.
  induction (keepFirstByLogin l) as [|x xs IH]; simpl; [reflexivity|].
  now rewrite IH.
Qed.

Lemma keepFirst_In (l : list SeatAssignment) (s : SeatAssignment) :
  In s (keepFirstByLogin l) <-> firstOccurrence l s.
Proof.
  unfold firstOccurrence. induction l as [|a l IH]; simpl.
  - split; [intros [] | intros (pre & post & H & _); now destruct pre].
  - rewrite filter_In, IH, negb_true_iff, string_eqb_neq. split.
    + intros [<- | ((pre & post & -> & Hpre) & Hne)].
      * exists [], l. split; [reflexivity | intros []].
      * exists (a :: pre), post. split; [reflexivity|].
        simpl. intros [Heq | Hin]; [congruence | contradiction].
    + intros (pre & post & Heq & Hpre). destruct pre as [|b pre]; simpl in *.
      * left. congruence.
      * injection Heq as -> ->. right. split.
        -- exists pre, post. split; [reflexivity | tauto].
        -- intros Heq. apply Hpre. left. congruence.
Qed.

Lemma keepFirst_logins_in (l : list SeatAssignment) (k : string) :
  In k (map loginOf (keepFirstByLogin l)) -> In k (map loginOf l).
Proof.
  rewrite !in_map_iff. intros (s & <- & Hin). exists s. split; [reflexivity|].
  apply keepFirst_In in Hin as (pre & post & -> & _).
  apply in_app_iff. right. now left.
Qed.

Lemma NoDup_map_filter {A B} (f : A -> B) (p : A -> bool) (l : list A) :
  NoDup (map f l) -> NoDup (map f (List.filter p l)).
Proof.
  induction l as [|a l IH]; simpl; intros Hnd; [constructor|].
  inversion Hnd as [|? ? Hnotin Hnd']; subst.
  destruct (p a); simpl; [|now apply IH].
  constructor; [|now apply IH].
  rewrite list_elem_of_In in *.
  intros Hin. apply Hnotin. apply in_map_iff in Hin as (x & <- & Hx).
  apply filter_In in Hx as [Hx _]. now apply in_map.
Qed.

Lemma keepFirst_NoDup (l : list SeatAssignment) :
  NoDup (map loginOf (keepFirstByLogin l)).
Proof.
  induction l as [|a l IH]; simpl; constructor.
  - rewrite list_elem_of_In.
    intros Hin. apply in_map_iff in Hin as (x & Heq & Hx).
    apply filter_In in Hx as [_ Hx].
    apply negb_true_iff, string_eqb_neq in Hx. congruence.
  - now apply NoDup_map_filter.
Qed.

(** ** Running the aggregator *)

Lemma backfillFirst_run (sigma : Store) (r0 : nat) (w : World) :
  fst (backfillFirst sigma r0 w) = backfilled sigma r0 (clock w (tick w)) /\
  net (snd (backfillFirst sigma r0 w)) = net w /\
  clock (snd (backfillFirst sigma r0 w)) = clock w /\
  tick (snd (backfillFirst sigma r0 w)) = (tick w + backfillReadings (sigma r0))%nat.
Proof.
  unfold backfillFirst, backfilled, backfillReadings.
  destruct (total_active_seats (sigma r0)); simpl; repeat split; lia.
Qed.

Lemma backfilled_seats (sigma : Store) (r0 : nat) (now : Z) (r : nat) :
  seats (backfilled sigma r0 now r) = seats (sigma r).
Proof.
  unfold backfilled. destruct (total_active_seats (sigma r0)); [reflexivity|].
  destruct (decide (r0 = r)) as [->|Hne].
  - now rewrite fn_lookup_insert.
  - now rewrite fn_lookup_insert_ne.
Qed.

Lemma backfilled_scope (sigma : Store) (r0 : nat) (now : Z) :
  enterprise (backfilled sigma r0 now r0) = enterprise (sigma r0) /\
  organization (backfilled sigma r0 now r0) = organization (sigma r0) /\
  page (backfilled sigma r0 now r0) = page (sigma r0) /\
  has_next_page (backfilled sigma r0 now r0) = has_next_page (sigma r0) /\
  last_update (backfilled sigma r0 now r0) = last_update (sigma r0) /\
  date (backfilled sigma r0 now r0) = date (sigma r0) /\
  doc_id (backfilled sigma r0 now r0) = doc_id (sigma r0).
Proof.
  unfold backfilled. destruct (total_active_seats (sigma r0)); [tauto|].
  rewrite fn_lookup_insert. simpl. tauto.
Qed.

Lemma applyTeamFilter_run (env : Env) (teamFilter : option (list string))
    (l : list SeatAssignment) (w : World) :
  fst (applyTeamFilter env teamFilter l w) =
    match teamFilterRequested teamFilter with
    | Some tf => fst (filterSeatsByTeam env l tf (net w))
    | None => l
    end /\
  clock (snd (applyTeamFilter env teamFilter l w)) = clock w /\
  tick (snd (applyTeamFilter env teamFilter l w)) = tick w.
Proof.
  unfold applyTeamFilter. destruct (teamFilterRequested teamFilter) as [tf|].
  - unfold onNet. destruct (filterSeatsByTeam env l tf (net w)). simpl. tauto.
  - simpl. tauto.
Qed.

(** The aggregator unfolded on an input of two or more records. *)
Lemma aggregate_many_run (env : Env) (sigma : Store) (r0 r1 : nat) (rest : list nat)
    (teamFilter : option (list string)) (w : World) :
  let data := r0 :: r1 :: rest in
  let scope := seatsInScope env sigma data teamFilter (net w) in
  let now := clock w (tick w + backfillReadings (sigma r0))%nat in
  let sigma1 := backfilled sigma r0 (clock w (tick w)) in
  fst (aggregateSeatsData env sigma data teamFilter w) =
    (sigma1,
     {| enterprise := enterprise (sigma r0);
        organization := organization (sigma r0);
        seats := keepFirstByLogin scope;
        total_seats := Z.of_nat (length (keepFirstByLogin scope));
        total_active_seats :=
          Some (countActive (setDateBack30 now) (keepFirstByLogin scope));
        page := page (sigma r0);
        has_next_page := Some false;
        last_update := last_update (sigma r0);
        date := date (sigma r0);
        doc_id := doc_id (sigma r0) |}).
Proof.
  intros data scope now sigma1.
  unfold aggregateSeatsData, data, bind.
  destruct (backfillFirst_run sigma r0 w) as (Hs & Hn & Hc & Ht).
  destruct (backfillFirst sigma r0 w) as [s1 w1]. simpl in Hs, Hn, Hc, Ht.
  subst s1. fold sigma1.
  match goal with
  | |- context [applyTeamFilter env teamFilter ?l w1] =>
      destruct (applyTeamFilter_run env teamFilter l w1) as (Hf & Hc2 & Ht2);
      destruct (applyTeamFilter env teamFilter l w1) as [filtered w2];
      assert (l = flat_map (fun r => seats (sigma r)) data) as Hl
  end.
  { unfold data, sigma1. simpl. rewrite !backfilled_seats. do 2 f_equal.
    apply flat_map_ext. intros r. apply backfilled_seats. }
  simpl in Hf, Hc2, Ht2. unfold newDate, ret. simpl.
  assert (filtered = scope) as ->.
  { rewrite Hf. unfold scope, seatsInScope. rewrite <- Hl, Hn. reflexivity. }
  rewrite uniqueSeats_keepFirst.
  assert (clock w2 (tick w2) = now) as ->.
  { unfold now. now rewrite Hc2, Ht2, Hc, Ht. }
  unfold sigma1.
  destruct (backfilled_scope sigma r0 (clock w (tick w)))
    as (-> & -> & -> & _ & -> & -> & ->).
  reflexivity.
Qed.

(** The aggregator unfolded on a single record. *)
Lemma aggregate_single_run (env : Env) (sigma : Store) (r0 : nat)
    (teamFilter : option (list string)) (w : World) :
  let scope := seatsInScope env sigma [r0] teamFilter (net w) in
  let now := clock w (tick w + backfillReadings (sigma r0))%nat in
  let sigma1 := backfilled sigma r0 (clock w (tick w)) in
  fst (aggregateSeatsData env sigma [r0] teamFilter w) =
    (sigma1,
     {| enterprise := enterprise (sigma r0);
        organization := organization (sigma r0);
        seats := scope;
        total_seats := Z.of_nat (length scope);
        total_active_seats := Some (countActive (setDateBack30 now) scope);
        page := page (sigma r0);
        has_next_page := has_next_page (sigma r0);
        last_update := last_update (sigma r0);
        date := date (sigma r0);
        doc_id := doc_id (sigma r0) |}).
Proof.
  intros scope now sigma1.
  unfold aggregateSeatsData, bind.
  destruct (backfillFirst_run sigma r0 w) as (Hs & Hn & Hc & Ht).
  destruct (backfillFirst sigma r0 w) as [s1 w1]. simpl in Hs, Hn, Hc, Ht.
  subst s1. fold sigma1.
  destruct (applyTeamFilter_run env teamFilter (seats (sigma1 r0)) w1)
    as (Hf & Hc2 & Ht2).
  destruct (applyTeamFilter env teamFilter (seats (sigma1 r0)) w1) as [filtered w2].
  simpl in Hf, Hc2, Ht2. unfold newDate, ret. simpl.
  assert (filtered = scope) as ->.
  { rewrite Hf. unfold scope, seatsInScope, sigma1. simpl.
    rewrite backfilled_seats, app_nil_r, Hn. reflexivity. }
  assert (clock w2 (tick w2) = now) as ->.
  { unfold now. now rewrite Hc2, Ht2, Hc, Ht. }
  unfold sigma1.
  destruct (backfilled_scope sigma r0 (clock w (tick w)))
    as (-> & -> & -> & -> & -> & -> & ->).
  reflexivity.
Qed.

(** ** Team filter *)

Lemma hasRequestedTeam_iff (teamFilter : list string) (seat : SeatAssignment) :
  hasRequestedTeam teamFilter seat = true <-> assignedToRequested teamFilter seat.
Proof.
  unfold hasRequestedTeam, assignedToRequested.
  destruct (assigning_team seat) as [t|].
  - rewrite andb_true_iff, truthy_string_iff, includes_In. split.
    + intros [Hn Hin]. now exists t.
    + intros (t' & [= <-] & Hn & Hin). now split.
  - split; [discriminate | intros (t & [=] & _)].
Qed.

Lemma isTeamMember_empty (l : list SeatAssignment) :
  List.filter (isTeamMember ∅) l = [].
Proof.
  apply filter_nil_iff. intros x _. unfold isTeamMember.
  apply bool_decide_eq_false. apply not_elem_of_empty.
Qed.

Lemma getTeamMembers_loop_fails (p : list Exchange) (reqs : list string)
    (u : string) (teamMembers : gset string) :
  Forall lookupFails p ->
  fst (getTeamMembers_loop p reqs u teamMembers) = teamMembers /\
  allLookupsFail (snd (getTeamMembers_loop p reqs u teamMembers)).
Proof.
  unfold allLookupsFail. intros Hp. destruct Hp as [|x p' Hx Hp']; simpl.
  - split; [reflexivity | constructor].
  - specialize (Hx u). destruct (x u) as [|r]; simpl.
    + now split.
    + rewrite Hx. now split.
Qed.

Lemma getTeamMembers_fails (organization tok teamName : string) :
  absorbsFailure (getTeamMembers organization tok teamName).
Proof.
  intros teamMembers n Hn. unfold getTeamMembers.
  match goal with |- context [truthy_string ?u] => destruct (truthy_string u) end.
  - now apply getTeamMembers_loop_fails.
  - now split.
Qed.

Lemma absorbsFailure_seq (f g : gset string -> State Net (gset string)) :
  absorbsFailure f -> absorbsFailure g ->
  absorbsFailure (fun teamMembers => tm <- f teamMembers ;; g tm).
Proof.
  intros Hf Hg teamMembers n Hn. unfold bind.
  destruct (Hf teamMembers n Hn) as [Hv Hrest].
  destruct (f teamMembers n) as [tm n1]. simpl in Hv, Hrest. subst tm.
  now apply Hg.
Qed.

Lemma membersOfEach_fails (organization tok : string) (teamNames : list string) :
  absorbsFailure (membersOfEach organization tok teamNames).
Proof.
  induction teamNames as [|t rest IH].
  - intros teamMembers n Hn. now split.
  - apply (absorbsFailure_seq _ _ (getTeamMembers_fails organization tok t) IH).
Qed.

Lemma getChildTeamMembers_fails (organization tok parentTeamName : string) :
  absorbsFailure (getChildTeamMembers organization tok parentTeamName).
Proof.
  unfold getChildTeamMembers.
  destruct (string_eqb parentTeamName "Birdeye_team").
  - apply absorbsFailure_seq; apply getTeamMembers_fails.
  - intros teamMembers n Hn. unfold allLookupsFail in *.
    destruct Hn as [|x p' Hx Hp']; simpl.
    + split; [reflexivity | constructor].
    + match goal with |- context [x ?u] => specialize (Hx u); destruct (x u) as [|r] end;
        simpl; [now split|].
      rewrite Hx. now split.
Qed.

Lemma resolveTeamMembers_fails (organization tok : string) (teamFilter : list string) :
  absorbsFailure (resolveTeamMembers organization tok teamFilter).
Proof.
  induction teamFilter as [|t rest IH].
  - intros teamMembers n Hn. now split.
  - apply (absorbsFailure_seq _ (fun tm1 => tm2 <- getChildTeamMembers organization tok t tm1 ;;
                                            resolveTeamMembers organization tok rest tm2)).
    + apply getTeamMembers_fails.
    + apply absorbsFailure_seq; [apply getChildTeamMembers_fails | exact IH].
Qed.

(** C4. When some seat is assigned through a requested team, the team filter
    returns exactly the seats assigned through a requested team, in their
    order, and the network is left as it was: no membership lookup is made. *)
Theorem team_filter_direct_match (env : Env) (seats0 : list SeatAssignment)
    (teamFilter : list string) (n : Net) :
  (exists seat, In seat seats0 /\ assignedToRequested teamFilter seat) ->
  filterSeatsByTeam env seats0 teamFilter n =
    (List.filter (hasRequestedTeam teamFilter) seats0, n) /\
  (forall seat, In seat (fst (filterSeatsByTeam env seats0 teamFilter n)) <->
                In seat seats0 /\ assignedToRequested teamFilter seat) /\
  requests (snd (filterSeatsByTeam env seats0 teamFilter n)) = requests n /\
  pending (snd (filterSeatsByTeam env seats0 teamFilter n)) = pending n.
Proof.
  intros (seat & Hin & Hreq).
  assert (filterSeatsByTeam env seats0 teamFilter n =
            (List.filter (hasRequestedTeam teamFilter) seats0, n)) as Heq.
  { unfold filterSeatsByTeam.
    destruct (List.filter (hasRequestedTeam teamFilter) seats0) as [|a l] eqn:Hf.
    - exfalso. apply hasRequestedTeam_iff in Hreq.
      rewrite filter_nil_iff in Hf. specialize (Hf seat Hin). congruence.
    - reflexivity. }
  rewrite Heq. simpl. split; [reflexivity|]. split; [|split; reflexivity].
  intros x. rewrite filter_In, hasRequestedTeam_iff. reflexivity.
Qed.

(** C5. When no seat is assigned through a requested team, the team filter
    returns the empty list whenever the membership lookups resolve no member,
    and in particular whenever every lookup fails; when it was given seats,
    what it returns is not the list it was given. *)
Theorem team_filter_never_unfiltered (env : Env) (seats0 : list SeatAssignment)
    (teamFilter : list string) (n : Net) :
  (forall seat, In seat seats0 -> ~ assignedToRequested teamFilter seat) ->
  ((forall cfg, ensureGitHubEnvConfig env = OK cfg ->
      fst (resolveTeamMembers (cfg_organization cfg) (token cfg) teamFilter ∅ n) = ∅) ->
   fst (filterSeatsByTeam env seats0 teamFilter n) = [] /\
   (seats0 <> [] -> fst (filterSeatsByTeam env seats0 teamFilter n) <> seats0)) /\
  (allLookupsFail n ->
   fst (filterSeatsByTeam env seats0 teamFilter n) = [] /\
   (seats0 <> [] -> fst (filterSeatsByTeam env seats0 teamFilter n) <> seats0)).
Proof.
  intros Hnone.
  assert (List.filter (hasRequestedTeam teamFilter) seats0 = []) as Hdirect.
  { apply filter_nil_iff. intros x Hx.
    destruct (hasRequestedTeam teamFilter x) eqn:Hreq; [|reflexivity].
    apply hasRequestedTeam_iff in Hreq. now apply Hnone in Hreq. }
  assert ((forall cfg, ensureGitHubEnvConfig env = OK cfg ->
             fst (resolveTeamMembers (cfg_organization cfg) (token cfg) teamFilter ∅ n) = ∅) ->
          fst (filterSeatsByTeam env seats0 teamFilter n) = []) as Hempty.
  { intros Hres. unfold filterSeatsByTeam. rewrite Hdirect. simpl.
    destruct (ensureGitHubEnvConfig env) as [cfg|e]; [|reflexivity].
    specialize (Hres cfg eq_refl). unfold bind.
    destruct (resolveTeamMembers _ _ teamFilter ∅ n) as [tm n1].
    simpl in Hres. subst tm. simpl. apply isTeamMember_empty. }
  split.
  - intros Hres. rewrite (Hempty Hres). split; [reflexivity | congruence].
  - intros Hfail.
    assert (fst (filterSeatsByTeam env seats0 teamFilter n) = []) as ->.
    { apply Hempty. intros cfg _.
      now apply (resolveTeamMembers_fails (cfg_organization cfg) (token cfg) teamFilter). }
    split; [reflexivity | congruence].
Qed.

(** ** Aggregation *)

Lemma filterSeatsByTeam_selected (env : Env) (l : list SeatAssignment)
    (teamFilter : list string) (n : Net) :
  fst (filterSeatsByTeam env l teamFilter n) = selectedByTeam env teamFilter n l.
Proof.
  unfold filterSeatsByTeam, selectedByTeam, resolvedMembers.
  assert (List.filter (hasRequestedTeam teamFilter) l =
          List.filter (fun s => bool_decide (assignedToRequested teamFilter s)) l) as ->.
  { apply filter_ext. intros s.
    destruct (hasRequestedTeam teamFilter s) eqn:Hs; symmetry.
    - apply bool_decide_eq_true. now apply hasRequestedTeam_iff.
    - apply bool_decide_eq_false. intros Hreq.
      apply hasRequestedTeam_iff in Hreq. congruence. }
  destruct (List.filter _ l) as [|a direct]; [|reflexivity].
  cbn [length Nat.ltb Nat.leb].
  destruct (ensureGitHubEnvConfig env) as [cfg|e].
  - unfold bind.
    destruct (resolveTeamMembers _ _ teamFilter ∅ n) as [teamMembers n']. reflexivity.
  - cbn [ret fst]. symmetry. apply filter_nil_iff. intros s _.
    apply bool_decide_eq_false. set_solver.
Qed.

Lemma seatsInScope_requested (env : Env) (sigma : Store) (data : list nat)
    (teamFilter : option (list string)) (n : Net) :
  seatsInScope env sigma data teamFilter n = requestedScope env sigma data teamFilter n.
Proof.
  unfold seatsInScope, requestedScope.
  destruct teamFilter as [[|t ts]|]; cbn [teamFilterRequested]; try reflexivity.
  apply filterSeatsByTeam_selected.
Qed.

(** C1. On two or more records the aggregator returns the seats of all
    records in input order, and of them, when the team filter names a team,
    those assigned through a requested team or, when there is none, those
    whose login the membership lookups resolve; with duplicates by login
    removed and the first occurrence kept.  [total_seats] is the length of
    that list, [total_active_seats] the number of its seats inside the
    activity window at the instant the clock is read for the count,
    [has_next_page] is false, and the scope, page, last update, date and id
    are those of the first record. *)
Theorem aggregate_multiple_records (env : Env) (sigma : Store) (data : list nat)
    (teamFilter : option (list string)) (w : World) :
  (2 <= length data)%nat ->
  let result := snd (fst (aggregateSeatsData env sigma data teamFilter w)) in
  let first := sigma (hd 0%nat data) in
  let kept := keepFirstByLogin (requestedScope env sigma data teamFilter (net w)) in
  let now := clock w (tick w + backfillReadings first)%nat in
  seats result = kept /\
  total_seats result = Z.of_nat (length kept) /\
  total_active_seats result =
    Some (Z.of_nat (length (List.filter (isActiveSeat (setDateBack30 now)) kept))) /\
  has_next_page result = Some false /\
  enterprise result = enterprise first /\
  organization result = organization first /\
  page result = page first /\
  last_update result = last_update first /\
  date result = date first /\
  doc_id result = doc_id first.
Proof.
  intros Hlen.
  destruct data as [|r0 [|r1 rest]]; [simpl in Hlen; lia | simpl in Hlen; lia |].
  cbv zeta. rewrite (aggregate_many_run env sigma r0 r1 rest teamFilter w).
  rewrite seatsInScope_requested.
  repeat split; reflexivity.
Qed.

Lemma filterSeatsByTeam_nil (env : Env) (teamFilter : list string) (n : Net) :
  fst (filterSeatsByTeam env [] teamFilter n) = [].
Proof.
  unfold filterSeatsByTeam. simpl.
  destruct (ensureGitHubEnvConfig env) as [cfg|e]; [|reflexivity].
  unfold bind. now destruct (resolveTeamMembers _ _ teamFilter ∅ n).
Qed.

(** C3, as the code has it.  On an input that is not a single record the
    logins of the aggregated seats are pairwise distinct, and a seat is in the
    result exactly when it is the first seat of its login among the seats in
    scope. *)
Theorem aggregate_distinct_logins (env : Env) (sigma : Store) (data : list nat)
    (teamFilter : option (list string)) (w : World) :
  length data <> 1%nat ->
  let result := snd (fst (aggregateSeatsData env sigma data teamFilter w)) in
  NoDup (map loginOf (seats result)) /\
  (forall s, In s (seats result) <->
             firstOccurrence (seatsInScope env sigma data teamFilter (net w)) s).
Proof.
  intros Hlen.
  destruct data as [|r0 [|r1 rest]]; [| simpl in Hlen; congruence |]; cbv zeta.
  - split; [constructor|]. intros s.
    assert (seatsInScope env sigma [] teamFilter (net w) = []) as ->.
    { unfold seatsInScope. simpl.
      destruct (teamFilterRequested teamFilter); [apply filterSeatsByTeam_nil | reflexivity]. }
    split; [intros [] | intros (pre & post & Heq & _); now destruct pre].
  - rewrite (aggregate_many_run env sigma r0 r1 rest teamFilter w). simpl.
    split; [apply keepFirst_NoDup | intros s; apply keepFirst_In].
Qed.

(** C7, as the code has it.  After aggregation every record of the store is
    what it was, except the first input record when its [total_active_seats]
    was absent: that record has the count of its own active seats written
    into the field, and nothing else changed. *)
Theorem aggregate_frame (env : Env) (sigma : Store) (data : list nat)
    (teamFilter : option (list string)) (w : World) (r : nat) :
  fst (fst (aggregateSeatsData env sigma data teamFilter w)) r =
    match data with
    | r0 :: _ =>
        if decide (r = r0) then
          match total_active_seats (sigma r0) with
          | Some _ => sigma r0
          | None =>
              setTotalActive
                (Some (countActive (setDateBack30 (clock w (tick w))) (seats (sigma r0))))
                (sigma r0)
          end
        else sigma r
    | [] => sigma r
    end.
Proof.
  destruct data as [|r0 [|r1 rest]].
  - reflexivity.
  - rewrite (aggregate_single_run env sigma r0 teamFilter w). simpl.
    unfold backfilled. destruct (decide (r = r0)) as [->|Hne].
    + destruct (total_active_seats (sigma r0)); [reflexivity|].
      now rewrite fn_lookup_insert.
    + destruct (total_active_seats (sigma r0)); [reflexivity|].
      rewrite fn_lookup_insert_ne; [reflexivity | congruence].
  - rewrite (aggregate_many_run env sigma r0 r1 rest teamFilter w). simpl.
    unfold backfilled. destruct (decide (r = r0)) as [->|Hne].
    + destruct (total_active_seats (sigma r0)); [reflexivity|].
      now rewrite fn_lookup_insert.
    + destruct (total_active_seats (sigma r0)); [reflexivity|].
      rewrite fn_lookup_insert_ne; [reflexivity | congruence].
Qed.

(** ** Seat fetcher *)

Lemma isActiveSeatNow_run (seat : SeatAssignment) (w : World) :
  fst (isActiveSeatNow seat w) = isActiveSeat (setDateBack30 (clock w (tick w))) seat /\
  clock (snd (isActiveSeatNow seat w)) = clock w /\
  tick (snd (isActiveSeatNow seat w)) =
    (if truthy_ostring (last_activity_at seat) then S (tick w) else tick w).
Proof.
  unfold isActiveSeatNow, isActiveSeat, truthy_ostring.
  destruct (last_activity_at seat) as [s|]; simpl; [|tauto].
  destruct (truthy_string s); simpl; tauto.
Qed.

(** The count reads the world only through its clock. *)
Lemma countActiveNow_clock (l : list SeatAssignment) (w1 w2 : World) :
  clock w1 = clock w2 -> tick w1 = tick w2 ->
  fst (countActiveNow l w1) = fst (countActiveNow l w2).
Proof.
  revert w1 w2. induction l as [|seat l IH]; intros w1 w2 Hc Ht; simpl; [reflexivity|].
  unfold bind.
  destruct (isActiveSeatNow_run seat w1) as (Hb1 & Hc1 & Ht1).
  destruct (isActiveSeatNow_run seat w2) as (Hb2 & Hc2 & Ht2).
  destruct (isActiveSeatNow seat w1) as [b1 v1].
  destruct (isActiveSeatNow seat w2) as [b2 v2]. simpl in *.
  assert (b1 = b2) as -> by (rewrite Hb1, Hb2, Hc, Ht; reflexivity).
  specialize (IH v1 v2).
  destruct (countActiveNow l v1) as [n1 u1].
  destruct (countActiveNow l v2) as [n2 u2]. simpl in *.
  rewrite IH; [reflexivity | congruence | now rewrite Ht1, Ht2, Ht].
Qed.

(** When the clock stands still, it is the count of the window at that instant. *)
Lemma countActiveNow_constant (l : list SeatAssignment) (w : World) (now : Z) :
  (forall k, clock w k = now) ->
  fst (countActiveNow l w) =
    Z.of_nat (length (List.filter (isActiveSeat (setDateBack30 now)) l)).
Proof.
  revert w. induction l as [|seat l IH]; intros w Hc; simpl; [reflexivity|].
  unfold bind.
  destruct (isActiveSeatNow_run seat w) as (Hb & Hc1 & _).
  destruct (isActiveSeatNow seat w) as [b v]. simpl in *.
  specialize (IH v). rewrite Hc1 in IH. specialize (IH Hc).
  destruct (countActiveNow l v) as [n u]. simpl in *.
  rewrite Hc in Hb. subst b n.
  destruct (isActiveSeat (setDateBack30 now) seat); simpl; lia.
Qed.

Lemma flat_map_seats_setTotalActive (v : option Z) (l : list CopilotSeatsData) :
  flat_map seats (map (setTotalActive v) l) = flat_map seats l.
Proof. induction l as [|d l IH]; simpl; [reflexivity | now rewrite IH]. Qed.

Lemma fetchAllSeats_ok
    (mk : list SeatAssignment -> Z -> Z -> bool -> CopilotSeatsData)
    (entity u : string) (w w' : World) (pages : list CopilotSeatsData) :
  fetchAllSeats mk entity u w = (OK pages, w') ->
  exists count,
    Forall (fun p => total_active_seats p = Some count) pages /\
    count = fst (countActiveNow (flat_map seats pages) w) /\
    (forall now, (forall k, clock w k = now) ->
       count = Z.of_nat (length (List.filter (isActiveSeat (setDateBack30 now))
                                   (flat_map seats pages)))).
Proof.
  unfold fetchAllSeats, bind, onNet.
  destruct (fetchSeatPages mk entity _ _ u 1 []) as [[e|raw] n1]; [discriminate|].
  destruct (readablePages raw) as [seatPages complete].
  set (w1 := {| net := n1; clock := clock w; tick := tick w |}).
  pose proof (countActiveNow_clock (flat_map seats seatPages) w1 w eq_refl eq_refl) as Hsame.
  destruct (countActiveNow (flat_map seats seatPages) w1) as [count w2].
  simpl in Hsame.
  destruct complete; [|discriminate]. intros [= <- <-].
  exists count. rewrite flat_map_seats_setTotalActive. split; [|split].
  - apply Forall_forall. intros p Hp. apply list_elem_of_In in Hp.
    apply in_map_iff in Hp as (d & <- & _). reflexivity.
  - exact Hsame.
  - intros now Hnow. rewrite Hsame. now apply countActiveNow_constant.
Qed.

(** C6. When the fetch succeeds, every page it returns carries the same
    [total_active_seats]: the number of seats of all returned pages together
    that are inside the activity window at the instant the clock is read for
    each of them.  When the clock stands still during the count, that is the
    number of seats of all pages active at that instant. *)
Theorem fetch_global_active_count (env : Env) (filter : IFilter) (w w' : World)
    (pages : list CopilotSeatsData) :
  getDataFromApi env filter w = (OK pages, w') ->
  exists count,
    Forall (fun p => total_active_seats p = Some count) pages /\
    count = fst (countActiveNow (flat_map seats pages) w) /\
    (forall now, (forall k, clock w k = now) ->
       count = Z.of_nat (length (List.filter (isActiveSeat (setDateBack30 now))
                                   (flat_map seats pages)))).
Proof.
  unfold getDataFromApi.
  destruct (ensureGitHubEnvConfig env) as [cfg|e]; [|discriminate].
  destruct (truthy_string (filter_enterprise filter)); apply fetchAllSeats_ok.
Qed.

(** ** Team catalog *)

Lemma Forall_insertBy {A} (cmp : A -> A -> Z) (P : A -> Prop) (x : A) (l : list A) :
  P x -> Forall P l -> Forall P (insertBy cmp x l).
Proof.
  intros Hx Hl. induction Hl as [|y rest Hy Hrest IH]; simpl.
  - now repeat constructor.
  - destruct (Z.ltb (cmp x y) 0); repeat constructor; assumption.
Qed.

Lemma insertBy_sorted {A} (cmp : A -> A -> Z) (x : A) (l : list A) :
  consistentComparator cmp -> sortedBy cmp l -> sortedBy cmp (insertBy cmp x l).
Proof.
  intros [Htotal Htrans]. induction l as [|y rest IH]; simpl.
  - intros _. split; [constructor | exact I].
  - intros [Hy Hrest]. destruct (Z.ltb (cmp x y) 0) eqn:Hlt; simpl.
    + apply Z.ltb_lt in Hlt. split; [|now split].
      constructor; [lia|].
      eapply Forall_impl; [exact Hy|]. simpl. intros z Hz.
      apply (Htrans x y z); [lia | exact Hz].
    + apply Z.ltb_ge in Hlt. split; [|now apply IH].
      apply Forall_insertBy; [|exact Hy].
      destruct (Htotal x y); lia.
Qed.

Lemma insertBy_Permutation {A} (cmp : A -> A -> Z) (x : A) (l : list A) :
  insertBy cmp x l ≡ₚ x :: l.
Proof.
  induction l as [|y rest IH]; simpl; [reflexivity|].
  destruct (Z.ltb (cmp x y) 0); [reflexivity|].
  rewrite IH. apply Permutation_swap.
Qed.

Lemma sortBy_from {A} (cmp : A -> A -> Z) (l acc : list A) :
  consistentComparator cmp -> sortedBy cmp acc ->
  sortedBy cmp (fold_left (fun sorted x => insertBy cmp x sorted) l acc) /\
  fold_left (fun sorted x => insertBy cmp x sorted) l acc ≡ₚ (acc ++ l)%list.
Proof.
  intros Hcmp. revert acc. induction l as [|x l IH]; intros acc Hacc; simpl.
  - split; [assumption | now rewrite app_nil_r].
  - destruct (IH (insertBy cmp x acc) (insertBy_sorted cmp x acc Hcmp Hacc)) as [Hs Hp].
    split; [exact Hs|]. rewrite Hp, insertBy_Permutation.
    simpl. apply Permutation_middle.
Qed.

(** The store path sorts: under a comparison that orders, what it returns is
    the answer of the store rearranged by name. *)
Lemma store_catalog_sorted (env : Env) (filter : IFilter) (w : World)
    (teams0 : list GitHubTeam) :
  consistentComparator localeCompare ->
  fst (getAllCopilotSeatsTeamsFromDatabase env filter w) = OK teams0 ->
  sortedBy compareTeamNames teams0 /\
  exists resources,
    seats_history_teams env
      (teamsQuerySpec
         (format_date (match filter_date filter with
                       | Some d => d
                       | None => clock w (tick w)
                       end)) filter) = Some resources /\
    teams0 ≡ₚ resources.
Proof.
  intros [Htotal Htrans].
  assert (consistentComparator compareTeamNames) as Hcmp.
  { split; unfold compareTeamNames; [intros a b; apply Htotal|].
    intros a b c. apply Htrans. }
  unfold getAllCopilotSeatsTeamsFromDatabase, bind.
  destruct (filter_date filter) as [d|]; simpl;
    match goal with
    | |- context [seats_history_teams env ?q] =>
        destruct (seats_history_teams env q) as [resources|]; [|discriminate]
    end; simpl; intros [= <-];
    destruct (sortBy_from compareTeamNames resources [] Hcmp I) as [Hs Hp];
    (split; [exact Hs | exists resources; split; [reflexivity | exact Hp]]).
Qed.

Lemma findIndex_Some {A} (f : A -> bool) (l : list A) (i : nat) :
  findIndex f l = Some i <->
  exists a, l !! i = Some a /\ f a = true /\
            forall j b, (j < i)%nat -> l !! j = Some b -> f b = false.
Proof.
  revert i. induction l as [|x l IH]; intros i; simpl.
  - split; [discriminate | intros (a & Ha & _); discriminate].
  - destruct (f x) eqn:Hx.
    + split.
      * intros [= <-]. exists x. split; [reflexivity|]. split; [assumption|]. lia.
      * intros (a & Ha & Hfa & Hbefore). destruct i as [|i]; [reflexivity|].
        specialize (Hbefore 0%nat x ltac:(lia) eq_refl). congruence.
    + split.
      * intros H.
        assert (exists k, findIndex f l = Some k /\ i = S k) as (k & Hk & ->).
        { destruct (findIndex f l) as [k|]; simpl in H; [|discriminate].
          injection H as <-. now exists k. }
        apply IH in Hk as (a & Ha & Hfa & Hbefore).
        exists a. split; [assumption|]. split; [assumption|].
        intros [|j] b Hj Hb; simpl in Hb; [congruence|].
        apply (Hbefore j); [lia | assumption].
      * intros (a & Ha & Hfa & Hbefore). destruct i as [|i]; simpl in Ha; [congruence|].
        assert (findIndex f l = Some i) as ->; [|reflexivity].
        apply IH. exists a. split; [assumption|]. split; [assumption|].
        intros j b Hj Hb. apply (Hbefore (S j)); [lia | assumption].
Qed.

Lemma sameTeam_refl (t : GitHubTeam) : sameTeam t t = true.
Proof.
  unfold sameTeam. destruct (truthy_onumber (id t)).
  - now apply bool_decide_eq_true.
  - now apply string_eqb_eq.
Qed.

(** On the live path a team stays exactly when no team before it in the
    listing is the same team. *)
Lemma uniqueTeams_spec (teams0 : list GitHubTeam) (team0 : GitHubTeam) :
  In team0 (uniqueTeams teams0) <->
  exists i, teams0 !! i = Some team0 /\
            forall j t, (j < i)%nat -> teams0 !! j = Some t -> sameTeam team0 t = false.
Proof.
  unfold uniqueTeams. rewrite in_map_iff. split.
  - intros ([i t] & Heq & Hin). simpl in Heq. subst t.
    apply filter_In in Hin as [Hin Hidx]. simpl in Hidx.
    apply bool_decide_eq_true in Hidx.
    apply findIndex_Some in Hidx as (a & Ha & _ & Hbefore).
    apply list_elem_of_In, elem_of_lookup_imap in Hin as (i' & t' & [= -> ->] & Hi).
    now exists i'.
  - intros (i & Hi & Hbefore). exists (i, team0). split; [reflexivity|].
    apply filter_In. split.
    + apply list_elem_of_In, elem_of_lookup_imap. now exists i, team0.
    + simpl. apply bool_decide_eq_true. apply findIndex_Some.
      exists team0. split; [assumption|]. split; [apply sameTeam_refl | assumption].
Qed.

(** ** Historical store and entry points *)

(** C8, as the code has it.  When the store answers the query, and the retry
    without the page predicate, with zero records, the retrieval from the
    store succeeds with the empty aggregate: no seats and both totals zero. *)
Theorem empty_store_result_is_success (env : Env) (filter : IFilter) (w : World) :
  let d := match filter_date filter with Some d => d | None => clock w (tick w) end in
  let querySpec := seatsQuerySpec (format_date d) filter in
  seats_history env querySpec = Some [] ->
  seats_history env (withoutPage querySpec) = Some [] ->
  fst (getCopilotSeatsFromDatabase env filter w) = OK emptyAggregate.
Proof.
  intros d querySpec Hq Hretry.
  unfold getCopilotSeatsFromDatabase, getDataFromDatabase, bind.
  subst querySpec d. destruct (filter_date filter) as [d|]; simpl.
  - rewrite Hq. simpl.
    destruct (str_includes "c.page" _); [rewrite Hretry|]; reflexivity.
  - rewrite Hq. simpl.
    destruct (str_includes "c.page" _); [rewrite Hretry|]; reflexivity.
Qed.

(** C10. When the retrieval the configuration selects, from the store or
    from the API, ends in a failure, the seats-management operation answers
    with the status OK and the empty object, where the seat-retrieval
    operation hands the failure on. *)
Theorem management_swallows_failure (env : Env) (filter : IFilter) (w w' : World)
    (cfg : GitHubConfig) (e : ResponseError) :
  ensureGitHubEnvConfig env = OK cfg ->
  (if cosmosConfiguration env
   then getCopilotSeatsFromDatabase env (withDefaultScope env cfg filter) w
   else getCopilotSeatsFromApi env (withDefaultScope env cfg filter) w) = (Failed e, w') ->
  getCopilotSeatsManagement env filter w = (OK EmptyObject, w') /\
  getCopilotSeats env filter w = (Failed e, w').
Proof.
  intros Hcfg Hfail. unfold getCopilotSeatsManagement, getCopilotSeats.
  rewrite Hcfg. cbv zeta.
  destruct (cosmosConfiguration env); unfold bind; rewrite Hfail; split; reflexivity.
Qed.

End Properties.

(** * The properties on the sample data *)

(** ** Activity window *)

Example seatC_on_the_boundary :
  Date_parse "2024-03-01T00:00:00Z" = Some (sampleNow - 30 * msPerDay) /\
  isActiveSeat (setDateBack30 sampleNow) seatC = true.
Proof. split; vm_compute; reflexivity. Qed.

Example a_day_further_back_is_inactive :
  Date_parse "2024-02-29T00:00:00Z" = Some (sampleNow - 31 * msPerDay) /\
  isActiveSeat (setDateBack30 sampleNow)
    (sampleSeat "C" (Some "Y") (Some "2024-02-29T00:00:00Z")) = false.
Proof. split; vm_compute; reflexivity. Qed.

Lemma activity_window_witness :
  LocalTZA (LocalTime sampleNow - 30 * msPerDay) false = LocalTZA sampleNow true /\
  Z.abs (LocalTZA sampleNow true -
         LocalTZA (LocalTime sampleNow - 30 * msPerDay) false) < msPerDay /\
  isActiveSeat (setDateBack30 sampleNow) seatC = true /\
  isActiveSeat (setDateBack30 sampleNow)
    (sampleSeat "C" (Some "Y") (Some "2024-02-29T00:00:00Z")) = false /\
  isActiveSeat (setDateBack30 sampleNow) (sampleSeat "C" (Some "Y") None) = false.
Proof.
  assert (LocalTZA (LocalTime sampleNow - 30 * msPerDay) false = LocalTZA sampleNow true)
    as Hsame by reflexivity.
  assert (Z.abs (LocalTZA sampleNow true -
                 LocalTZA (LocalTime sampleNow - 30 * msPerDay) false) < msPerDay)
    as Hnear by reflexivity.
  split; [exact Hsame|]. split; [exact Hnear|]. split; [|split].
  - apply (proj2 (proj1 (proj2 (activity_window sampleNow seatC)) Hsame)
             "2024-03-01T00:00:00Z");
      [reflexivity | discriminate | vm_compute; reflexivity].
  - apply (proj1 (proj2 (proj2 (activity_window sampleNow
             (sampleSeat "C" (Some "Y") (Some "2024-02-29T00:00:00Z")))))
             Hnear "2024-02-29T00:00:00Z");
      [reflexivity | vm_compute; reflexivity].
  - apply (proj2 (proj2 (proj2 (activity_window sampleNow
             (sampleSeat "C" (Some "Y") None))))).
    reflexivity.
Defined.

Example clocks_change_in_2024 :
  parseUtcTimestamp "2024-03-10T07:00:00Z" = Some clocksForwardUTC /\
  parseUtcTimestamp "2024-11-03T06:00:00Z" = Some clocksBackUTC /\
  @LocalTime newYork2024 sampleNow = sampleNow - 4 * msPerHour /\
  @UTC newYork2024 (sampleNow - 4 * msPerHour - 30 * msPerDay) =
    sampleNow - 30 * msPerDay + msPerHour.
Proof. repeat split; vm_compute; reflexivity. Qed.

(** C2 fails on a host that changes its clocks inside the thirty days.  In
    New York, with midnight UTC of 31 March 2024 as the reference instant,
    the threshold is 1 March, 01:00 UTC: seat C, last active exactly thirty
    days before the reference instant, is inactive. *)
Lemma boundary_is_inactive_across_clock_change :
  @Date_parse newYork2024 "2024-03-01T00:00:00Z" = Some (sampleNow - 30 * msPerDay) /\
  last_activity_at seatC = Some "2024-03-01T00:00:00Z" /\
  @setDateBack30 newYork2024 sampleNow = sampleNow - 30 * msPerDay + msPerHour /\
  @isActiveSeat newYork2024 (@setDateBack30 newYork2024 sampleNow) seatC = false.
Proof. repeat split; vm_compute; reflexivity. Qed.

(** ** Aggregation *)

Lemma aggregate_multiple_records_witness :
  (2 <= length [0; 1]%nat)%nat /\
  (let result :=
     snd (fst (aggregateSeatsData sampleEnv (storeOf [page1; page2]) [0; 1]%nat
                 None sampleWorld)) in
   seats result = [seatA; seatB; seatC] /\
   total_seats result = 3 /\
   total_active_seats result = Some 2 /\
   has_next_page result = Some false /\
   doc_id result = doc_id page1) /\
  (let result :=
     snd (fst (aggregateSeatsData sampleEnv (storeOf [page1; page2]) [0; 1]%nat
                 (Some ["X"]) sampleWorld)) in
   seats result = [seatA] /\
   total_seats result = 1 /\
   total_active_seats result = Some 1 /\
   has_next_page result = Some false /\
   doc_id result = doc_id page1).
Proof.
  assert (2 <= length [0; 1]%nat)%nat as Hlen by (simpl; lia).
  split; [exact Hlen|]. split.
  - pose proof (aggregate_multiple_records sampleEnv (storeOf [page1; page2])
                  [0; 1]%nat None sampleWorld Hlen) as H.
    cbv zeta in H. destruct H as (Hs & Ht & Ha & Hn & _ & _ & _ & _ & _ & Hid).
    cbv zeta. rewrite Hs, Ht, Ha, Hn, Hid.
    repeat split; vm_compute; reflexivity.
  - pose proof (aggregate_multiple_records sampleEnv (storeOf [page1; page2])
                  [0; 1]%nat (Some ["X"]) sampleWorld Hlen) as H.
    cbv zeta in H. destruct H as (Hs & Ht & Ha & Hn & _ & _ & _ & _ & _ & Hid).
    cbv zeta. rewrite Hs, Ht, Ha, Hn, Hid.
    repeat split; vm_compute; reflexivity.
Defined.

Example aggregate_team_X :
  seats (snd (fst (aggregateSeatsData sampleEnv (storeOf [page1; page2]) [0; 1]%nat
                     (Some ["X"]) sampleWorld))) = [seatA].
Proof. vm_compute. reflexivity. Qed.

Example aggregate_empty_input :
  snd (fst (aggregateSeatsData sampleEnv (storeOf []) [] None sampleWorld)) = emptyAggregate.
Proof. reflexivity. Qed.

(** C3 fails on a single record: the one page on which login A is assigned
    twice comes back with both seats. *)
Lemma single_record_keeps_duplicates :
  seats (snd (fst (aggregateSeatsData sampleEnv (storeOf [repeatedPage]) [0%nat]
                     None sampleWorld))) = [seatA; seatA'] /\
  ~ NoDup (map loginOf
             (seats (snd (fst (aggregateSeatsData sampleEnv (storeOf [repeatedPage])
                                 [0%nat] None sampleWorld))))).
Proof.
  split; [vm_compute; reflexivity|].
  intros H. vm_compute in H. apply NoDup_cons in H as [Hnotin _].
  apply Hnotin. left.
Qed.

Lemma aggregate_distinct_logins_witness :
  length [0; 1]%nat <> 1%nat /\
  NoDup (map loginOf
           (seats (snd (fst (aggregateSeatsData sampleEnv (storeOf [page1; page2])
                               [0; 1]%nat None sampleWorld))))).
Proof.
  assert (length [0; 1]%nat <> 1%nat) as Hlen by (simpl; lia).
  split; [exact Hlen|].
  exact (proj1 (aggregate_distinct_logins sampleEnv (storeOf [page1; page2])
                  [0; 1]%nat None sampleWorld Hlen)).
Defined.

(** C7 fails on a legacy document: aggregation writes the active count into
    the record it was given. *)
Lemma backfill_changes_the_input_record :
  total_active_seats (storeOf [legacyPage] 0%nat) = None /\
  total_active_seats
    (fst (fst (aggregateSeatsData sampleEnv (storeOf [legacyPage]) [0%nat]
                 None sampleWorld)) 0%nat) = Some 1 /\
  fst (fst (aggregateSeatsData sampleEnv (storeOf [legacyPage]) [0%nat]
              None sampleWorld)) 0%nat <> storeOf [legacyPage] 0%nat.
Proof.
  split; [reflexivity|]. split; [vm_compute; reflexivity|].
  intros H. apply (f_equal total_active_seats) in H. vm_compute in H. discriminate H.
Qed.

(** ** Team filter *)

Lemma team_filter_direct_match_witness :
  (exists seat, In seat [seatA; seatB; seatC] /\ assignedToRequested ["X"] seat) /\
  filterSeatsByTeam sampleEnv [seatA; seatB; seatC] ["X"] refusingNet =
    ([seatA], refusingNet).
Proof.
  assert (exists seat, In seat [seatA; seatB; seatC] /\ assignedToRequested ["X"] seat)
    as Hsome.
  { exists seatA. split; [left; reflexivity|].
    exists (sampleTeam "X"). split; [reflexivity|]. split; [discriminate|].
    left. reflexivity. }
  split; [exact Hsome|].
  rewrite (proj1 (team_filter_direct_match sampleEnv [seatA; seatB; seatC] ["X"]
                    refusingNet Hsome)).
  reflexivity.
Defined.

Lemma team_filter_never_unfiltered_witness :
  (forall seat, In seat [seatB] -> ~ assignedToRequested ["X"] seat) /\
  allLookupsFail refusingNet /\
  fst (filterSeatsByTeam sampleEnv [seatB] ["X"] refusingNet) = [] /\
  fst (filterSeatsByTeam sampleEnv [seatB] ["X"] refusingNet) <> [seatB].
Proof.
  assert (forall seat, In seat [seatB] -> ~ assignedToRequested ["X"] seat) as Hnone.
  { intros seat [<- | []] (t & Ht & _). discriminate Ht. }
  assert (allLookupsFail refusingNet) as Hfail.
  { repeat constructor. }
  split; [exact Hnone|]. split; [exact Hfail|].
  destruct (proj2 (team_filter_never_unfiltered sampleEnv [seatB] ["X"] refusingNet Hnone)
              Hfail) as [Hempty Hnot].
  split; [exact Hempty | apply Hnot; discriminate].
Defined.

(** ** Seat fetcher *)

Lemma fetch_global_active_count_witness :
  fst (getDataFromApi sampleEnv liveFilter twoPageWorld) = OK fetchedPages /\
  Forall (fun p => total_active_seats p = Some 3) fetchedPages /\
  map (fun p => Z.of_nat (length (List.filter (isActiveSeat (setDateBack30 sampleNow))
                                    (seats p)))) fetchedPages = [1; 2].
Proof.
  assert (getDataFromApi sampleEnv liveFilter twoPageWorld =
            (OK fetchedPages, snd (getDataFromApi sampleEnv liveFilter twoPageWorld)))
    as Hrun by (vm_compute; reflexivity).
  split; [rewrite Hrun; reflexivity|].
  destruct (fetch_global_active_count sampleEnv liveFilter twoPageWorld _ fetchedPages Hrun)
    as (count & Hall & _ & Hstill).
  specialize (Hstill sampleNow (fun _ => eq_refl)).
  assert (count = 3) as -> by (rewrite Hstill; vm_compute; reflexivity).
  split; [exact Hall | vm_compute; reflexivity].
Defined.

(** ** Historical store and entry points *)

(** C8 fails on a store without records: the retrieval succeeds, with the
    empty aggregate, and does not answer that no data was found. *)
Lemma empty_store_is_not_an_error :
  fst (getCopilotSeats emptyStoreEnv sampleFilter sampleWorld) = OK emptyAggregate /\
  isOK (fst (getCopilotSeats emptyStoreEnv sampleFilter sampleWorld)) = true /\
  fst (getCopilotSeats emptyStoreEnv sampleFilter sampleWorld) <> Failed noDataFound.
Proof.
  split; [vm_compute; reflexivity|]. split; [vm_compute; reflexivity|].
  intros H. apply (f_equal isOK) in H. vm_compute in H. discriminate H.
Qed.

Lemma empty_store_result_is_success_witness :
  seats_history emptyStoreEnv
    (seatsQuerySpec (format_date sampleNow) sampleFilter) = Some [] /\
  fst (getCopilotSeatsFromDatabase emptyStoreEnv sampleFilter sampleWorld) =
    OK emptyAggregate.
Proof.
  split; [reflexivity|].
  apply (empty_store_result_is_success emptyStoreEnv sampleFilter sampleWorld);
    reflexivity.
Defined.

Lemma management_swallows_failure_witness :
  ensureGitHubEnvConfig sampleEnv = OK sampleConfig /\
  fst (getCopilotSeatsFromApi sampleEnv
         (withDefaultScope sampleEnv sampleConfig sampleFilter) sampleWorld) =
    Failed noDataFound /\
  fst (getCopilotSeatsManagement sampleEnv sampleFilter sampleWorld) = OK EmptyObject /\
  fst (getCopilotSeats sampleEnv sampleFilter sampleWorld) = Failed noDataFound.
Proof.
  assert (ensureGitHubEnvConfig sampleEnv = OK sampleConfig) as Hcfg by reflexivity.
  assert ((if cosmosConfiguration sampleEnv
           then getCopilotSeatsFromDatabase sampleEnv
                  (withDefaultScope sampleEnv sampleConfig sampleFilter) sampleWorld
           else getCopilotSeatsFromApi sampleEnv
                  (withDefaultScope sampleEnv sampleConfig sampleFilter) sampleWorld) =
          (Failed noDataFound,
           snd (getCopilotSeatsFromApi sampleEnv
                  (withDefaultScope sampleEnv sampleConfig sampleFilter) sampleWorld)))
    as Hfail by (vm_compute; reflexivity).
  destruct (management_swallows_failure sampleEnv sampleFilter sampleWorld _
              sampleConfig noDataFound Hcfg Hfail) as [Hm Hs].
  split; [exact Hcfg|]. split; [vm_compute; reflexivity|].
  rewrite Hm, Hs. split; reflexivity.
Defined.

(** ** Team catalog *)

(** C9 on the live path.  The listing names team b before team a, and the
    catalog comes back in that order: deduplicated, not sorted by name.  The
    store path, given the same two teams in the same order, returns team a
    before team b. *)
Theorem live_catalog_keeps_listing_order :
  fst (getAllCopilotSeatsTeamsFromApi sampleEnv liveFilter unsortedNet) =
    OK [sampleTeam "b"; sampleTeam "a"] /\
  fst (getAllCopilotSeatsTeams sampleEnv liveFilter unsortedWorld) =
    OK [sampleTeam "b"; sampleTeam "a"] /\
  fst (getAllCopilotSeatsTeams catalogStoreEnv liveFilter unsortedWorld) =
    OK [sampleTeam "a"; sampleTeam "b"] /\
  String.compare "b" "a" = Gt.
Proof. repeat split; vm_compute; reflexivity. Qed.

(** * Further properties of the service *)

Section LinkHeaders.

#[local] Arguments String.append !_ _ : simpl nomatch.

Lemma has_char_app (c : ascii) (a b : string) :
  has_char c (a ++ b) = has_char c a || has_char c b.
Proof.
  induction a as [|x a IH]; simpl; [reflexivity|].
  rewrite IH. now rewrite orb_assoc.
Qed.

Lemma string_app_assoc (a b c : string) : (a ++ b) ++ c = a ++ (b ++ c).
Proof. induction a as [|x a IH]; simpl; [reflexivity | now rewrite IH]. Qed.

Lemma string_app_nil_r (a : string) : a ++ EmptyString = a.
Proof. induction a as [|x a IH]; simpl; [reflexivity | now rewrite IH]. Qed.

Lemma span_until_stop (c : ascii) (a b : string) :
  has_char c a = false ->
  span_until c (a ++ String c b) = (a, String c b).
Proof.
  induction a as [|x a IH]; simpl; intros Ha.
  - now rewrite Ascii.eqb_refl.
  - apply orb_false_iff in Ha as [Hx Ha]. rewrite Hx, (IH Ha). reflexivity.
Qed.

Lemma span_until_free (c : ascii) (s : string) :
  has_char c (fst (span_until c s)) = false.
Proof.
  induction s as [|x s IH]; simpl; [reflexivity|].
  destruct (Ascii.eqb x c) eqn:Hx; simpl; [reflexivity|].
  destruct (span_until c s) as [p r]. simpl in *. now rewrite Hx, IH.
Qed.

Lemma span_until_chars (c d : ascii) (s : string) :
  has_char d (fst (span_until c s)) = true -> has_char d s = true.
Proof.
  induction s as [|x s IH]; simpl; [discriminate|].
  destruct (Ascii.eqb x c) eqn:Hx; simpl; [discriminate|].
  destruct (span_until c s) as [p r]. simpl in *.
  intros H. apply orb_true_iff in H as [H|H]; apply orb_true_iff; auto.
Qed.

Lemma split_go_free (sep : ascii) (cur a : string) :
  has_char sep a = false -> split_go sep cur a = [cur ++ a].
Proof.
  revert cur. induction a as [|x a IH]; intros cur; simpl; intros Ha.
  - now rewrite string_app_nil_r.
  - apply orb_false_iff in Ha as [Hx Ha]. rewrite Hx, (IH _ Ha).
    now rewrite string_app_assoc.
Qed.

Lemma split_go_sep (sep : ascii) (cur a b : string) :
  has_char sep a = false ->
  split_go sep cur (a ++ String sep b) = (cur ++ a) :: split_go sep EmptyString b.
Proof.
  revert cur. induction a as [|x a IH]; intros cur; simpl; intros Ha.
  - rewrite Ascii.eqb_refl. now rewrite string_app_nil_r.
  - apply orb_false_iff in Ha as [Hx Ha]. rewrite Hx, (IH _ Ha).
    now rewrite string_app_assoc.
Qed.

Lemma split_go_pieces_free (cur s : string) :
  has_char "," cur = false ->
  Forall (fun p => has_char "," p = false) (split_go "," cur s).
Proof.
  revert cur. induction s as [|x s IH]; intros cur Hcur; simpl.
  - now repeat constructor.
  - destruct (Ascii.eqb x ",") eqn:Hx.
    + constructor; [assumption | now apply IH].
    + apply IH. rewrite has_char_app, Hcur. simpl. now rewrite Hx.
Qed.

Lemma renderLink_free (l : string * string) :
  wellFormedLink l -> has_char "," (renderLink l) = false.
Proof.
  intros (_ & _ & Hu & _ & _ & Hr). unfold renderLink. simpl.
  rewrite has_char_app, Hu. simpl. rewrite has_char_app, Hr. reflexivity.
Qed.

Lemma match_link_here_rendered (l : string * string) (rest : string) :
  wellFormedLink l ->
  match_link_here (renderLink l ++ rest) = Some l.
Proof.
  destruct l as [u r]. intros (Hu & Hgt & _ & Hr & Hq & _). simpl in *.
  unfold match_link_here, match_target, renderLink. simpl.
  rewrite string_app_assoc. simpl.
  rewrite (span_until_stop ">" u _ Hgt).
  apply truthy_string_iff in Hu. rewrite Hu. simpl.
  rewrite string_app_assoc. simpl.
  rewrite (span_until_stop dquote r _ Hq).
  apply truthy_string_iff in Hr. rewrite Hr. reflexivity.
Qed.

Lemma search_rendered (l : string * string) :
  wellFormedLink l ->
  search match_link_here (renderLink l) = Some l /\
  search match_link_here (String " " (renderLink l)) = Some l.
Proof.
  intros Hwf.
  pose proof (match_link_here_rendered l EmptyString Hwf) as Hm.
  rewrite string_app_nil_r in Hm. split.
  - unfold renderLink in *. simpl in *. now rewrite Hm.
  - unfold renderLink in *. simpl in *. now rewrite Hm.
Qed.

Lemma split_go_rendered (ls : list (string * string)) (cur : string) :
  Forall wellFormedLink ls -> ls <> [] ->
  split_go "," cur (renderLinks ls) =
    match piecesOf ls with
    | p :: ps => (cur ++ p) :: ps
    | [] => []
    end.
Proof.
  intros Hwf. revert cur. induction Hwf as [|l rest Hl Hrest IH]; intros cur Hne.
  - congruence.
  - destruct rest as [|l' rest'].
    + cbn [renderLinks piecesOf map]. apply split_go_free. now apply renderLink_free.
    + change (renderLinks (l :: l' :: rest'))
        with (renderLink l ++ String "," (" " ++ renderLinks (l' :: rest'))).
      rewrite split_go_sep by now apply renderLink_free.
      change (" " ++ renderLinks (l' :: rest'))
        with (String " " (renderLinks (l' :: rest'))).
      cbn [split_go]. change (Ascii.eqb " " ",") with false. cbv iota.
      rewrite (IH _ ltac:(discriminate)). reflexivity.
Qed.

Lemma first_next_pieces (ls : list (string * string)) :
  Forall wellFormedLink ls ->
  first_next (map (fun l' => String " " (renderLink l')) ls) = firstNextOf ls.
Proof.
  unfold firstNextOf. induction 1 as [|l rest Hl Hrest IH]; [reflexivity|].
  cbn [map first_next List.find]. rewrite (proj2 (search_rendered l Hl)).
  destruct l as [u r]. cbn [snd fst].
  destruct (string_eqb r "next"); [reflexivity | exact IH].
Qed.

(** X2. On a header written as the endpoints write it, links of a target in
    angle brackets and a quoted relation separated by a comma and a space,
    the next URL is the target of the first link whose relation is next, and
    there is none when no link has that relation. *)
Theorem next_url_of_rendered_header (ls : list (string * string)) :
  Forall wellFormedLink ls ->
  getNextUrlFromLinkHeader (Some (renderLinks ls)) = firstNextOf ls.
Proof.
  intros Hwf. destruct ls as [|l rest]; [reflexivity|].
  unfold getNextUrlFromLinkHeader.
  assert (truthy_string (renderLinks (l :: rest)) = true) as ->.
  { destruct rest; reflexivity. }
  unfold split_comma. rewrite split_go_rendered by (assumption || discriminate).
  inversion Hwf as [|? ? Hl Hrest]; subst.
  cbn [piecesOf first_next]. change (EmptyString ++ renderLink l) with (renderLink l).
  rewrite (proj1 (search_rendered l Hl)).
  unfold firstNextOf. cbn [List.find]. destruct l as [u r]. cbn [snd fst].
  destruct (string_eqb r "next"); [reflexivity|].
  now apply first_next_pieces.
Qed.

Lemma match_target_shape (s u r : string) :
  match_target s = Some (u, r) ->
  u <> EmptyString /\ has_char ">" u = false /\
  forall d, has_char d u = true -> has_char d s = true.
Proof.
  unfold match_target. destruct s as [|c s1]; [discriminate|].
  destruct (Ascii.eqb c "<") eqn:Hc.
  - apply Ascii.eqb_eq in Hc. subst c.
    pose proof (span_until_free ">" s1) as Hfree.
    pose proof (fun d => span_until_chars ">" d s1) as Hchars.
    destruct (span_until ">" s1) as [u' r1]. simpl in Hfree, Hchars.
    destruct (truthy_string u') eqn:Hu; [|discriminate].
    destruct (strip_prefix ">;" r1); [|discriminate].
    intros [= <- <-]. split; [now apply truthy_string_iff|]. split; [assumption|].
    intros d Hd. simpl. rewrite (Hchars d Hd). apply orb_true_r.
  - intros H. exfalso. revert H Hc.
    destruct c as [[] [] [] [] [] [] [] []]; simpl; congruence.
Qed.

Lemma match_link_here_shape (s u rel : string) :
  match_link_here s = Some (u, rel) ->
  u <> EmptyString /\ has_char ">" u = false /\
  forall d, has_char d u = true -> has_char d s = true.
Proof.
  unfold match_link_here.
  destruct (match_target s) as [[u' r3]|] eqn:Ht; [|discriminate].
  apply match_target_shape in Ht.
  destruct (strip_prefix _ r3) as [r4|]; [|discriminate].
  destruct (span_until dquote r4) as [rel' r5].
  destruct (truthy_string rel'); [|discriminate].
  destruct r5; [discriminate|]. now intros [= <- <-].
Qed.

Lemma search_link_shape (s u rel : string) :
  search match_link_here s = Some (u, rel) ->
  u <> EmptyString /\ has_char ">" u = false /\
  forall d, has_char d u = true -> has_char d s = true.
Proof.
  induction s as [|c s IH].
  - discriminate.
  - simpl. destruct (match_link_here (String c s)) as [m|] eqn:Hm.
    + intros [= ->]. exact (match_link_here_shape _ _ _ Hm).
    + intros H. destruct (IH H) as (H1 & H2 & H3). split; [assumption|].
      split; [assumption|]. intros d Hd. simpl. rewrite (H3 d Hd). apply orb_true_r.
Qed.

Lemma first_next_found (links : list string) (u : string) :
  first_next links = Some u ->
  exists l rel, In l links /\ search match_link_here l = Some (u, rel).
Proof.
  induction links as [|l rest IH]; simpl; [discriminate|].
  destruct (search match_link_here l) as [[u' rel]|] eqn:Hs.
  - destruct (string_eqb rel "next").
    + intros [= <-]. exists l, rel. auto.
    + intros H. destruct (IH H) as (l' & rel' & Hin & Hl'). exists l', rel'. auto.
  - intros H. destruct (IH H) as (l' & rel' & Hin & Hl'). exists l', rel'. auto.
Qed.

(** X1. Whatever the header, a next URL that is found is not empty and holds
    neither a closing angle bracket nor a comma. *)
Theorem next_url_shape (linkHeader : option string) (u : string) :
  getNextUrlFromLinkHeader linkHeader = Some u ->
  u <> EmptyString /\ has_char ">" u = false /\ has_char "," u = false.
Proof.
  unfold getNextUrlFromLinkHeader. destruct linkHeader as [h|]; [|discriminate].
  destruct (truthy_string h); [|discriminate].
  intros H. apply first_next_found in H as (l & rel & Hin & Hs).
  apply search_link_shape in Hs as (Hne & Hgt & Hsub).
  split; [assumption|]. split; [assumption|].
  pose proof (split_go_pieces_free EmptyString h eq_refl) as Hfree.
  rewrite Forall_forall in Hfree. specialize (Hfree l).
  destruct (has_char "," u) eqn:Hc; [|reflexivity].
  rewrite (Hsub _ Hc) in Hfree. exfalso.
  assert (true = false) as Habs by (apply Hfree; now apply list_elem_of_In).
  discriminate Habs.
Qed.

End LinkHeaders.

(** ** Membership lookups *)

Section Lookups.
Context {rt : Runtime}.

Lemma add_login_elem (teamMembers : gset string) (l : option string) (x : string) :
  x ∈ add_login teamMembers l <->
  x ∈ teamMembers \/ (l = Some x /\ x <> EmptyString).
Proof.
  unfold add_login. destruct l as [s|].
  - destruct (truthy_string s) eqn:Hs.
    + apply truthy_string_iff in Hs. rewrite elem_of_union, elem_of_singleton.
      split; [intros [->|H]; auto | intros [H|[[= ->] _]]; auto].
    + assert (s = EmptyString) as -> by (destruct s; [reflexivity | discriminate]).
      split; [auto | intros [H|[[= <-] Hne]]; [assumption | congruence]].
  - split; [auto | intros [H|[[=] _]]; assumption].
Qed.

Lemma add_logins_elem (ls : list (option string)) (teamMembers : gset string) (x : string) :
  x ∈ fold_left add_login ls teamMembers <->
  x ∈ teamMembers \/ (In (Some x) ls /\ x <> EmptyString).
Proof.
  revert teamMembers. induction ls as [|l ls IH]; intros teamMembers; simpl.
  - tauto.
  - rewrite IH, add_login_elem. split.
    + intros [[H|[-> Hne]]|[Hin Hne]]; auto.
    + intros [H|[[->|Hin] Hne]]; auto.
Qed.

Lemma getTeamMembers_loop_adds (p : list Exchange) (reqs : list string)
    (u : string) (teamMembers : gset string) :
  teamMembers ⊆ fst (getTeamMembers_loop p reqs u teamMembers).
Proof.
  revert reqs u teamMembers. induction p as [|x p IH]; intros reqs u teamMembers; simpl.
  - reflexivity.
  - destruct (x u) as [|response]; simpl; [reflexivity|].
    destruct (ok response); simpl; [|reflexivity].
    destruct (logins_of_body (body response)) as [ls|]; simpl; [|reflexivity].
    assert (teamMembers ⊆ fold_left add_login ls teamMembers) as Hadd.
    { intros y Hy. apply add_logins_elem. now left. }
    match goal with
    | |- context [match ?next with Some _ => _ | None => _ end] =>
        destruct next as [u'|]; simpl; [|exact Hadd]
    end.
    destruct (truthy_string u'); simpl; [|exact Hadd].
    etransitivity; [exact Hadd | apply IH].
Qed.

Lemma getTeamMembers_adds (organization tok teamName : string) :
  onlyAdds (getTeamMembers organization tok teamName).
Proof.
  intros teamMembers n. unfold getTeamMembers.
  match goal with |- context [truthy_string ?u] => destruct (truthy_string u) end.
  - apply getTeamMembers_loop_adds.
  - reflexivity.
Qed.

Lemma onlyAdds_seq (f g : gset string -> State Net (gset string)) :
  onlyAdds f -> onlyAdds g -> onlyAdds (fun teamMembers => tm <- f teamMembers ;; g tm).
Proof.
  intros Hf Hg teamMembers n. unfold bind.
  specialize (Hf teamMembers n). destruct (f teamMembers n) as [tm n1]. simpl in Hf.
  etransitivity; [exact Hf | apply Hg].
Qed.

Lemma membersOfEach_adds (organization tok : string) (teamNames : list string) :
  onlyAdds (membersOfEach organization tok teamNames).
Proof.
  induction teamNames as [|t rest IH].
  - intros teamMembers n. reflexivity.
  - apply (onlyAdds_seq _ _ (getTeamMembers_adds organization tok t) IH).
Qed.

Lemma getChildTeamMembers_adds (organization tok parentTeamName : string) :
  onlyAdds (getChildTeamMembers organization tok parentTeamName).
Proof.
  unfold getChildTeamMembers.
  destruct (string_eqb parentTeamName "Birdeye_team").
  - apply onlyAdds_seq; apply getTeamMembers_adds.
  - intros teamMembers n. destruct (pending n) as [|x p']; simpl; [reflexivity|].
    match goal with |- context [x ?u] => destruct (x u) as [|response] end;
      simpl; [reflexivity|].
    destruct (ok response); simpl; [|reflexivity].
    destruct (childTeams_of_body parentTeamName (body response)); simpl; [|reflexivity].
    apply membersOfEach_adds.
Qed.

Lemma resolveTeamMembers_adds (organization tok : string) (teamFilter : list string) :
  onlyAdds (resolveTeamMembers organization tok teamFilter).
Proof.
  induction teamFilter as [|t rest IH].
  - intros teamMembers n. reflexivity.
  - apply (onlyAdds_seq _ (fun tm1 => tm2 <- getChildTeamMembers organization tok t tm1 ;;
                                      resolveTeamMembers organization tok rest tm2)).
    + apply getTeamMembers_adds.
    + apply onlyAdds_seq; [apply getChildTeamMembers_adds | exact IH].
Qed.

(** X3. No membership lookup takes a member out of the set: whatever the
    network answers, the members a lookup starts with are among those it ends
    with, for one team, for its child teams and for a whole team filter. *)
Theorem lookups_only_add_members (organization tok : string) :
  (forall teamName, onlyAdds (getTeamMembers organization tok teamName)) /\
  (forall parentTeamName, onlyAdds (getChildTeamMembers organization tok parentTeamName)) /\
  (forall teamFilter, onlyAdds (resolveTeamMembers organization tok teamFilter)).
Proof.
  split; [|split]; intros t.
  - apply getTeamMembers_adds.
  - apply getChildTeamMembers_adds.
  - apply resolveTeamMembers_adds.
Qed.

Lemma filter_sublist {A} (f : A -> bool) (l : list A) : sublist (List.filter f l) l.
Proof.
  induction l as [|a l IH]; simpl; [constructor|].
  destruct (f a); [now apply sublist_skip | now apply sublist_cons].
Qed.

(** X4. The team filter invents nothing and keeps the order: in every case,
    what it returns is the list of seats it was given with some of them left
    out. *)
Theorem team_filter_returns_sublist (env : Env) (seats0 : list SeatAssignment)
    (teamFilter : list string) (n : Net) :
  sublist (fst (filterSeatsByTeam env seats0 teamFilter n)) seats0.
Proof.
  unfold filterSeatsByTeam.
  destruct (0 <? length (List.filter (hasRequestedTeam teamFilter) seats0))%nat.
  - apply filter_sublist.
  - destruct (ensureGitHubEnvConfig env) as [cfg|e]; simpl.
    + unfold bind. destruct (resolveTeamMembers _ _ teamFilter ∅ n) as [tm n1].
      simpl. apply filter_sublist.
    + apply sublist_nil_l.
Qed.

(** X5. The fallback finds a member: when no seat is assigned through a
    requested team and the members endpoint answers the lookup of the first
    requested team with a list that holds a seat's login, that seat is
    returned, whatever the later lookups answer. *)
Theorem fallback_selects_listed_member (env : Env) (cfg : GitHubConfig)
    (seats0 : list SeatAssignment) (teamName : string) (others : list string)
    (n : Net) (x : Exchange) (p' : list Exchange) (r : Response)
    (ms : list TeamMember) (seat : SeatAssignment) :
  (forall s, In s seats0 -> ~ assignedToRequested (teamName :: others) s) ->
  ensureGitHubEnvConfig env = OK cfg ->
  pending n = x :: p' ->
  x (membersUrl (cfg_organization cfg) teamName) = FetchResolved r ->
  ok r = true ->
  body r = BodyMembers ms ->
  In {| member_login := Some (loginOf seat) |} ms ->
  loginOf seat <> EmptyString ->
  In seat seats0 ->
  In seat (fst (filterSeatsByTeam env seats0 (teamName :: others) n)).
Proof.
  intros Hnone Hcfg Hp Hx Hok Hbody Hms Hne Hin.
  unfold filterSeatsByTeam.
  assert (List.filter (hasRequestedTeam (teamName :: others)) seats0 = []) as ->.
  { apply filter_nil_iff. intros s Hs.
    destruct (hasRequestedTeam (teamName :: others) s) eqn:Hreq; [|reflexivity].
    apply hasRequestedTeam_iff in Hreq. now apply Hnone in Hreq. }
  cbn [length Nat.ltb Nat.leb]. rewrite Hcfg. unfold bind.
  assert (loginOf seat ∈
            fst (resolveTeamMembers (cfg_organization cfg) (token cfg)
                   (teamName :: others) ∅ n)) as Hmember.
  { cbn [resolveTeamMembers]. unfold bind.
    assert (loginOf seat ∈
              fst (getTeamMembers (cfg_organization cfg) (token cfg) teamName ∅ n))
      as Hfirst.
    { unfold getTeamMembers. fold (membersUrl (cfg_organization cfg) teamName).
      destruct (truthy_string (membersUrl (cfg_organization cfg) teamName)) eqn:Hu;
        [|discriminate Hu].
      rewrite Hp. cbn [getTeamMembers_loop]. rewrite Hx, Hok, Hbody.
      cbn [logins_of_body].
      assert (loginOf seat ∈ fold_left add_login (map member_login ms) ∅) as Hadded.
      { apply add_logins_elem. right. split; [|assumption].
        change (Some (loginOf seat))
          with (member_login {| member_login := Some (loginOf seat) |}).
        now apply in_map. }
      match goal with
      | |- context [match ?next with Some _ => _ | None => _ end] =>
          destruct next as [u'|]; [|exact Hadded]
      end.
      destruct (truthy_string u'); [|exact Hadded].
      eapply getTeamMembers_loop_adds. exact Hadded. }
    destruct (getTeamMembers (cfg_organization cfg) (token cfg) teamName ∅ n)
      as [tm1 n1]. simpl in Hfirst.
    pose proof (getChildTeamMembers_adds (cfg_organization cfg) (token cfg) teamName
                  tm1 n1) as Hchild.
    destruct (getChildTeamMembers (cfg_organization cfg) (token cfg) teamName tm1 n1)
      as [tm2 n2]. simpl in Hchild.
    apply (resolveTeamMembers_adds (cfg_organization cfg) (token cfg) others tm2 n2).
    now apply Hchild. }
  destruct (resolveTeamMembers (cfg_organization cfg) (token cfg) (teamName :: others) ∅ n)
    as [tm n']. cbn [fst] in Hmember. unfold ret. cbn [fst].
  apply filter_In. split; [assumption|].
  unfold isTeamMember. now apply bool_decide_eq_true.
Qed.

End Lookups.

(** ** Deduplication and aggregation *)

Section Aggregation.
Context {rt : Runtime}.

Lemma keepFirst_logins_back (l : list SeatAssignment) (k : string) :
  In k (map loginOf l) -> In k (map loginOf (keepFirstByLogin l)).
Proof.
  induction l as [|a l IH]; simpl; [tauto|].
  intros [Ha|Hk]; [now left|].
  destruct (decide (loginOf a = k)) as [Heq|Hne]; [now left|]. right.
  apply in_map_iff in IH as (s & Hs & Hin); [|assumption].
  apply in_map_iff. exists s. split; [assumption|].
  apply filter_In. split; [assumption|].
  apply negb_true_iff, string_eqb_neq. congruence.
Qed.

(** X6. Deduplication leaves one seat for each login: the number of seats
    kept is the number of distinct logins among the seats given, and those
    are the logins of the seats kept. *)
Theorem unique_seats_count_logins (l : list SeatAssignment) :
  length (uniqueSeats l) = size (loginsOf l) /\
  loginsOf (uniqueSeats l) = loginsOf l.
Proof.
  rewrite uniqueSeats_keepFirst.
  assert (loginsOf (keepFirstByLogin l) = loginsOf l) as Hsame.
  { unfold loginsOf. apply set_eq. intros k. rewrite !elem_of_list_to_set.
    rewrite !list_elem_of_In. split;
      [apply keepFirst_logins_in | apply keepFirst_logins_back]. }
  split; [|exact Hsame].
  rewrite <- Hsame. unfold loginsOf.
  rewrite size_list_to_set by apply keepFirst_NoDup.
  now rewrite length_map.
Qed.

Lemma filter_all {A} (f : A -> bool) (l : list A) :
  (forall x, In x l -> f x = true) -> List.filter f l = l.
Proof.
  induction l as [|a l IH]; simpl; intros H; [reflexivity|].
  rewrite (H a (or_introl eq_refl)). f_equal. apply IH. intros x Hx. apply H. now right.
Qed.

Lemma keepFirst_fixed (l : list SeatAssignment) :
  NoDup (map loginOf l) -> keepFirstByLogin l = l.
Proof.
  induction l as [|a l IH]; simpl; intros Hnd; [reflexivity|].
  apply NoDup_cons in Hnd as [Ha Hnd]. rewrite (IH Hnd). f_equal.
  apply filter_all. intros b Hb. apply negb_true_iff, string_eqb_neq.
  intros Heq. apply Ha. rewrite <- Heq. apply list_elem_of_In. now apply in_map.
Qed.

(** X7. Seats whose logins are pairwise distinct pass deduplication
    unchanged, and only those do; so deduplicating twice is deduplicating
    once. *)
Theorem unique_seats_fixed_point (l : list SeatAssignment) :
  (uniqueSeats l = l <-> NoDup (map loginOf l)) /\
  uniqueSeats (uniqueSeats l) = uniqueSeats l.
Proof.
  rewrite !uniqueSeats_keepFirst. split; [split|].
  - intros <-. apply keepFirst_NoDup.
  - apply keepFirst_fixed.
  - apply keepFirst_fixed, keepFirst_NoDup.
Qed.

Lemma filterSeatsByTeam_In (env : Env) (seats0 : list SeatAssignment)
    (teamFilter : list string) (n : Net) (s : SeatAssignment) :
  In s (fst (filterSeatsByTeam env seats0 teamFilter n)) -> In s seats0.
Proof.
  unfold filterSeatsByTeam.
  destruct (0 <? length (List.filter (hasRequestedTeam teamFilter) seats0))%nat.
  - intros H. now apply filter_In in H.
  - destruct (ensureGitHubEnvConfig env) as [cfg|e]; simpl; [|tauto].
    unfold bind. destruct (resolveTeamMembers _ _ teamFilter ∅ n) as [tm n1].
    simpl. intros H. now apply filter_In in H.
Qed.

Lemma seatsInScope_In (env : Env) (sigma : Store) (data : list nat)
    (teamFilter : option (list string)) (n : Net) (s : SeatAssignment) :
  In s (seatsInScope env sigma data teamFilter n) ->
  exists r, In r data /\ In s (seats (sigma r)).
Proof.
  unfold seatsInScope. intros H.
  assert (In s (flat_map (fun r => seats (sigma r)) data)) as Hflat.
  { destruct (teamFilterRequested teamFilter) as [tf|]; [|assumption].
    now apply filterSeatsByTeam_In in H. }
  apply in_flat_map in Hflat. exact Hflat.
Qed.

Lemma countActive_bounds (thirtyDaysAgo : Z) (l : list SeatAssignment) :
  0 <= countActive thirtyDaysAgo l <= Z.of_nat (length l).
Proof.
  unfold countActive. pose proof (filter_length_le (isActiveSeat thirtyDaysAgo) l). lia.
Qed.

Lemma aggregate_seats_from_input (env : Env) (sigma : Store) (data : list nat)
    (teamFilter : option (list string)) (w : World) (s : SeatAssignment) :
  In s (seats (snd (fst (aggregateSeatsData env sigma data teamFilter w)))) ->
  exists r, In r data /\ In s (seats (sigma r)).
Proof.
  destruct data as [|r0 [|r1 rest]].
  - intros [].
  - rewrite (aggregate_single_run env sigma r0 teamFilter w). cbn [snd fst seats].
    apply seatsInScope_In.
  - rewrite (aggregate_many_run env sigma r0 r1 rest teamFilter w). cbn [snd fst seats].
    intros Hs. apply keepFirst_In in Hs as (pre & post & Heq & _).
    apply (seatsInScope_In env sigma _ teamFilter (net w)).
    rewrite Heq. apply in_app_iff. right. now left.
Qed.

(** X8. Whatever the input, the aggregated record is consistent and comes
    from the input: [total_seats] is the number of its seats,
    [total_active_seats] is present and lies between zero and [total_seats],
    and every seat of the result is a seat of one of the input records. *)
Theorem aggregate_result_consistent (env : Env) (sigma : Store) (data : list nat)
    (teamFilter : option (list string)) (w : World) :
  let result := snd (fst (aggregateSeatsData env sigma data teamFilter w)) in
  total_seats result = Z.of_nat (length (seats result)) /\
  (exists active, total_active_seats result = Some active /\
                  0 <= active <= total_seats result) /\
  (forall s, In s (seats result) -> exists r, In r data /\ In s (seats (sigma r))).
Proof.
  cbv zeta. split; [|split; [|intros s; apply aggregate_seats_from_input]].
  - destruct data as [|r0 [|r1 rest]]; [reflexivity| |].
    + now rewrite (aggregate_single_run env sigma r0 teamFilter w).
    + now rewrite (aggregate_many_run env sigma r0 r1 rest teamFilter w).
  - destruct data as [|r0 [|r1 rest]].
    + exists 0. split; [reflexivity | simpl; lia].
    + rewrite (aggregate_single_run env sigma r0 teamFilter w).
      cbn [snd fst total_seats total_active_seats].
      eexists. split; [reflexivity | apply countActive_bounds].
    + rewrite (aggregate_many_run env sigma r0 r1 rest teamFilter w).
      cbn [snd fst total_seats total_active_seats].
      eexists. split; [reflexivity | apply countActive_bounds].
Qed.

(** X9. On a single record the aggregator returns the seats of the record,
    team-filtered when a team filter is given and otherwise as they are, not
    deduplicated; it recounts both totals from them and copies every other
    field of the record, [has_next_page] included. *)
Theorem aggregate_single_record (env : Env) (sigma : Store) (r0 : nat)
    (teamFilter : option (list string)) (w : World) :
  let result := snd (fst (aggregateSeatsData env sigma [r0] teamFilter w)) in
  let scope := requestedScope env sigma [r0] teamFilter (net w) in
  let now := clock w (tick w + backfillReadings (sigma r0))%nat in
  seats result = scope /\
  (teamFilterRequested teamFilter = None -> seats result = seats (sigma r0)) /\
  total_seats result = Z.of_nat (length scope) /\
  total_active_seats result =
    Some (Z.of_nat (length (List.filter (isActiveSeat (setDateBack30 now)) scope))) /\
  has_next_page result = has_next_page (sigma r0) /\
  enterprise result = enterprise (sigma r0) /\
  organization result = organization (sigma r0) /\
  page result = page (sigma r0) /\
  last_update result = last_update (sigma r0) /\
  date result = date (sigma r0) /\
  doc_id result = doc_id (sigma r0).
Proof.
  cbv zeta. rewrite (aggregate_single_run env sigma r0 teamFilter w).
  rewrite seatsInScope_requested.
  cbn [snd fst seats total_seats total_active_seats has_next_page enterprise
       organization page last_update date doc_id].
  split; [reflexivity|]. split; [|repeat split; reflexivity].
  intros Hnone. unfold requestedScope.
  destruct teamFilter as [[|t ts]|]; [|discriminate Hnone|]; simpl; apply app_nil_r.
Qed.

(** X10. Without a team filter the aggregator stays off the network: the
    pending exchanges and the log of requests are what they were, and the
    clock is only read. *)
Theorem aggregate_without_filter_is_offline (env : Env) (sigma : Store)
    (data : list nat) (teamFilter : option (list string)) (w : World) :
  teamFilterRequested teamFilter = None ->
  net (snd (aggregateSeatsData env sigma data teamFilter w)) = net w /\
  clock (snd (aggregateSeatsData env sigma data teamFilter w)) = clock w.
Proof.
  intros Hnone. unfold aggregateSeatsData.
  destruct data as [|r0 others]; [split; reflexivity|].
  unfold bind.
  destruct (backfillFirst_run sigma r0 w) as (_ & Hn & Hc & _).
  destruct (backfillFirst sigma r0 w) as [s1 w1]. simpl in Hn, Hc.
  unfold applyTeamFilter. rewrite Hnone. unfold ret, newDate.
  destruct others; simpl; split; assumption.
Qed.

(** X11. The backfill happens once: after an aggregation of a non-empty
    input the first record carries a [total_active_seats], and a second
    aggregation, whenever it runs, leaves the store as the first one left
    it. *)
Theorem backfill_settles (env : Env) (sigma : Store) (r0 : nat) (others : list nat)
    (teamFilter teamFilter' : option (list string)) (w w2 : World) :
  let sigma' := fst (fst (aggregateSeatsData env sigma (r0 :: others) teamFilter w)) in
  is_Some (total_active_seats (sigma' r0)) /\
  fst (fst (aggregateSeatsData env sigma' (r0 :: others) teamFilter' w2)) = sigma'.
Proof.
  cbv zeta.
  assert (forall s tf v, fst (fst (aggregateSeatsData env s (r0 :: others) tf v)) =
                         backfilled s r0 (clock v (tick v))) as Hstore.
  { intros s tf v. destruct others as [|r1 rest].
    - now rewrite (aggregate_single_run env s r0 tf v).
    - now rewrite (aggregate_many_run env s r0 r1 rest tf v). }
  rewrite !Hstore.
  assert (is_Some (total_active_seats (backfilled sigma r0 (clock w (tick w)) r0)))
    as Hsome.
  { unfold backfilled. destruct (total_active_seats (sigma r0)) as [v|] eqn:Hv.
    - rewrite Hv. now exists v.
    - rewrite fn_lookup_insert. simpl. eauto. }
  split; [exact Hsome|].
  destruct Hsome as [v Hv]. unfold backfilled at 1. now rewrite Hv.
Qed.

End Aggregation.

(** ** Seat fetcher *)

Section Fetcher.
Context {rt : Runtime}.

Lemma isActiveSeatNow_net (seat : SeatAssignment) (w : World) :
  net (snd (isActiveSeatNow seat w)) = net w.
Proof.
  unfold isActiveSeatNow. destruct (truthy_ostring (last_activity_at seat)); reflexivity.
Qed.

Lemma countActiveNow_net (l : list SeatAssignment) (w : World) :
  net (snd (countActiveNow l w)) = net w.
Proof.
  revert w. induction l as [|seat l IH]; intros w; simpl; [reflexivity|].
  unfold bind. pose proof (isActiveSeatNow_net seat w) as Hn.
  destruct (isActiveSeatNow seat w) as [b v]. simpl in Hn.
  specialize (IH v). destruct (countActiveNow l v) as [c u]. simpl in *. congruence.
Qed.

Lemma fetchSeatPages_ok
    (mk : list SeatAssignment -> Z -> Z -> bool -> CopilotSeatsData)
    (entity : string) (p : list Exchange) (reqs : list string) (u : string) (k : Z)
    (acc raw : list (option CopilotSeatsData)) (n' : Net) :
  fetchSeatPages mk entity p reqs u k acc = (inr raw, n') ->
  exists consumed new urls,
    raw = (acc ++ new)%list /\
    p = (consumed ++ pending n')%list /\
    rawFrom mk k consumed new /\
    requests n' = (reqs ++ u :: urls)%list /\
    length (u :: urls) = length new.
Proof.
  revert reqs u k acc. induction p as [|x p IH]; intros reqs u k acc; simpl;
    [discriminate|].
  destruct (x u) as [|response] eqn:Hx; [discriminate|].
  destruct (ok response) eqn:Hok; simpl; [|discriminate].
  destruct (body response) as [|s total|ms|ts] eqn:Hbody; [discriminate|..].
  all: match goal with
       | |- context [negb (stringIsNullOrEmpty (Some ?v))] =>
           destruct (negb (stringIsNullOrEmpty (Some v))) eqn:Hnext
       end.
  all: try (intros H; apply IH in H as (consumed & new & urls & -> & -> & Hraw & Hreq & Hlen);
            destruct new as [|o os]; [destruct consumed; contradiction|];
            eexists (x :: consumed), (_ :: o :: os), (_ :: urls);
            rewrite <- app_assoc in Hreq; rewrite <- app_assoc;
            split; [reflexivity|]; split; [reflexivity|];
            split; [|split; [exact Hreq | simpl in *; lia]];
            split; [|exact Hraw];
            exists u, response; rewrite Hbody;
            repeat split; (assumption || discriminate || reflexivity)).
  all: intros [= <- <-]; eexists [x], [_], [];
       split; [reflexivity|]; split; [reflexivity|];
       split; [|split; reflexivity];
       split; [|reflexivity];
       exists u, response; rewrite Hbody;
       repeat split; (assumption || discriminate || reflexivity).
Qed.

Lemma rawFrom_index
    (mk : list SeatAssignment -> Z -> Z -> bool -> CopilotSeatsData)
    (k : Z) (consumed : list Exchange) (raw : list (option CopilotSeatsData)) :
  rawFrom mk k consumed raw ->
  length consumed = length raw /\ raw <> [] /\
  forall (i : nat) x o, consumed !! i = Some x -> raw !! i = Some o ->
    exists u r, x u = FetchResolved r /\ ok r = true /\
      o = match body r with
          | BodySeats s t =>
              Some (mk s t (k + Z.of_nat i) (bool_decide (S i < length raw)%nat))
          | _ => None
          end.
Proof.
  revert k raw. induction consumed as [|x xs IH]; intros k raw; simpl; [tauto|].
  destruct raw as [|o os]; [tauto|].
  intros [(u & r & Hx & Hok & _ & Ho) Hrest].
  destruct os as [|o' os'].
  - subst xs. split; [reflexivity|]. split; [discriminate|].
    intros [|i] x' o'' Hi Ho'; simpl in Hi, Ho'; [|discriminate].
    injection Hi as <-. injection Ho' as <-. exists u, r.
    rewrite Z.add_0_r. now repeat split.
  - destruct (IH _ _ Hrest) as (Hlen & _ & Hidx).
    split; [simpl in *; lia|]. split; [discriminate|].
    intros [|i] x' o'' Hi Ho'; simpl in Hi, Ho'.
    + injection Hi as <-. injection Ho' as <-. exists u, r.
      rewrite Z.add_0_r. now repeat split.
    + destruct (Hidx i x' o'' Hi Ho') as (u' & r' & Hx' & Hok' & Ho'').
      exists u', r'. split; [assumption|]. split; [assumption|].
      rewrite Ho''. replace (k + 1 + Z.of_nat i) with (k + Z.of_nat (S i)) by lia.
      destruct (body r'); try reflexivity.
      do 2 f_equal. apply bool_decide_ext. simpl. lia.
Qed.

Lemma readablePages_complete (raw : list (option CopilotSeatsData))
    (pages : list CopilotSeatsData) :
  readablePages raw = (pages, true) -> raw = map Some pages.
Proof.
  revert pages. induction raw as [|[d|] raw IH]; intros pages; simpl.
  - now intros [= <-].
  - destruct (readablePages raw) as [ds complete]. intros [= <- ->].
    now rewrite (IH ds eq_refl).
  - discriminate.
Qed.

(** The fetch of one scope, unfolded on a success. *)
Lemma fetchAllSeats_pages
    (mk : list SeatAssignment -> Z -> Z -> bool -> CopilotSeatsData)
    (entity u : string) (w w' : World) (pages : list CopilotSeatsData) :
  fetchAllSeats mk entity u w = (OK pages, w') ->
  exists consumed urls count pages0,
    pages = map (setTotalActive (Some count)) pages0 /\
    pending (net w) = (consumed ++ pending (net w'))%list /\
    rawFrom mk 1 consumed (map Some pages0) /\
    requests (net w') = (requests (net w) ++ u :: urls)%list /\
    length (u :: urls) = length pages0.
Proof.
  unfold fetchAllSeats, bind, onNet.
  destruct (fetchSeatPages mk entity _ _ u 1 []) as [[e|raw] n1] eqn:Hloop;
    [discriminate|].
  apply fetchSeatPages_ok in Hloop
    as (consumed & new & urls & Hraw & Hp & Hfrom & Hreq & Hlen).
  simpl in Hraw. subst new.
  destruct (readablePages raw) as [seatPages complete] eqn:Hread.
  match goal with
  | |- context [countActiveNow ?l ?v] =>
      pose proof (countActiveNow_net l v) as Hnet;
      destruct (countActiveNow l v) as [count w2]
  end.
  simpl in Hnet.
  destruct complete; [|discriminate]. intros [= <- <-].
  apply readablePages_complete in Hread. subst raw.
  exists consumed, urls, count, seatPages. rewrite Hnet.
  rewrite length_map in Hlen. now repeat split.
Qed.

Lemma getDataFromApi_pages (env : Env) (filter : IFilter) (w w' : World)
    (pages : list CopilotSeatsData) :
  getDataFromApi env filter w = (OK pages, w') ->
  exists mk consumed urls count pages0,
    (mk = enterprisePage (filter_enterprise filter) /\
       truthy_string (filter_enterprise filter) = true \/
     mk = organizationPage (filter_organization filter) /\
       truthy_string (filter_enterprise filter) = false) /\
    pages = map (setTotalActive (Some count)) pages0 /\
    pending (net w) = (consumed ++ pending (net w'))%list /\
    rawFrom mk 1 consumed (map Some pages0) /\
    requests (net w') = (requests (net w) ++ seatsUrl filter :: urls)%list /\
    length (seatsUrl filter :: urls) = length pages0.
Proof.
  unfold getDataFromApi, seatsUrl.
  destruct (ensureGitHubEnvConfig env) as [cfg|e]; [|discriminate].
  destruct (truthy_string (filter_enterprise filter)) eqn:Hent; intros H;
    apply fetchAllSeats_pages in H as (consumed & urls & count & pages0 & H);
    eexists _, consumed, urls, count, pages0; (split; [|exact H]); auto.
Qed.

(** X12. A successful fetch returns one page for each exchange it consumed,
    in order and at least one: the exchanges are the first of those pending,
    each answered with a success whose seats and total the page carries, the
    pages are numbered from one, all but the last announce a next page, and
    one request was made for each. *)
Theorem fetched_pages_match_exchanges (env : Env) (filter : IFilter) (w w' : World)
    (pages : list CopilotSeatsData) :
  getDataFromApi env filter w = (OK pages, w') ->
  exists consumed,
    pending (net w) = (consumed ++ pending (net w'))%list /\
    length consumed = length pages /\
    pages <> [] /\
    length (requests (net w')) = (length (requests (net w)) + length pages)%nat /\
    forall (i : nat) x p, consumed !! i = Some x -> pages !! i = Some p ->
      answersWith x p /\
      page p = Some (Z.of_nat i + 1) /\
      has_next_page p = Some (bool_decide (S i < length pages)%nat).
Proof.
  intros H. apply getDataFromApi_pages in H
    as (mk & consumed & urls & count & pages0 & Hmk & -> & Hp & Hraw & Hreq & Hlen).
  apply rawFrom_index in Hraw as (Hlen2 & Hne & Hidx).
  rewrite length_map in Hlen2. rewrite length_map in Hidx.
  exists consumed. rewrite !length_map. split; [assumption|]. split; [assumption|].
  split; [destruct pages0; [now contradiction Hne | discriminate]|].
  split; [rewrite Hreq, length_app; simpl in *; lia|].
  intros i x p Hx Hpage. rewrite list_lookup_fmap in Hpage.
  destruct (pages0 !! i) as [p0|] eqn:Hp0; [|discriminate]. injection Hpage as <-.
  destruct (Hidx i x (Some p0) Hx) as (u & r & Hxu & Hok & Ho).
  { now rewrite list_lookup_fmap, Hp0. }
  destruct (body r) as [|s t|ms|ts] eqn:Hbody; try discriminate.
  injection Ho as ->.
  destruct Hmk as [[-> _]|[-> _]]; simpl;
    (split; [exists u, r; now rewrite Hbody|]);
    (split; [f_equal; lia | reflexivity]).
Qed.

(** X13. The enterprise takes precedence: when the filter names an
    enterprise the first request goes to the enterprise and every page is an
    enterprise page, whether or not an organization is named too; otherwise
    both are the organization's.  Fetched pages carry no update time and an
    empty date and id. *)
Theorem fetched_pages_scope (env : Env) (filter : IFilter) (w w' : World)
    (pages : list CopilotSeatsData) :
  getDataFromApi env filter w = (OK pages, w') ->
  (exists urls,
     requests (net w') = (requests (net w) ++ seatsUrl filter :: urls)%list) /\
  Forall (fun p =>
            (if truthy_string (filter_enterprise filter)
             then enterprise p = Some (filter_enterprise filter) /\ organization p = None
             else enterprise p = None /\
                  organization p = Some (filter_organization filter)) /\
            last_update p = None /\ date p = Some EmptyString /\
            doc_id p = Some EmptyString) pages.
Proof.
  intros H. apply getDataFromApi_pages in H
    as (mk & consumed & urls & count & pages0 & Hmk & -> & Hp & Hraw & Hreq & Hlen).
  split; [now exists urls|].
  apply rawFrom_index in Hraw as (Hlen2 & _ & Hidx).
  apply Forall_forall. intros p Hin.
  apply list_elem_of_In, in_map_iff in Hin as (p0 & <- & Hin).
  apply list_elem_of_In, list_elem_of_lookup in Hin as [i Hi].
  assert (is_Some (consumed !! i)) as [x Hx].
  { apply lookup_lt_is_Some. rewrite Hlen2, length_map.
    now apply lookup_lt_Some in Hi. }
  destruct (Hidx i x (Some p0) Hx) as (u & r & _ & _ & Ho).
  { now rewrite list_lookup_fmap, Hi. }
  destruct (body r) as [|s t|ms|ts]; try discriminate. injection Ho as ->.
  destruct Hmk as [[-> ->]|[-> ->]]; simpl; repeat split; reflexivity.
Qed.

Lemma fetchSeatPages_failed
    (mk : list SeatAssignment -> Z -> Z -> bool -> CopilotSeatsData)
    (entity : string) (p : list Exchange) (reqs : list string) (u : string) (k : Z)
    (acc : list (option CopilotSeatsData)) (e : ResponseError) (n' : Net) :
  fetchSeatPages mk entity p reqs u k acc = (inl e, n') ->
  (exists t, e = unknownResponseError t) \/
  (exists x u' r, In x p /\ x u' = FetchResolved r /\ ok r = false /\
                  e = formatResponseError entity r).
Proof.
  revert reqs u k acc. induction p as [|x p IH]; intros reqs u k acc; simpl.
  - intros [= <- _]. left. eauto.
  - destruct (x u) as [|response] eqn:Hx; [intros [= <- _]; left; eauto|].
    destruct (ok response) eqn:Hok; simpl.
    + destruct (body response); [intros [= <- _]; left; eauto|..];
        match goal with
        | |- context [negb (stringIsNullOrEmpty (Some ?v))] =>
            destruct (negb (stringIsNullOrEmpty (Some v)))
        end; try discriminate;
        intros H; apply IH in H as [H|(x' & u' & r & Hin & H)]; auto;
        right; exists x', u', r; auto.
    + intros [= <- _]. right. exists x, u, response. auto.
Qed.

(** X14. A fetch that fails says why: the failure is the one of the
    configuration, or an unknown error, or the formatted error of a pending
    exchange that answered without success, reported under the name of the
    enterprise when one is named and of the organization otherwise. *)
Theorem fetch_failure_is_traceable (env : Env) (filter : IFilter) (w w' : World)
    (e : ResponseError) :
  getDataFromApi env filter w = (Failed e, w') ->
  ensureGitHubEnvConfig env = Failed e \/
  (exists t, e = unknownResponseError t) \/
  (exists x u r, In x (pending (net w)) /\ x u = FetchResolved r /\ ok r = false /\
                 e = formatResponseError (scopeName filter) r).
Proof.
  unfold getDataFromApi, scopeName.
  destruct (ensureGitHubEnvConfig env) as [cfg|e0]; [|intros [= <- _]; now left].
  intros H. right.
  destruct (truthy_string (filter_enterprise filter));
    unfold fetchAllSeats, bind, onNet in H;
    match type of H with
    | context [fetchSeatPages ?mk ?ent ?p ?reqs ?u 1 []] =>
        destruct (fetchSeatPages mk ent p reqs u 1 []) as [[e1|raw] n1] eqn:Hloop
    end;
    try (injection H as <- _; now apply fetchSeatPages_failed in Hloop);
    destruct (readablePages raw) as [seatPages complete];
    match type of H with
    | context [countActiveNow ?l ?v] => destruct (countActiveNow l v) as [count w2]
    end;
    destruct complete; try discriminate; injection H as <- _; left; eauto.
Qed.

End Fetcher.

(** ** Store queries *)

Section StoreQueries.
Context {rt : Runtime}.

#[local] Arguments String.append !_ _ : simpl nomatch.

Lemma differs_within_app (pat t rest : string) :
  differs_within pat t = true -> strip_prefix pat (t ++ rest) = None.
Proof.
  revert t. induction pat as [|a pat IH]; intros t; [discriminate|].
  destruct t as [|b t]; [discriminate|]. simpl.
  destruct (Ascii.eqb a b); [apply IH | reflexivity].
Qed.

Lemma differs_within_dotted_app (pat t rest : string) :
  differs_within_dotted pat t = true -> match_dotted pat (t ++ rest) = None.
Proof.
  revert t. induction pat as [|a pat IH]; intros t; [discriminate|].
  destruct t as [|b t]; [discriminate|]. simpl.
  destruct (Ascii.eqb a "."%char).
  - destruct ((nat_of_ascii b =? 10) || (nat_of_ascii b =? 13))%nat;
      [reflexivity | apply IH].
  - destruct (Ascii.eqb a b); [apply IH | reflexivity].
Qed.

Lemma str_includes_cons (pat : string) (c : ascii) (x : string) :
  str_includes pat (String c x) =
    match strip_prefix pat (String c x) with
    | Some _ => true
    | None => str_includes pat x
    end.
Proof. reflexivity. Qed.

Lemma remove_first_cons (pat : string) (c : ascii) (x : string) :
  remove_first pat (String c x) =
    match match_dotted pat (String c x) with
    | Some rest => rest
    | None => String c (remove_first pat x)
    end.
Proof. reflexivity. Qed.

Lemma clear_includes (pat s rest : string) :
  clear_of (differs_within pat) s = true ->
  str_includes pat (s ++ rest) = str_includes pat rest.
Proof.
  induction s as [|c s IH]; [reflexivity|]. cbn [clear_of].
  intros H. apply andb_true_iff in H as [Hhere Hlater].
  change (String c s ++ rest) with (String c (s ++ rest)).
  rewrite str_includes_cons.
  change (String c (s ++ rest)) with (String c s ++ rest).
  rewrite (differs_within_app pat (String c s) rest Hhere). now apply IH.
Qed.

Lemma clear_remove (pat s rest : string) :
  clear_of (differs_within_dotted pat) s = true ->
  remove_first pat (s ++ rest) = s ++ remove_first pat rest.
Proof.
  induction s as [|c s IH]; [reflexivity|]. cbn [clear_of].
  intros H. apply andb_true_iff in H as [Hhere Hlater].
  change (String c s ++ rest) with (String c (s ++ rest)).
  rewrite remove_first_cons.
  change (String c (s ++ rest)) with (String c s ++ rest).
  rewrite (differs_within_dotted_app pat (String c s) rest Hhere).
  change (String c s ++ remove_first pat rest)
    with (String c (s ++ remove_first pat rest)).
  now rewrite (IH Hlater).
Qed.

Lemma imap_index_only {A B} (g : nat -> B) (l : list A) (k : nat) :
  imap (fun index _ => g (k + index)%nat) l = map g (seq k (length l)).
Proof.
  revert k. induction l as [|a l IH]; intros k; [reflexivity|].
  rewrite imap_cons. simpl. rewrite Nat.add_0_r. f_equal.
  rewrite <- IH. apply imap_ext. intros i x _. simpl. f_equal. lia.
Qed.

Lemma teamClauses_length (ts : list string) :
  teamClauses ts = map teamCondition (seq 0 (length ts)).
Proof. unfold teamClauses. apply (imap_index_only teamCondition ts 0). Qed.

Lemma seatsQuerySpec_text (dateText : string) (filter : IFilter) :
  query (seatsQuerySpec dateText filter) =
    queryText (truthy_string (filter_enterprise filter))
              (truthy_string (filter_organization filter))
              (length (team filter))
              (truthy_number (filter_page filter)).
Proof.
  unfold seatsQuerySpec, queryText, baseText, pageText, andClause.
  destruct (truthy_string (filter_enterprise filter));
    destruct (truthy_string (filter_organization filter));
    destruct (truthy_number (filter_page filter));
    destruct (team filter) as [|t1 [|t2 ts]];
    cbn [query length teamText];
    rewrite ?teamClauses_length, ?string_app_nil_r, ?string_app_assoc;
    reflexivity.
Qed.

Lemma differs_within_more (pat t rest : string) :
  differs_within pat t = true -> differs_within pat (t ++ rest) = true.
Proof.
  revert t. induction pat as [|a pat IH]; intros t; [discriminate|].
  destruct t as [|b t]; [discriminate|]. simpl.
  destruct (Ascii.eqb a b); [apply IH | reflexivity].
Qed.

Lemma differs_within_dotted_more (pat t rest : string) :
  differs_within_dotted pat t = true -> differs_within_dotted pat (t ++ rest) = true.
Proof.
  revert t. induction pat as [|a pat IH]; intros t; [discriminate|].
  destruct t as [|b t]; [discriminate|]. simpl.
  destruct (Ascii.eqb a "."%char).
  - destruct ((nat_of_ascii b =? 10) || (nat_of_ascii b =? 13))%nat;
      [reflexivity | apply IH].
  - destruct (Ascii.eqb a b); [apply IH | reflexivity].
Qed.

Lemma clear_of_app (differs : string -> bool) (a b : string) :
  (forall t rest, differs t = true -> differs (t ++ rest) = true) ->
  clear_of differs a = true -> clear_of differs b = true ->
  clear_of differs (a ++ b) = true.
Proof.
  intros Hmore. induction a as [|c a IH]; [auto|]. cbn [clear_of].
  intros Ha Hb. apply andb_true_iff in Ha as [Hhere Hlater].
  change (String c a ++ b) with (String c (a ++ b)). cbn [clear_of].
  change (String c (a ++ b)) with (String c a ++ b).
  rewrite (Hmore _ b Hhere), (IH Hlater Hb). reflexivity.
Qed.

(** A text without the first character of a literal pattern holds no start
    of it. *)
Lemma clear_of_first (h : ascii) (pat t : string) :
  has_char h t = false -> clear_of (differs_within (String h pat)) t = true.
Proof.
  induction t as [|b t IH]; [reflexivity|]. cbn [has_char].
  intros H. apply orb_false_iff in H as [Hb Ht].
  cbn [clear_of]. rewrite (IH Ht), andb_true_r.
  cbn [differs_within]. now rewrite Ascii.eqb_sym, Hb.
Qed.

(** A text without the second character of a dotted pattern that starts with
    two plain characters, closed by a character that is neither, holds no
    start of the pattern. *)
Lemma clear_of_second (h1 h2 stop : ascii) (pat t : string) :
  Ascii.eqb h1 "."%char = false -> Ascii.eqb h2 "."%char = false ->
  Ascii.eqb h1 stop = false -> Ascii.eqb h2 stop = false ->
  has_char h2 t = false ->
  clear_of (differs_within_dotted (String h1 (String h2 pat)))
    (t ++ String stop EmptyString) = true.
Proof.
  intros H1 H2 Hs1 Hs2. induction t as [|b t IH]; intros Ht.
  - simpl. now rewrite H1, Hs1.
  - cbn [has_char] in Ht. apply orb_false_iff in Ht as [Hb Ht].
    change (String b t ++ String stop EmptyString)
      with (String b (t ++ String stop EmptyString)).
    cbn [clear_of]. rewrite (IH Ht), andb_true_r.
    cbn [differs_within_dotted]. rewrite H1.
    destruct (Ascii.eqb h1 b); [|reflexivity].
    destruct t as [|b' t']; simpl.
    + now rewrite H2, Hs2.
    + cbn [has_char] in Ht. apply orb_false_iff in Ht as [Hb' _].
      now rewrite H2, Ascii.eqb_sym, Hb'.
Qed.

Lemma has_char_concat (c : ascii) (sep : string) (l : list string) :
  has_char c sep = false -> Forall (fun x => has_char c x = false) l ->
  has_char c (String.concat sep l) = false.
Proof.
  intros Hsep. induction 1 as [|x l Hx Hl IH]; [reflexivity|].
  destruct l as [|y l]; [exact Hx|].
  change (String.concat sep (x :: y :: l)) with (x ++ sep ++ String.concat sep (y :: l)).
  now rewrite !has_char_app, Hx, Hsep, IH.
Qed.

Lemma pretty_N_go_free (c : ascii) (x : N) (s : string) :
  (forall d, Ascii.eqb (pretty_N_char d) c = false) ->
  has_char c s = false -> has_char c (pretty_N_go x s) = false.
Proof.
  intros Hdigit. revert s. induction (N.lt_wf_0 x) as [x _ IH]; intros s Hs.
  assert (x = 0 \/ 0 < x)%N as [->|Hpos] by lia.
  - now rewrite pretty_N_go_0.
  - rewrite pretty_N_go_step by assumption. apply IH.
    + now apply N.div_lt.
    + cbn [has_char]. now rewrite Hdigit, Hs.
Qed.

Lemma pretty_nat_free (c : ascii) (n : nat) :
  (forall d, Ascii.eqb (pretty_N_char d) c = false) ->
  has_char c (pretty n) = false.
Proof.
  intros Hdigit. unfold pretty, pretty_nat, pretty, pretty_N.
  destruct (decide (N.of_nat n = 0%N)).
  - cbn [has_char]. rewrite orb_false_r. exact (Hdigit 0%N).
  - now apply pretty_N_go_free.
Qed.

Lemma digits_are_not (c : ascii) :
  forallb (fun d => negb (Ascii.eqb d c))
    ["0"; "1"; "2"; "3"; "4"; "5"; "6"; "7"; "8"; "9"]%char = true ->
  forall d, Ascii.eqb (pretty_N_char d) c = false.
Proof.
  intros H d. rewrite forallb_forall in H. apply negb_true_iff, H.
  unfold pretty_N_char. repeat case_match; simpl; tauto.
Qed.

Lemma teamConditions_free (c : ascii) (n : nat) :
  has_char c "seat.assigning_team.name = @team OR " = false ->
  forallb (fun d => negb (Ascii.eqb d c))
    ["0"; "1"; "2"; "3"; "4"; "5"; "6"; "7"; "8"; "9"]%char = true ->
  has_char c (String " " (String.concat " OR " (map teamCondition (seq 0 n)))) = false.
Proof.
  intros Htext Hdigits.
  change "seat.assigning_team.name = @team OR "
    with ("seat.assigning_team.name = @team" ++ " OR ") in Htext.
  rewrite has_char_app in Htext. apply orb_false_iff in Htext as [Hcond Hsep].
  assert (has_char c " " = false) as Hspace.
  { change " OR " with (" " ++ "OR ") in Hsep. rewrite has_char_app in Hsep.
    now apply orb_false_iff in Hsep. }
  change (String " " ?x) with (" " ++ x). rewrite has_char_app, Hspace. simpl.
  apply has_char_concat; [assumption|].
  apply Forall_forall. intros x Hx. apply list_elem_of_In, in_map_iff in Hx as (i & <- & _).
  unfold teamCondition. rewrite has_char_app, Hcond. simpl.
  apply pretty_nat_free. now apply digits_are_not.
Qed.

Lemma page_free_text_clear (e o : bool) (n : nat) :
  clear_of (differs_within pageMark) (baseText e o ++ teamText n) = true /\
  clear_of (differs_within_dotted pageClause) (baseText e o ++ teamText n) = true.
Proof.
  destruct n as [|[|m]].
  - destruct e, o; split; vm_compute; reflexivity.
  - destruct e, o; split; vm_compute; reflexivity.
  - set (conditions := String.concat " OR " (map teamCondition (seq 0 (S (S m))))).
    assert (baseText e o ++ teamText (S (S m)) =
            (baseText e o ++ " AND EXISTS (SELECT VALUE 1 FROM seat IN c.seats WHERE")
              ++ (String " " conditions ++ ")")) as ->.
    { cbn [teamText]. fold conditions.
      change " AND EXISTS (SELECT VALUE 1 FROM seat IN c.seats WHERE "
        with (" AND EXISTS (SELECT VALUE 1 FROM seat IN c.seats WHERE" ++ " ").
      rewrite !string_app_assoc. reflexivity. }
    split.
    + apply clear_of_app; [apply differs_within_more | |].
      * destruct e, o; vm_compute; reflexivity.
      * apply clear_of_first. rewrite has_char_app.
        unfold conditions. rewrite teamConditions_free; reflexivity.
    + apply clear_of_app; [apply differs_within_dotted_more | |].
      * destruct e, o; vm_compute; reflexivity.
      * apply clear_of_second; try reflexivity.
        unfold conditions. apply teamConditions_free; reflexivity.
Qed.

Lemma includes_page_spec (dateText : string) (filter : IFilter) :
  str_includes "c.page" (query (seatsQuerySpec dateText filter)) =
    truthy_number (filter_page filter).
Proof.
  rewrite seatsQuerySpec_text. unfold queryText.
  rewrite (clear_includes pageMark _ _ (proj1 (page_free_text_clear _ _ _))).
  destruct (truthy_number (filter_page filter)); reflexivity.
Qed.

Lemma remove_page_text (e o p : bool) (n : nat) :
  remove_first " AND c.page = @page" (queryText e o n p) = queryText e o n false.
Proof.
  unfold queryText.
  rewrite (clear_remove pageClause _ _ (proj2 (page_free_text_clear _ _ _))).
  destruct p; reflexivity.
Qed.

Lemma team_name_is_not_page (x : string) :
  string_eqb ("@team" ++ x) "@page" = false.
Proof. apply string_eqb_neq. discriminate. Qed.

Lemma page_free_parameters (dateText : string) (filter : IFilter) :
  parameters (seatsQuerySpec dateText filter) =
    (parameters (seatsQuerySpec dateText (clearPage filter))
       ++ (if truthy_number (filter_page filter)
           then [("@page", PNumber (filter_page filter))] else []))%list /\
  Forall (fun param => string_eqb (fst param) "@page" = false)
    (parameters (seatsQuerySpec dateText (clearPage filter))).
Proof.
  unfold seatsQuerySpec, clearPage, andClause. cbn [filter_page truthy_number Z.eqb negb
    filter_enterprise filter_organization team].
  destruct (truthy_string (filter_enterprise filter));
    destruct (truthy_string (filter_organization filter));
    destruct (truthy_number (filter_page filter));
    destruct (team filter) as [|t1 [|t2 ts]];
    cbn [parameters]; rewrite ?app_nil_r;
    (split; [reflexivity|]);
    rewrite ?Forall_app; repeat split; repeat constructor;
    unfold teamParameters;
    apply Forall_forall; intros param Hparam;
    apply elem_of_lookup_imap in Hparam as (i & t & -> & _);
    apply team_name_is_not_page.
Qed.

Lemma withoutPage_spec (dateText : string) (filter : IFilter) :
  withoutPage (seatsQuerySpec dateText filter) = seatsQuerySpec dateText (clearPage filter).
Proof.
  destruct (page_free_parameters dateText filter) as [Hparams Hnames].
  pose proof (seatsQuerySpec_text dateText filter) as Htext.
  pose proof (seatsQuerySpec_text dateText (clearPage filter)) as Htext'.
  cbn [clearPage filter_enterprise filter_organization team filter_page] in Htext'.
  change (truthy_number 0) with false in Htext'.
  unfold withoutPage. rewrite Htext, remove_page_text, Hparams.
  destruct (seatsQuerySpec dateText (clearPage filter)) as [text params].
  cbn [query parameters] in *. subst text. f_equal.
  rewrite List.filter_app.
  assert (List.filter (fun param => negb (string_eqb (fst param) "@page")) params = params)
    as ->.
  { clear -Hnames. induction Hnames as [|x l Hx Hl IH]; [reflexivity|].
    simpl. now rewrite Hx, IH. }
  destruct (truthy_number (filter_page filter)); simpl; now rewrite ?app_nil_r.
Qed.

(** X19. The text of a seats query is fixed by what the filter gives, not by
    its values: by whether an enterprise, an organization and a page are
    given and by the number of teams.  Two filters of the same shape are
    asked in the same words, on any date, and every team name travels as the
    value of a parameter. *)
Theorem query_text_from_shape (dateText : string) (filter : IFilter) :
  query (seatsQuerySpec dateText filter) =
    queryText (truthy_string (filter_enterprise filter))
              (truthy_string (filter_organization filter))
              (length (team filter))
              (truthy_number (filter_page filter)) /\
  (forall dateText' filter', sameShape filter filter' ->
     query (seatsQuerySpec dateText filter) = query (seatsQuerySpec dateText' filter')) /\
  (forall t, In t (team filter) ->
     exists parameter,
       In (parameter, PString t) (parameters (seatsQuerySpec dateText filter))).
Proof.
  split; [apply seatsQuerySpec_text|]. split.
  - intros dateText' filter' (He & Ho & Hn & Hp).
    now rewrite !seatsQuerySpec_text, He, Ho, Hn, Hp.
  - intros t Ht. unfold seatsQuerySpec, andClause.
    destruct (truthy_string (filter_enterprise filter));
      destruct (truthy_string (filter_organization filter));
      destruct (truthy_number (filter_page filter));
      destruct (team filter) as [|t1 [|t2 ts]] eqn:Hteam; try contradiction;
      cbn [parameters];
      try (destruct Ht as [<-|[]]; exists "@team"; rewrite ?in_app_iff; simpl; tauto);
      apply list_elem_of_In, list_elem_of_lookup in Ht as [i Hi];
      exists ("@team" ++ pretty i);
      rewrite ?in_app_iff;
      assert (In ("@team" ++ pretty i, PString t) (teamParameters (t1 :: t2 :: ts)))
        by (apply list_elem_of_In, elem_of_lookup_imap; now exists i, t);
      tauto.
Qed.

(** X20. The retry asks the same question without the page: taking the page
    predicate out of a query gives exactly the query of the filter without
    its page, text and parameters, and the text of a query holds the mark the
    retry tests for exactly when the filter asks for a page. *)
Theorem retry_drops_only_the_page (dateText : string) (filter : IFilter) :
  withoutPage (seatsQuerySpec dateText filter) =
    seatsQuerySpec dateText (clearPage filter) /\
  str_includes "c.page" (query (seatsQuerySpec dateText filter)) =
    truthy_number (filter_page filter).
Proof. split; [apply withoutPage_spec | apply includes_page_spec]. Qed.

(** X21. What the store path answers: the failure of the first query when
    it throws; its records when there are any; when there are none and the
    filter asks for a page, what the query without the page answers; and no
    records when there are none and no page was asked for, without a second
    query. *)
Theorem store_retry_rule (env : Env) (filter : IFilter) (w : World) :
  let dateText := format_date (queryDate filter w) in
  fst (getDataFromDatabase env filter w) =
    match seats_history env (seatsQuerySpec dateText filter) with
    | None => Failed (unknownResponseError StoreFailure)
    | Some (r :: rs) => OK (r :: rs)
    | Some [] =>
        if truthy_number (filter_page filter) then
          match seats_history env (seatsQuerySpec dateText (clearPage filter)) with
          | None => Failed (unknownResponseError StoreFailure)
          | Some rs => OK rs
          end
        else OK []
    end.
Proof.
  cbv zeta. unfold getDataFromDatabase, queryDate, bind.
  destruct (filter_date filter) as [d|]; cbn [ret newDate fst snd clock tick];
    match goal with
    | |- context [seats_history env (seatsQuerySpec ?dt filter)] =>
        rewrite (includes_page_spec dt filter), (withoutPage_spec dt filter);
        destruct (seats_history env (seatsQuerySpec dt filter)) as [[|r rs]|]
    end;
    cbn [length Nat.eqb andb];
    try reflexivity;
    destruct (truthy_number (filter_page filter)); try reflexivity;
    match goal with
    | |- context [seats_history env ?q] => destruct (seats_history env q)
    end; reflexivity.
Qed.

End StoreQueries.

(** ** Team catalog *)

Section Catalog.
Context {rt : Runtime}.

Lemma findIndex_None {A} (f : A -> bool) (l : list A) :
  findIndex f l = None <-> existsb f l = false.
Proof.
  induction l as [|a l IH]; simpl; [tauto|].
  destruct (f a); simpl; [split; discriminate|].
  rewrite <- IH. destruct (findIndex f l); simpl; split; congruence.
Qed.

Lemma findIndex_app {A} (f : A -> bool) (pre l : list A) :
  findIndex f (pre ++ l) =
    match findIndex f pre with
    | Some i => Some i
    | None => option_map (fun i => (length pre + i)%nat) (findIndex f l)
    end.
Proof.
  induction pre as [|a pre IH]; simpl.
  - destruct (findIndex f l); reflexivity.
  - destruct (f a); [reflexivity|]. rewrite IH.
    destruct (findIndex f pre); simpl; [reflexivity|].
    destruct (findIndex f l); reflexivity.
Qed.

Lemma findIndex_bound {A} (f : A -> bool) (l : list A) (i : nat) :
  findIndex f l = Some i -> (i < length l)%nat.
Proof.
  revert i. induction l as [|a l IH]; intros i; simpl; [discriminate|].
  destruct (f a); [intros [= <-]; lia|].
  destruct (findIndex f l) as [k|]; simpl; [|discriminate].
  intros [= <-]. specialize (IH k eq_refl). lia.
Qed.

Lemma uniqueTeams_from (pre suf : list GitHubTeam) :
  map snd
    (List.filter
       (fun it => bool_decide (findIndex (sameTeam (snd it)) (pre ++ suf) = Some (fst it)))
       (imap (fun index team => ((length pre + index)%nat, team)) suf)) =
  keepNewTeams pre suf.
Proof.
  revert pre. induction suf as [|t suf IH]; intros pre; [reflexivity|].
  rewrite imap_cons. cbn [List.filter keepNewTeams fst snd].
  assert (bool_decide (findIndex (sameTeam t) (pre ++ t :: suf) = Some (length pre + 0)%nat)
          = negb (existsb (sameTeam t) pre)) as ->.
  { rewrite findIndex_app. destruct (findIndex (sameTeam t) pre) as [i|] eqn:Hi.
    - assert (existsb (sameTeam t) pre = true) as ->.
      { destruct (existsb (sameTeam t) pre) eqn:He; [reflexivity|].
        apply findIndex_None in He. congruence. }
      apply bool_decide_eq_false. apply findIndex_bound in Hi. intros [= ->]. lia.
    - apply findIndex_None in Hi. rewrite Hi. simpl. rewrite sameTeam_refl. simpl.
      now apply bool_decide_eq_true. }
  assert (map snd
            (List.filter
               (fun it => bool_decide
                  (findIndex (sameTeam (snd it)) (pre ++ t :: suf) = Some (fst it)))
               (imap ((fun index team => ((length pre + index)%nat, team)) ∘ S) suf)) =
          keepNewTeams (pre ++ [t]) suf) as Htail.
  { rewrite <- IH. rewrite <- app_assoc. simpl. do 2 f_equal.
    apply imap_ext. intros i x _. simpl. f_equal. rewrite length_app. simpl. lia. }
  destruct (existsb (sameTeam t) pre); simpl; now rewrite Htail.
Qed.

(** X15. The live catalog read front to back: a team of the listing is kept
    unless some team before it, kept or not, is the same team by the test of
    the filter, and the teams kept stay in the order of the listing. *)
Theorem uniqueTeams_reads_in_order (listing : list GitHubTeam) :
  uniqueTeams listing = keepNewTeams [] listing /\
  sublist (uniqueTeams listing) listing.
Proof.
  assert (uniqueTeams listing = keepNewTeams [] listing) as Heq.
  { rewrite <- uniqueTeams_from. reflexivity. }
  split; [exact Heq|]. rewrite Heq. clear Heq. generalize (@nil GitHubTeam) as before.
  induction listing as [|t rest IH]; intros before; simpl; [constructor|].
  destruct (existsb (sameTeam t) before); simpl.
  - apply sublist_cons, IH.
  - apply sublist_skip, IH.
Qed.

Lemma existsb_sameTeam_ids (t : GitHubTeam) (before : list GitHubTeam) :
  Forall (fun b => truthy_onumber (id b) = true) before ->
  existsb (sameTeam t) before = true <-> In (id t) (map id before).
Proof.
  intros Hids. rewrite existsb_exists, in_map_iff. split.
  - intros (b & Hb & Hsame). exists b. split; [|assumption].
    rewrite Forall_forall in Hids. unfold sameTeam in Hsame.
    rewrite (Hids b) in Hsame by now apply list_elem_of_In.
    now apply bool_decide_eq_true in Hsame.
  - intros (b & Hid & Hb). exists b. split; [assumption|].
    rewrite Forall_forall in Hids. unfold sameTeam.
    rewrite (Hids b) by now apply list_elem_of_In.
    now apply bool_decide_eq_true.
Qed.

Lemma keepNewTeams_ids (before listing : list GitHubTeam) :
  Forall (fun b => truthy_onumber (id b) = true) before ->
  Forall (fun b => truthy_onumber (id b) = true) listing ->
  NoDup (map id (keepNewTeams before listing)) /\
  (forall k, In k (map id (keepNewTeams before listing)) -> ~ In k (map id before)) /\
  (forall t, In t listing ->
     In (id t) (map id before) \/ In (id t) (map id (keepNewTeams before listing))).
Proof.
  intros Hbefore Hlisting. revert before Hbefore.
  induction Hlisting as [|t rest Ht Hrest IH]; intros before Hbefore.
  - simpl. split; [constructor|]. split; [intros k []| intros t []].
  - assert (Forall (fun b => truthy_onumber (id b) = true) (before ++ [t])) as Hnext.
    { apply Forall_app. split; [assumption | now constructor]. }
    destruct (IH _ Hnext) as (Hnd & Hfresh & Hcover).
    assert (forall k, In k (map id (keepNewTeams (before ++ [t]) rest)) ->
                      ~ In k (map id before) /\ k <> id t) as Hfresh'.
    { intros k Hk. specialize (Hfresh k Hk). rewrite map_app, in_app_iff in Hfresh.
      simpl in Hfresh.
      split; [intros H; apply Hfresh; now left | intros ->; apply Hfresh; right; now left]. }
    assert (forall t', In t' rest ->
              In (id t') (map id before) \/ id t' = id t \/
              In (id t') (map id (keepNewTeams (before ++ [t]) rest))) as Hcover'.
    { intros t' Ht'. specialize (Hcover t' Ht'). rewrite map_app, in_app_iff in Hcover.
      simpl in Hcover. destruct Hcover as [[H|[H|[]]]|H]; auto. }
    pose proof (existsb_sameTeam_ids t before Hbefore) as Hseen.
    cbn [keepNewTeams]. destruct (existsb (sameTeam t) before) eqn:He; simpl.
    + assert (In (id t) (map id before)) as Hin by now apply Hseen.
      split; [assumption|]. split; [intros k Hk; now apply Hfresh'|].
      intros t' [<-|Ht']; [now left|].
      destruct (Hcover' t' Ht') as [H|[H|H]]; [now left | left; congruence | now right].
    + assert (~ In (id t) (map id before)) as Hnotin.
      { intros Hin. apply Hseen in Hin. congruence. }
      split; [|split].
      * constructor; [|assumption]. rewrite list_elem_of_In.
        intros Hk. now apply Hfresh' in Hk.
      * intros k [<-|Hk]; [assumption | now apply Hfresh'].
      * intros t' [<-|Ht']; [right; now left|].
        destruct (Hcover' t' Ht') as [H|[H|H]];
          [now left | right; left; congruence | right; now right].
Qed.

(** X16. When every team of the listing has an id, the live catalog names
    every id of the listing, and names it once. *)
Theorem catalog_ids_distinct (listing : list GitHubTeam) :
  Forall (fun t => truthy_onumber (id t) = true) listing ->
  NoDup (map id (uniqueTeams listing)) /\
  (forall t, In t listing -> In (id t) (map id (uniqueTeams listing))).
Proof.
  intros Hids.
  assert (uniqueTeams listing = keepNewTeams [] listing) as ->
    by (rewrite <- uniqueTeams_from; reflexivity).
  destruct (keepNewTeams_ids [] listing ltac:(constructor) Hids) as (Hnd & _ & Hcover).
  split; [exact Hnd|]. intros t Ht. destruct (Hcover t Ht) as [[]|H]. exact H.
Qed.



(** X22. The store path sorts and does nothing else: under a comparison of
    names that orders, the catalog is the answer of the store to the teams
    query rearranged in ascending order of name, every team as often as the
    store returned it; when the query throws, the catalog is the unknown
    error of the failure. *)
Theorem store_catalog_is_sorted_answer (env : Env) (filter : IFilter) (w : World) :
  consistentComparator localeCompare ->
  let q := teamsQuerySpec
             (format_date (match filter_date filter with
                           | Some d => d
                           | None => clock w (tick w)
                           end)) filter in
  match seats_history_teams env q with
  | Some resources =>
      exists catalog,
        fst (getAllCopilotSeatsTeamsFromDatabase env filter w) = OK catalog /\
        sortedBy compareTeamNames catalog /\
        catalog ≡ₚ resources /\
        length catalog = length resources
  | None =>
      fst (getAllCopilotSeatsTeamsFromDatabase env filter w) =
        Failed (unknownResponseError StoreFailure)
  end.
Proof.
  intros [Htotal Htrans]. cbv zeta.
  assert (consistentComparator compareTeamNames) as Hcmp.
  { split; unfold compareTeamNames; [intros a b; apply Htotal|].
    intros a b c. apply Htrans. }
  unfold getAllCopilotSeatsTeamsFromDatabase, bind.
  destruct (filter_date filter) as [d|]; cbn [ret newDate fst snd clock tick];
    match goal with
    | |- context [seats_history_teams env ?q] =>
        destruct (seats_history_teams env q) as [resources|]; [|reflexivity]
    end;
    destruct (sortBy_from compareTeamNames resources [] Hcmp I) as [Hs Hp];
    exists (sortBy compareTeamNames resources);
    (split; [reflexivity|]); (split; [exact Hs|]); (split; [exact Hp|]);
    now rewrite Hp.
Qed.

End Catalog.

(** ** The seats table *)

Section SeatsTable.

#[local] Arguments String.append !_ _ : simpl nomatch.

(** X18. The editor column: an editor written as a name, a slash and a
    version shows as the name with the version in brackets, and whatever
    follows a second slash is dropped; an editor without a slash shows with
    the word undefined in the brackets; an absent or empty editor is shown as
    it is. *)
Theorem editor_name_format (name0 version0 more : string) :
  has_char "/" name0 = false ->
  has_char "/" version0 = false ->
  formatEditorName (Some (name0 ++ "/" ++ version0)) =
    Some (name0 ++ " (" ++ version0 ++ ")") /\
  formatEditorName (Some (name0 ++ "/" ++ version0 ++ "/" ++ more)) =
    Some (name0 ++ " (" ++ version0 ++ ")") /\
  (name0 <> EmptyString ->
   formatEditorName (Some name0) = Some (name0 ++ " (undefined)")) /\
  formatEditorName (Some EmptyString) = Some EmptyString /\
  formatEditorName None = None.
Proof.
  intros Hname Hversion.
  assert (forall rest, stringIsNullOrEmpty (Some (name0 ++ String "/" rest)) = false)
    as Htruthy.
  { intros rest. destruct name0; reflexivity. }
  split; [|split; [|split; [|split; reflexivity]]].
  - unfold formatEditorName. change ("/" ++ version0) with (String "/" version0).
    rewrite Htruthy, (split_go_sep "/" EmptyString name0 version0 Hname).
    rewrite (split_go_free "/" EmptyString version0 Hversion). reflexivity.
  - unfold formatEditorName.
    change ("/" ++ version0 ++ "/" ++ more)
      with (String "/" (version0 ++ String "/" more)).
    rewrite Htruthy, (split_go_sep "/" EmptyString name0 _ Hname).
    rewrite (split_go_sep "/" EmptyString version0 more Hversion). reflexivity.
  - intros Hne. unfold formatEditorName.
    assert (stringIsNullOrEmpty (Some name0) = false) as ->
      by (destruct name0; [contradiction | reflexivity]).
    rewrite (split_go_free "/" EmptyString name0 Hname). reflexivity.
Qed.

End SeatsTable.

(** ** Entry points *)

Section EntryPoints.
Context {rt : Runtime}.

(** X24. What the entry points let through of a failure: the seat retrieval
    and the team catalog fail with the error of the configuration or with
    the one message that no data was found, whatever went wrong behind them,
    and the seats-management operation fails with the error of the
    configuration only. *)
Theorem entry_points_hide_the_cause (env : Env) (filter : IFilter) (w : World)
    (e : ResponseError) :
  (fst (getCopilotSeats env filter w) = Failed e ->
   ensureGitHubEnvConfig env = Failed e \/ e = noDataFound) /\
  (fst (getAllCopilotSeatsTeams env filter w) = Failed e ->
   ensureGitHubEnvConfig env = Failed e \/ e = noDataFound) /\
  (fst (getCopilotSeatsManagement env filter w) = Failed e ->
   ensureGitHubEnvConfig env = Failed e).
Proof.
  unfold getCopilotSeats, getAllCopilotSeatsTeams, getCopilotSeatsManagement.
  destruct (ensureGitHubEnvConfig env) as [cfg|e0].
  - cbv zeta. set (filter' := withDefaultScope env cfg filter).
    unfold getCopilotSeatsFromDatabase, getCopilotSeatsFromApi, bind, onNet, orNoData,
      orEmptyObject.
    destruct (cosmosConfiguration env).
    + destruct (getDataFromDatabase env filter' w) as [[response|e1] w1].
      * destruct (aggregateFresh env response (Some (team filter')) w1) as [d w2].
        destruct (getAllCopilotSeatsTeamsFromDatabase env filter' w) as [[teams0|e2] w3];
          simpl; repeat split; intros [=]; auto.
      * destruct (getAllCopilotSeatsTeamsFromDatabase env filter' w) as [[teams0|e2] w3];
          simpl; repeat split; intros [=]; auto.
    + destruct (getDataFromApi env filter' w) as [[response|e1] w1].
      * destruct (aggregateFresh env response (Some (team filter')) w1) as [d w2].
        destruct (getAllCopilotSeatsTeamsFromApi env filter' (net w)) as [[teams0|e2] n3];
          simpl; repeat split; intros [=]; auto.
      * destruct (getAllCopilotSeatsTeamsFromApi env filter' (net w)) as [[teams0|e2] n3];
          simpl; repeat split; intros [=]; auto.
  - simpl. repeat split; intros [= ->]; auto.
Qed.

End EntryPoints.

(** ** Pages of members *)

Section MemberPages.

#[local] Arguments String.append !_ _ : simpl nomatch.

Lemma search_next_link (u : string) :
  u <> EmptyString -> has_char ">" u = false ->
  search match_next_here (nextLink u) = Some u.
Proof.
  intros Hne Hgt. unfold nextLink.
  change ("<" ++ u ++ ">; rel=" ++ String dquote ("next" ++ String dquote EmptyString))
    with (String "<" (u ++ String ">" ("; rel=" ++ String dquote
            ("next" ++ String dquote EmptyString)))).
  cbn [search]. unfold match_next_here, match_target.
  rewrite (span_until_stop ">" u _ Hgt).
  apply truthy_string_iff in Hne. rewrite Hne. reflexivity.
Qed.

Lemma page_logins_elem (logins : list string) (teamMembers : gset string) (x : string) :
  x ∈ fold_left add_login
        (map member_login (map (fun l => {| member_login := Some l |}) logins)) teamMembers <->
  x ∈ teamMembers \/ (x <> EmptyString /\ In x logins).
Proof.
  rewrite add_logins_elem, map_map. simpl. rewrite in_map_iff. split.
  - intros [H|[(l & [= ->] & Hl) Hne]]; auto.
  - intros [H|[Hne Hl]]; [now left|]. right. split; [|assumption]. now exists x.
Qed.

(** X23. The lookup of a team follows the pages of members to the last one:
    when the endpoint serves the members on pages that each link to the
    next, the lookup adds every login of every page that is not empty, and
    nothing else, makes one request for each page, the first to the address
    of the team and the others to the linked address, and leaves the
    exchanges behind the last page pending. *)
Theorem members_of_all_pages (organization tok teamName : string)
    (teamMembers : gset string) (n : Net) (pages : list (list string))
    (nextUrl : string) (later : list Exchange) :
  pages <> [] -> nextUrl <> EmptyString -> has_char ">" nextUrl = false ->
  pending n = (servePages pages nextUrl ++ later)%list ->
  (forall x, x ∈ fst (getTeamMembers organization tok teamName teamMembers n) <->
             x ∈ teamMembers \/
             (x <> EmptyString /\ exists logins, In logins pages /\ In x logins)) /\
  pending (snd (getTeamMembers organization tok teamName teamMembers n)) = later /\
  requests (snd (getTeamMembers organization tok teamName teamMembers n)) =
    (requests n ++ membersUrl organization teamName
       :: replicate (length pages - 1) nextUrl)%list.
Proof.
  intros Hpages Hne Hgt Hp. unfold getTeamMembers.
  fold (membersUrl organization teamName).
  assert (truthy_string (membersUrl organization teamName) = true) as -> by reflexivity.
  rewrite Hp. clear Hp. generalize (requests n) as reqs.
  generalize (membersUrl organization teamName) as u. revert teamMembers.
  induction pages as [|logins rest IH]; [contradiction|]. intros teamMembers u reqs.
  destruct rest as [|logins2 rest'].
  - cbn [servePages app getTeamMembers_loop respond membersPage ok body link
         logins_of_body option_map fst snd pending requests sent length Nat.sub replicate].
    split; [|split; reflexivity].
    intros x. rewrite page_logins_elem. split.
    + intros [H|[H1 H2]]; [now left|]. right. split; [assumption|].
      exists logins. split; [now left | assumption].
    + intros [H|[H1 (l & [<-|[]] & Hl)]]; [now left | now right].
  - change (servePages (logins :: logins2 :: rest') nextUrl)
      with (respond (membersPage logins (Some nextUrl))
              :: servePages (logins2 :: rest') nextUrl).
    cbn [app getTeamMembers_loop respond membersPage ok body link logins_of_body
         option_map].
    assert (truthy_string (nextLink nextUrl) = true) as -> by reflexivity.
    rewrite (search_next_link nextUrl Hne Hgt).
    assert (truthy_string nextUrl = true) as -> by now apply truthy_string_iff.
    destruct (IH ltac:(discriminate)
                (fold_left add_login
                   (map member_login
                      (map (fun l => {| member_login := Some l |}) logins)) teamMembers)
                nextUrl (reqs ++ [u])%list) as (Hmem & Hpend & Hreq).
    split; [|split].
    + intros x. rewrite Hmem, page_logins_elem. split.
      * intros [[H|[H1 H2]]|[H1 (l & Hin & Hl)]].
        -- now left.
        -- right. split; [assumption|]. exists logins. split; [now left | assumption].
        -- right. split; [assumption|]. exists l. split; [now right | assumption].
      * intros [H|[H1 (l & [<-|Hin] & Hl)]].
        -- left. now left.
        -- left. now right.
        -- right. split; [assumption|]. now exists l.
    + exact Hpend.
    + rewrite Hreq, <- app_assoc. cbn [length Nat.sub replicate app].
      now rewrite Nat.sub_0_r.
Qed.

End MemberPages.

(** ** Retrieval, end to end *)

Section Retrieval.
Context {rt : Runtime}.

Lemma storeOf_In (l : list CopilotSeatsData) (r : nat) :
  In r (seq 0 (length l)) -> In (storeOf l r) l.
Proof.
  intros Hr. apply in_seq in Hr. unfold storeOf. apply nth_In. lia.
Qed.

Lemma aggregateFresh_seats (env : Env) (l : list CopilotSeatsData)
    (teamFilter : option (list string)) (w : World) (s : SeatAssignment) :
  In s (seats (fst (aggregateFresh env l teamFilter w))) ->
  exists d, In d l /\ In s (seats d).
Proof.
  unfold aggregateFresh, bind.
  pose proof (aggregate_seats_from_input env (storeOf l) (seq 0 (length l)) teamFilter w s)
    as Hfrom.
  destruct (aggregateSeatsData env (storeOf l) (seq 0 (length l)) teamFilter w)
    as [[sigma' d] w']. simpl in *.
  intros Hs. destruct (Hfrom Hs) as (r & Hr & Hin).
  exists (storeOf l r). split; [now apply storeOf_In | assumption].
Qed.

(** X25. A live retrieval invents no seat: every seat of a successful
    result was listed in the body of a success among the exchanges that were
    pending when the retrieval began. *)
Theorem live_seats_were_listed (env : Env) (filter : IFilter) (w w' : World)
    (result : CopilotSeatsData) :
  getCopilotSeatsFromApi env filter w = (OK result, w') ->
  forall s, In s (seats result) -> listedBy (pending (net w)) s.
Proof.
  unfold getCopilotSeatsFromApi, bind.
  destruct (getDataFromApi env filter w) as [[pages|e] w1] eqn:Hfetch; [|discriminate].
  pose proof (aggregateFresh_seats env pages (Some (team filter)) w1) as Hagg.
  destruct (aggregateFresh env pages (Some (team filter)) w1) as [d w2].
  simpl in Hagg. intros [= <- <-] s Hs.
  destruct (Hagg s Hs) as (p & Hp & Hin).
  apply getDataFromApi_pages in Hfetch
    as (mk & consumed & urls & count & pages0 & Hmk & -> & Hpending & Hraw & _).
  apply rawFrom_index in Hraw as (Hlen & _ & Hidx).
  apply in_map_iff in Hp as (p0 & <- & Hp0).
  apply list_elem_of_In, list_elem_of_lookup in Hp0 as [i Hi].
  assert (is_Some (consumed !! i)) as [x Hx].
  { apply lookup_lt_is_Some. rewrite Hlen, length_map.
    now apply lookup_lt_Some in Hi. }
  destruct (Hidx i x (Some p0) Hx) as (u & r & Hxu & Hok & Ho).
  { now rewrite list_lookup_fmap, Hi. }
  destruct (body r) as [|listed total|ms|ts] eqn:Hbody; try discriminate.
  injection Ho as ->.
  exists x, u, r, listed, total.
  split; [rewrite Hpending; apply in_app_iff; left;
          now apply list_elem_of_In, list_elem_of_lookup_2 with i|].
  repeat split; try assumption.
  destruct Hmk as [[-> _]|[-> _]]; exact Hin.
Qed.

(** X26. A retrieval from the store invents no seat either: every seat of a
    successful result is a seat of a record that the store returned for the
    query of the filter or for that query without the page. *)
Theorem stored_seats_were_returned (env : Env) (filter : IFilter) (w w' : World)
    (result : CopilotSeatsData) :
  getCopilotSeatsFromDatabase env filter w = (OK result, w') ->
  forall s, In s (seats result) ->
    exists q records d,
      (q = seatsQuerySpec (format_date (queryDate filter w)) filter \/
       q = seatsQuerySpec (format_date (queryDate filter w)) (clearPage filter)) /\
      seats_history env q = Some records /\ In d records /\ In s (seats d).
Proof.
  unfold getCopilotSeatsFromDatabase, bind.
  destruct (getDataFromDatabase env filter w) as [[records|e] w1] eqn:Hdata;
    [|discriminate].
  pose proof (aggregateFresh_seats env records (Some (team filter)) w1) as Hagg.
  destruct (aggregateFresh env records (Some (team filter)) w1) as [d w2].
  simpl in Hagg. intros [= <- <-] s Hs.
  destruct (Hagg s Hs) as (rec & Hrec & Hin).
  assert (fst (getDataFromDatabase env filter w) = OK records) as Hrule
    by now rewrite Hdata.
  revert Hrule. unfold getDataFromDatabase, queryDate, bind.
  destruct (filter_date filter) as [d0|]; cbn [ret newDate fst snd clock tick];
    match goal with
    | |- context [seats_history env (seatsQuerySpec ?dt filter)] =>
        rewrite (withoutPage_spec dt filter);
        destruct (seats_history env (seatsQuerySpec dt filter)) as [first|] eqn:Hq;
          [|discriminate];
        destruct ((length first =? 0)%nat &&
                  str_includes "c.page" (query (seatsQuerySpec dt filter)));
          [destruct (seats_history env (seatsQuerySpec dt (clearPage filter)))
             as [second|] eqn:Hq2; [|discriminate]|];
          intros [= ->];
          [exists (seatsQuerySpec dt (clearPage filter)), records, rec
          |exists (seatsQuerySpec dt filter), records, rec];
          auto
    end.
Qed.

(** X27. On a success the two entry points agree: what the seat retrieval
    returns, the seats-management operation returns as its data, and both
    leave the world in the same state. *)
Theorem management_mirrors_retrieval (env : Env) (filter : IFilter) (w w' : World)
    (result : CopilotSeatsData) :
  getCopilotSeats env filter w = (OK result, w') ->
  getCopilotSeatsManagement env filter w = (OK (SeatsData result), w').
Proof.
  unfold getCopilotSeats, getCopilotSeatsManagement.
  destruct (ensureGitHubEnvConfig env) as [cfg|e]; [|discriminate].
  cbv zeta. unfold bind.
  destruct (cosmosConfiguration env); intros ->; reflexivity.
Qed.

End Retrieval.

(** * The further properties on the sample data *)

Lemma next_url_shape_witness :
  getNextUrlFromLinkHeader (Some sampleHeader) = Some "https://api.github.com/x?page=3" /\
  "https://api.github.com/x?page=3" <> EmptyString /\
  has_char "," "https://api.github.com/x?page=3" = false.
Proof.
  assert (getNextUrlFromLinkHeader (Some sampleHeader) =
            Some "https://api.github.com/x?page=3") as Hnext by (vm_compute; reflexivity).
  split; [exact Hnext|].
  destruct (next_url_shape (Some sampleHeader) _ Hnext) as (Hne & _ & Hcomma).
  split; assumption.
Defined.

Lemma next_url_of_rendered_header_witness :
  Forall wellFormedLink sampleLinks /\
  getNextUrlFromLinkHeader (Some (renderLinks sampleLinks)) =
    Some "https://api.github.com/x?page=3".
Proof.
  assert (Forall wellFormedLink sampleLinks) as Hwf.
  { repeat constructor; simpl; discriminate. }
  split; [exact Hwf|].
  rewrite (next_url_of_rendered_header sampleLinks Hwf). reflexivity.
Defined.

Lemma fallback_selects_listed_member_witness :
  In (bareSeat "C") [bareSeat "A"; bareSeat "B"; bareSeat "C"] /\
  In (bareSeat "C")
     (fst (filterSeatsByTeam sampleEnv [bareSeat "A"; bareSeat "B"; bareSeat "C"] ["X"]
             membersNet)) /\
  fst (filterSeatsByTeam sampleEnv [bareSeat "A"; bareSeat "B"; bareSeat "C"] ["X"]
         membersNet) = [bareSeat "A"; bareSeat "C"].
Proof.
  assert (In (bareSeat "C") [bareSeat "A"; bareSeat "B"; bareSeat "C"]) as Hin
    by (right; right; left; reflexivity).
  split; [exact Hin|].
  assert (forall s, In s [bareSeat "A"; bareSeat "B"; bareSeat "C"] ->
                    ~ assignedToRequested ["X"] s) as Hnone.
  { intros s [<-|[<-|[<-|[]]]] (t & Ht & _); discriminate Ht. }
  split; [|vm_compute; reflexivity].
  exact (fallback_selects_listed_member sampleEnv sampleConfig
           [bareSeat "A"; bareSeat "B"; bareSeat "C"] "X" [] membersNet
           (respond (membersResponse ["A"; "C"]))
           [respond unavailable; respond unavailable]
           (membersResponse ["A"; "C"])
           (map (fun l => {| member_login := Some l |}) ["A"; "C"])
           (bareSeat "C") Hnone eq_refl eq_refl eq_refl eq_refl eq_refl
           ltac:(right; left; reflexivity) ltac:(discriminate) Hin).
Defined.

Lemma aggregate_without_filter_is_offline_witness :
  teamFilterRequested (Some []) = None /\
  net (snd (aggregateSeatsData sampleEnv (storeOf [page1; page2]) [0; 1]%nat
              (Some []) twoPageWorld)) = twoPageNet.
Proof.
  assert (teamFilterRequested (Some []) = None) as Hnone by reflexivity.
  split; [exact Hnone|].
  exact (proj1 (aggregate_without_filter_is_offline sampleEnv (storeOf [page1; page2])
                  [0; 1]%nat (Some []) twoPageWorld Hnone)).
Defined.

Lemma fetched_pages_match_exchanges_witness :
  fst (getDataFromApi sampleEnv liveFilter twoPageWorld) = OK fetchedPages /\
  exists consumed,
    pending twoPageNet =
      (consumed ++ pending (net (snd (getDataFromApi sampleEnv liveFilter twoPageWorld))))%list /\
    length consumed = 2%nat.
Proof.
  assert (getDataFromApi sampleEnv liveFilter twoPageWorld =
            (OK fetchedPages, snd (getDataFromApi sampleEnv liveFilter twoPageWorld)))
    as Hrun by (vm_compute; reflexivity).
  split; [rewrite Hrun; reflexivity|].
  destruct (fetched_pages_match_exchanges sampleEnv liveFilter twoPageWorld _
              fetchedPages Hrun) as (consumed & Hpending & Hlen & _).
  exists consumed. split; [exact Hpending | exact Hlen].
Defined.

Lemma fetched_pages_scope_witness :
  isOK (fst (getDataFromApi sampleEnv bothScopesFilter twoPageWorld)) = true /\
  Forall (fun p => enterprise p = Some "acme" /\ organization p = None)
    (match fst (getDataFromApi sampleEnv bothScopesFilter twoPageWorld) with
     | OK pages => pages
     | Failed _ => []
     end).
Proof.
  split; [vm_compute; reflexivity|].
  destruct (getDataFromApi sampleEnv bothScopesFilter twoPageWorld) as [[pages|e] w']
    eqn:Hrun; [|constructor].
  destruct (fetched_pages_scope sampleEnv bothScopesFilter twoPageWorld w' pages Hrun)
    as [_ Hall].
  eapply Forall_impl; [exact Hall|].
  intros p (Hscope & _). exact Hscope.
Defined.

Lemma fetch_failure_is_traceable_witness :
  fst (getDataFromApi sampleEnv liveFilter failingWorld) =
    Failed (formatResponseError "octo" unavailable) /\
  exists x u r, In x (pending (net failingWorld)) /\ x u = FetchResolved r /\
                ok r = false.
Proof.
  assert (getDataFromApi sampleEnv liveFilter failingWorld =
            (Failed (formatResponseError "octo" unavailable),
             snd (getDataFromApi sampleEnv liveFilter failingWorld)))
    as Hrun by (vm_compute; reflexivity).
  split; [rewrite Hrun; reflexivity|].
  destruct (fetch_failure_is_traceable sampleEnv liveFilter failingWorld _ _ Hrun)
    as [Hcfg|[[t Ht]|(x & u & r & Hin & Hx & Hok & _)]].
  - discriminate Hcfg.
  - vm_compute in Ht. discriminate Ht.
  - exists x, u, r. auto.
Defined.


Lemma sample_names_are_ordered : consistentComparator localeCompare.
Proof.
  assert (forall a b, localeCompare a b <= 0 <-> String.le a b) as Hle.
  { intros a b. unfold String.le, String.leb. simpl.
    destruct (String.compare a b); simpl; split; intros H;
      (lia || exact I || contradiction || discriminate). }
  split.
  - intros a b. simpl. destruct (String.compare a b) eqn:Hab.
    + right. rewrite String.compare_antisym, Hab. simpl. lia.
    + left. lia.
    + right. rewrite String.compare_antisym, Hab. simpl. lia.
  - intros a b c Hab Hbc. apply Hle. apply Hle in Hab, Hbc.
    now transitivity b.
Qed.

Lemma store_catalog_is_sorted_answer_witness :
  consistentComparator localeCompare /\
  exists catalog,
    fst (getAllCopilotSeatsTeamsFromDatabase catalogStoreEnv liveFilter unsortedWorld)
      = OK catalog /\
    sortedBy compareTeamNames catalog /\
    length catalog = 2%nat.
Proof.
  split; [exact sample_names_are_ordered|].
  pose proof (store_catalog_is_sorted_answer catalogStoreEnv liveFilter unsortedWorld
                sample_names_are_ordered) as H.
  cbv zeta in H. cbn [seats_history_teams catalogStoreEnv] in H.
  destruct H as (catalog & Hrun & Hsorted & _ & Hlen).
  exists catalog. split; [exact Hrun|]. split; [exact Hsorted | exact Hlen].
Defined.

Lemma catalog_ids_distinct_witness :
  Forall (fun t => truthy_onumber (id t) = true) numberedListing /\
  NoDup (map id (uniqueTeams numberedListing)) /\
  uniqueTeams numberedListing = [numberedTeam "a" 1; numberedTeam "b" 2].
Proof.
  assert (Forall (fun t => truthy_onumber (id t) = true) numberedListing) as Hids
    by (repeat constructor).
  split; [exact Hids|].
  split; [exact (proj1 (catalog_ids_distinct numberedListing Hids)) |
          vm_compute; reflexivity].
Defined.


Lemma editor_name_format_witness :
  has_char "/" "vscode" = false /\ has_char "/" "1.87.0" = false /\
  formatEditorName (Some "vscode/1.87.0/copilot") = Some "vscode (1.87.0)" /\
  formatEditorName (Some "vscode") = Some "vscode (undefined)".
Proof.
  assert (has_char "/" "vscode" = false) as Hn by reflexivity.
  assert (has_char "/" "1.87.0" = false) as Hv by reflexivity.
  split; [exact Hn|]. split; [exact Hv|].
  destruct (editor_name_format "vscode" "1.87.0" "copilot" Hn Hv)
    as (_ & Hmore & Hbare & _).
  split; [exact Hmore | apply Hbare; discriminate].
Defined.


Lemma members_of_all_pages_witness :
  pending pagedMembersNet =
    (servePages [["A"; "B"]; ["C"]] "https://api.github.com/members?page=2"
       ++ [respond unavailable])%list /\
  "C" ∈ fst (getTeamMembers "octo" "t0ken" "X" ∅ pagedMembersNet) /\
  length (requests (snd (getTeamMembers "octo" "t0ken" "X" ∅ pagedMembersNet))) = 2%nat.
Proof.
  assert (pending pagedMembersNet =
            (servePages [["A"; "B"]; ["C"]] "https://api.github.com/members?page=2"
               ++ [respond unavailable])%list) as Hp by reflexivity.
  split; [exact Hp|].
  destruct (members_of_all_pages "octo" "t0ken" "X" ∅ pagedMembersNet
              [["A"; "B"]; ["C"]] "https://api.github.com/members?page=2"
              [respond unavailable]
              ltac:(discriminate) ltac:(discriminate) eq_refl Hp)
    as (Hmem & _ & Hreq).
  split.
  - apply Hmem. right. split; [discriminate|].
    exists ["C"]. split; [right; left; reflexivity | left; reflexivity].
  - rewrite Hreq. reflexivity.
Defined.

Lemma live_seats_were_listed_witness :
  fst (getCopilotSeatsFromApi sampleEnv liveFilter twoPageWorld) =
    OK (fst (aggregateFresh sampleEnv fetchedPages (Some []) twoPageWorld)) /\
  listedBy (pending twoPageNet) seatC.
Proof.
  assert (getCopilotSeatsFromApi sampleEnv liveFilter twoPageWorld =
            (OK (fst (aggregateFresh sampleEnv fetchedPages (Some []) twoPageWorld)),
             snd (getCopilotSeatsFromApi sampleEnv liveFilter twoPageWorld)))
    as Hrun by (vm_compute; reflexivity).
  split; [rewrite Hrun; reflexivity|].
  apply (live_seats_were_listed sampleEnv liveFilter twoPageWorld _ _ Hrun seatC).
  vm_compute. right. right. left. reflexivity.
Defined.

Lemma stored_seats_were_returned_witness :
  fst (getCopilotSeatsFromDatabase twoPageStoreEnv sampleFilter sampleWorld) =
    OK (fst (aggregateFresh twoPageStoreEnv [page1; page2] (Some []) sampleWorld)) /\
  exists q records d,
    seats_history twoPageStoreEnv q = Some records /\ In d records /\ In seatC (seats d).
Proof.
  assert (getCopilotSeatsFromDatabase twoPageStoreEnv sampleFilter sampleWorld =
            (OK (fst (aggregateFresh twoPageStoreEnv [page1; page2] (Some []) sampleWorld)),
             snd (getCopilotSeatsFromDatabase twoPageStoreEnv sampleFilter sampleWorld)))
    as Hrun by (vm_compute; reflexivity).
  split; [rewrite Hrun; reflexivity|].
  destruct (stored_seats_were_returned twoPageStoreEnv sampleFilter sampleWorld _ _ Hrun
              seatC) as (q & records & d & _ & Hq & Hd & Hs).
  { vm_compute. right. right. left. reflexivity. }
  now exists q, records, d.
Defined.

Lemma management_mirrors_retrieval_witness :
  fst (getCopilotSeats emptyStoreEnv sampleFilter sampleWorld) = OK emptyAggregate /\
  fst (getCopilotSeatsManagement emptyStoreEnv sampleFilter sampleWorld) =
    OK (SeatsData emptyAggregate).
Proof.
  assert (getCopilotSeats emptyStoreEnv sampleFilter sampleWorld =
            (OK emptyAggregate, snd (getCopilotSeats emptyStoreEnv sampleFilter sampleWorld)))
    as Hrun by (vm_compute; reflexivity).
  split; [rewrite Hrun; reflexivity|].
  rewrite (management_mirrors_retrieval emptyStoreEnv sampleFilter sampleWorld _ _ Hrun).
  reflexivity.
Defined.
